(** * scRNA preprocessing pipeline: workflow layer and notebook executors

    A shallow embedding of the Snakemake workflow definition
    ([workflow/Snakefile], [config/config.yaml]) and of the bookkeeping
    parts of the analysis notebooks (sample merging, normalization,
    dimensionality reduction, clustering, reference annotation), together
    with the properties stated about them.

    Numerical library routines (PCA, UMAP, Leiden, scran, ...) are opaque:
    they appear as section variables or as recorded library calls. *)

From Stdlib Require Import ZArith QArith Ascii DecimalString.
From stdpp Require Import base list strings gmap.

Set Warnings "-register-all".

(** stdpp freezes [String.append] under [simpl]; the string lemmas below
    unfold it. *)
#[local] Arguments String.append !s1 s2 : simpl nomatch.

Local Open Scope Z_scope.

(* ===================================================================== *)
(** * Python values, exceptions and strings *)
(* ===================================================================== *)

Module Py.

(** Exceptions the modelled code can raise. *)
Inductive exn : Type :=
  | KeyError (key : string)
  | NameError (name : string)
  | IndexError
  | FileNotFoundError (path : string)
  | ValueError (msg : string)
  | ParserError
  | InvalidIndexError
  | OSError (path : string)
  | Unmodelled (what : string).

Inductive result (A : Type) : Type :=
  | Ok (a : A)
  | Raise (e : exn).
Arguments Ok {A} a.
Arguments Raise {A} e.

Definition bind {A B : Type} (r : result A) (k : A -> result B) : result B :=
  match r with
  | Ok a => k a
  | Raise e => Raise e
  end.

Notation "'let*' x ':=' r 'in' k" := (bind r (fun x => k))
  (at level 10, x name, r at level 100, k at level 200).

Fixpoint mapM {A B : Type} (f : A -> result B) (l : list A) : result (list B) :=
  match l with
  | [] => Ok []
  | a :: l' => let* b := f a in let* bs := mapM f l' in Ok (b :: bs)
  end.

(** Values a YAML configuration document (and a notebook parameter) holds. *)
Inductive value : Type :=
  | VNone
  | VStr (s : string)
  | VBool (b : bool)
  | VInt (z : Z)
  | VReal (q : Q)
  | VList (l : list value)
  | VDict (m : list (string * value)).

(** [d[key]] on a dictionary. *)
Fixpoint assoc {A : Type} (key : string) (m : list (string * A)) : option A :=
  match m with
  | [] => None
  | (k, v) :: m' => if String.eqb k key then Some v else assoc key m'
  end.

Definition getitem (v : value) (key : string) : result value :=
  match v with
  | VDict m =>
      match assoc key m with
      | Some x => Ok x
      | None => Raise (KeyError key)
      end
  | _ => Raise (KeyError key)
  end.

(** Truth value testing, as [if v:] does it. *)
Definition truthy (v : value) : bool :=
  match v with
  | VNone => false
  | VStr s => negb (String.eqb s "")
  | VBool b => b
  | VInt z => negb (z =? 0)
  | VReal q => negb (Qeq_bool q 0)
  | VList l => match l with [] => false | _ => true end
  | VDict m => match m with [] => false | _ => true end
  end.

(** [v == "literal"]. *)
Definition eq_str (v : value) (s : string) : bool :=
  match v with
  | VStr s' => String.eqb s' s
  | _ => false
  end.

(** [str(v)] for the scalars that occur as wildcard values. *)
Definition str (v : value) : option string :=
  match v with
  | VNone => Some "None"
  | VStr s => Some s
  | VBool true => Some "True"
  | VBool false => Some "False"
  | VInt z => Some (NilZero.string_of_int (Z.to_int z))
  | _ => None
  end.

(** Position of the first occurrence of a label. *)
Fixpoint index_of (x : string) (l : list string) : option nat :=
  match l with
  | [] => None
  | y :: l' => if String.eqb y x then Some O else option_map S (index_of x l')
  end.

(** ** Strings *)

Definition underscore : ascii := "_"%char.

Fixpoint starts_with (p s : string) : bool :=
  match p, s with
  | EmptyString, _ => true
  | String a p', String b s' => Ascii.eqb a b && starts_with p' s'
  | String _ _, EmptyString => false
  end.

(** [s.split(sep)] for a one-character separator: never the empty list. *)
Fixpoint split_on (sep : ascii) (s : string) : list string :=
  match s with
  | EmptyString => [EmptyString]
  | String c s' =>
      if Ascii.eqb c sep then EmptyString :: split_on sep s'
      else match split_on sep s' with
           | [] => [String c EmptyString]
           | w :: ws => String c w :: ws
           end
  end.

Fixpoint contains_char (c : ascii) (s : string) : bool :=
  match s with
  | EmptyString => false
  | String a s' => Ascii.eqb a c || contains_char c s'
  end.

(** [re.sub(pat, "", s)] for a pattern without metacharacters: every
    occurrence of [pat], found left to right without overlap, is removed.
    [skip] counts the characters of the current occurrence still to drop. *)
Fixpoint remove_all_from (pat : string) (skip : nat) (s : string) : string :=
  match s with
  | EmptyString => EmptyString
  | String c s' =>
      match skip with
      | S k => remove_all_from pat k s'
      | O =>
          if starts_with pat s
          then remove_all_from pat (Nat.pred (String.length pat)) s'
          else String c (remove_all_from pat O s')
      end
  end.

Definition remove_all (pat s : string) : string :=
  match pat with
  | EmptyString => s
  | _ => remove_all_from pat O s
  end.

End Py.

(* ===================================================================== *)
(** * Snakemake's [expand] *)
(* ===================================================================== *)

(** [expand] is Snakemake's; the workflow only calls it.  The model follows
    its documented behaviour: every keyword argument is turned into a list
    (a string or a non-iterable is one value), the lists are combined with
    [itertools.product] in keyword order, and the pattern is formatted once
    per combination.  Brace escapes are not modelled. *)
Module Expand.
Import Py.

Inductive segment : Type :=
  | Lit (s : string)
  | Field (name : string).

Definition push_lit (c : ascii) (segs : list segment) : list segment :=
  match segs with
  | Lit l :: rest => Lit (String c l) :: rest
  | _ => Lit (String c EmptyString) :: segs
  end.

(** [field] is the name read so far when the scan is inside braces. *)
Fixpoint parse_pattern_from (field : option string) (s : string) : list segment :=
  match s with
  | EmptyString =>
      match field with
      | None => []
      | Some n => [Field n]
      end
  | String c s' =>
      match field with
      | None =>
          if Ascii.eqb c "{" then parse_pattern_from (Some EmptyString) s'
          else push_lit c (parse_pattern_from None s')
      | Some n =>
          if Ascii.eqb c "}" then Field n :: parse_pattern_from None s'
          else parse_pattern_from (Some (n +:+ String c EmptyString)) s'
      end
  end.

Definition parse_pattern : string -> list segment := parse_pattern_from None.

(** [str.format] of the pattern with the combination as keyword arguments. *)
Fixpoint format (segs : list segment) (comb : list (string * string)) : result string :=
  match segs with
  | [] => Ok EmptyString
  | Lit l :: rest => let* r := format rest comb in Ok (l +:+ r)
  | Field n :: rest =>
      match assoc n comb with
      | Some v => let* r := format rest comb in Ok (v +:+ r)
      | None => Raise (KeyError n)
      end
  end.

(** [itertools.product]: the last list varies fastest. *)
Fixpoint product {A : Type} (ls : list (list A)) : list (list A) :=
  match ls with
  | [] => [[]]
  | l :: rest => x ← l; cons x <$> product rest
  end.

(** The number of combinations [product] enumerates. *)
Fixpoint grid_size {A : Type} (ds : list (list A)) : nat :=
  match ds with
  | [] => 1
  | d :: ds' => length d * grid_size ds'
  end.

(** The values one keyword argument stands for. *)
Definition flatten (v : value) : list value :=
  match v with
  | VList l => l
  | VDict m => map (fun kv => VStr (fst kv)) m
  | _ => [v]
  end.

Definition tag (kv : string * list string) : list (string * string) :=
  map (fun x => (fst kv, x)) (snd kv).

(** [expand] on wildcard values already converted to text. *)
Definition expand_str (pattern : string) (wildcards : list (string * list string))
  : result (list string) :=
  mapM (format (parse_pattern pattern)) (product (map tag wildcards)).

Section Rendering.

(** [str(v)] for a float or a container, as Python prints it: not
    computed here, taken as given. *)
Variable str_opaque : value -> string.

(** [str(v)]. *)
Definition text (v : value) : string :=
  match str v with
  | Some s => s
  | None => str_opaque v
  end.

(** The text [expand] substitutes for a wildcard value. *)
Definition render (v : value) : result string := Ok (text v).

(** The text a format pattern with fields separated by [sep] yields for
    the values [vals]. *)
Fixpoint join (sep : string) (vals : list string) : string :=
  match vals with
  | [] => EmptyString
  | [v] => v
  | v :: rest => v +:+ sep +:+ join sep rest
  end.

(** A value that cannot blur the ["__"] after it: every underscore in it is
    followed by another character that is not an underscore. *)
Fixpoint sep_safe (s : string) : bool :=
  match s with
  | EmptyString => true
  | String c s' =>
      if Ascii.eqb c underscore then
        match s' with
        | EmptyString => false
        | String c' _ => negb (Ascii.eqb c' underscore) && sep_safe s'
        end
      else sep_safe s'
  end.

Definition expand (pattern : string) (wildcards : list (string * value))
  : result (list string) :=
  let* ws := mapM (fun kv => let* vs := mapM render (flatten (snd kv)) in
                               Ok (fst kv, vs)) wildcards in
  expand_str pattern ws.

End Rendering.

End Expand.

(* ===================================================================== *)
(** * The workflow definition: [config/config.yaml] and [workflow/Snakefile] *)
(* ===================================================================== *)

Module Snakefile.
Import Py.

(** [config/config.yaml] as loaded by [configfile:]. *)
Definition config_yaml : value :=
  VDict [
    ("conda_envs", VDict [
       ("use_existing_envs", VBool true);
       ("envs_path", VStr "~/work/miniconda/envs/")]);
    ("data", VDict [
       ("samples_in_directory", VBool false);
       ("sample_sheet_path", VStr "resources/sample_sheet.tsv")]);
    ("count_layer_to_use", VStr "soupX_counts");
    ("subset", VDict [
       ("use", VBool true);
       ("fraction", VReal (3 # 10))]);
    ("dim_reduc", VDict [
       ("layer_to_use", VStr "log1p_norm_of_soupX_counts");
       ("scale_data_before_pca", VList [VBool true; VBool false]);
       ("genes_for_pca", VList [VStr "all"; VStr "globally_highly_variable";
                                VStr "highly_variable_per_sample"]);
       ("cc_method", VList [VStr "None"; VStr "regress_out"; VStr "cc_genes_out";
                            VStr "cc_difference_regressed_out"]);
       ("pca_n_components", VInt 50);
       ("umap_n_neighbors", VInt 30)])
  ].

(** [config.yaml] with other [data] and [dim_reduc] sections. *)
Definition configuration (data dim_reduc : list (string * value)) : value :=
  VDict [
    ("conda_envs", VDict [
       ("use_existing_envs", VBool true);
       ("envs_path", VStr "~/work/miniconda/envs/")]);
    ("data", VDict data);
    ("count_layer_to_use", VStr "soupX_counts");
    ("subset", VDict [
       ("use", VBool true);
       ("fraction", VReal (3 # 10))]);
    ("dim_reduc", VDict dim_reduc)
  ].

Definition shipped_data : list (string * value) :=
  [("samples_in_directory", VBool false);
   ("sample_sheet_path", VStr "resources/sample_sheet.tsv")].

Definition shipped_dim_reduc : list (string * value) :=
  [("layer_to_use", VStr "log1p_norm_of_soupX_counts");
   ("scale_data_before_pca", VList [VBool true; VBool false]);
   ("genes_for_pca", VList [VStr "all"; VStr "globally_highly_variable";
                            VStr "highly_variable_per_sample"]);
   ("cc_method", VList [VStr "None"; VStr "regress_out"; VStr "cc_genes_out";
                        VStr "cc_difference_regressed_out"]);
   ("pca_n_components", VInt 50);
   ("umap_n_neighbors", VInt 30)].

Definition with_dim_reduc (dim_reduc : list (string * value)) : value :=
  configuration shipped_data dim_reduc.

(** [config.yaml] edited for a directory scan, as its comments describe:
    no sample sheet, [data.samples_in_directory] switched on. *)
Definition directory_scan_config : value :=
  configuration [("samples_in_directory", VBool true);
                 ("sample_sheet_path", VStr "")] shipped_dim_reduc.

(** [config.yaml] with both sample sources switched off. *)
Definition no_source_config : value :=
  configuration [("samples_in_directory", VBool false);
                 ("sample_sheet_path", VStr "")] shipped_dim_reduc.

(** A configuration that also carries the flag at top level, where the
    Snakefile tests it. *)
Definition with_top_level_flag (flag : value) (config : value) : value :=
  match config with
  | VDict m => VDict (("samples_in_directory", flag) :: m)
  | _ => config
  end.

(** Two cell-cycle methods, two component counts, one value elsewhere. *)
Definition scenario_config : value :=
  with_dim_reduc [
    ("layer_to_use", VStr "log1p_norm_of_soupX_counts");
    ("scale_data_before_pca", VBool true);
    ("genes_for_pca", VStr "all");
    ("cc_method", VList [VStr "None"; VStr "regress_out"]);
    ("pca_n_components", VList [VInt 50; VInt 100]);
    ("umap_n_neighbors", VInt 30)].

(** Values that contain the separator of the file name pattern. *)
Definition colliding_config : value :=
  with_dim_reduc [
    ("layer_to_use", VStr "log1p_norm_of_soupX_counts");
    ("scale_data_before_pca", VBool true);
    ("genes_for_pca", VList [VStr "all"; VStr "all__None"]);
    ("cc_method", VList [VStr "None"; VStr "None__None"]);
    ("pca_n_components", VInt 50);
    ("umap_n_neighbors", VInt 30)].

(** A value that ends with the first character of the separator. *)
Definition trailing_config : value :=
  with_dim_reduc [
    ("layer_to_use", VStr "log1p_norm_of_soupX_counts");
    ("scale_data_before_pca", VBool true);
    ("genes_for_pca", VList [VStr "all"; VStr "all_"]);
    ("cc_method", VList [VStr "_None"; VStr "None"]);
    ("pca_n_components", VInt 50);
    ("umap_n_neighbors", VInt 30)].

(** Values of different types with the same text. *)
Definition same_text_config : value :=
  with_dim_reduc [
    ("layer_to_use", VStr "log1p_norm_of_soupX_counts");
    ("scale_data_before_pca", VList [VBool true; VStr "True"]);
    ("genes_for_pca", VStr "all");
    ("cc_method", VList [VNone; VStr "None"]);
    ("pca_n_components", VList [VInt 50; VStr "50"]);
    ("umap_n_neighbors", VInt 30)].

(** ** Sample sheet *)

(** A data frame as the Snakefile uses it: the row labels, which are
    text, and the names of the remaining columns. *)
Record dataframe : Type := {
  index : list string;
  columns : list string
}.

Definition tab : ascii := "009"%char.
Definition newline : ascii := "010"%char.
Definition carriage : ascii := "013"%char.
Definition quote : ascii := "034"%char.
Definition space : ascii := "032"%char.

Definition nonblank (s : string) : bool := negb (String.eqb s EmptyString).

Definition cell (i : nat) (row : list string) : string := nth i row EmptyString.

(** *** The tokenizer of [pd.read_csv]

    [pd.read_csv(path, index_col = ..., sep = ...)] with every other
    argument at its default: the C tokenizer with the double quote as
    quote character, doubled quotes, no escape character, no comment
    character, blank lines skipped.  The text is the decoded content of the file. *)

Inductive tokenizer_state : Type :=
  | START_RECORD (fresh : bool)
  | WHITESPACE_LINE (fresh : bool) (seen : string)
  | START_FIELD
  | IN_FIELD
  | IN_QUOTED_FIELD
  | QUOTE_IN_QUOTED_FIELD
  | EAT_CRNL
  | EAT_CRNL_NOP.

(** The tokenizer: its state, the field and the line being read, and the
    lines read.  [fresh] records that the line being read starts the text
    or follows a line feed; [seen] holds the blanks a line has begun
    with. *)
Record parser : Type := {
  tok_state : tokenizer_state;
  tok_field : string;
  tok_fields : list string;
  tok_lines : list (list string)
}.

Definition tokenizer_start : parser :=
  {| tok_state := START_RECORD true; tok_field := EmptyString;
     tok_fields := []; tok_lines := [] |}.

Definition goto (s : tokenizer_state) (p : parser) : parser :=
  {| tok_state := s; tok_field := tok_field p;
     tok_fields := tok_fields p; tok_lines := tok_lines p |}.

(** [PUSH_CHAR(c)]. *)
Definition push (c : ascii) (p : parser) (s : tokenizer_state) : parser :=
  {| tok_state := s; tok_field := tok_field p +:+ String c EmptyString;
     tok_fields := tok_fields p; tok_lines := tok_lines p |}.

(** [END_FIELD()]. *)
Definition end_field (p : parser) (s : tokenizer_state) : parser :=
  {| tok_state := s; tok_field := EmptyString;
     tok_fields := tok_fields p ++ [tok_field p]; tok_lines := tok_lines p |}.

(** [end_line]: a line after the first data line with more fields than
    the line before it is an error; a data line with fewer fields is
    filled up with empty fields. *)
Definition end_line (p : parser) (s : tokenizer_state) : result parser :=
  let n := length (tok_lines p) in
  let ex := match last (tok_lines p) with
            | Some l => length l
            | None => O
            end in
  let k := length (tok_fields p) in
  if (1 <? n)%nat && (ex <? k)%nat then Raise ParserError
  else Ok {| tok_state := s; tok_field := EmptyString; tok_fields := [];
             tok_lines :=
               tok_lines p ++
               [if (0 <? n)%nat && (k <? ex)%nat
                then tok_fields p ++ replicate (ex - k) EmptyString
                else tok_fields p] |}.

(** [IS_WHITESPACE(c)]. *)
Definition is_whitespace (c : ascii) : bool :=
  Ascii.eqb c space || Ascii.eqb c tab.

Definition start_field (sep : ascii) (p : parser) (c : ascii) : result parser :=
  if Ascii.eqb c newline then
    end_line (end_field p START_FIELD) (START_RECORD true)
  else if Ascii.eqb c carriage then Ok (end_field p EAT_CRNL)
  else if Ascii.eqb c quote then Ok (goto IN_QUOTED_FIELD p)
  else if Ascii.eqb c sep then Ok (end_field p START_FIELD)
  else Ok (push c p IN_FIELD).

Definition in_field (sep : ascii) (p : parser) (c : ascii) : result parser :=
  if Ascii.eqb c newline then
    end_line (end_field p IN_FIELD) (START_RECORD true)
  else if Ascii.eqb c carriage then Ok (end_field p EAT_CRNL)
  else if Ascii.eqb c sep then Ok (end_field p START_FIELD)
  else Ok (push c p IN_FIELD).

Definition start_record (sep : ascii) (fresh : bool) (p : parser) (c : ascii)
  : result parser :=
  if Ascii.eqb c newline then Ok (goto (START_RECORD true) p)
  else if Ascii.eqb c carriage then Ok (goto EAT_CRNL_NOP p)
  else if is_whitespace c && negb (Ascii.eqb c sep) then
    Ok (goto (WHITESPACE_LINE fresh (String c EmptyString)) p)
  else start_field sep p c.

(** One character.  A line that begins with blanks and goes on with
    something else is read again from its start as a field; the tokenizer
    finds that start by going back to the last line feed within the chunk
    it holds, so that outside a fresh line, or in a text of several chunks
    ([single_chunk] unset), what it reads again is not modelled. *)
Definition step (sep : ascii) (single_chunk : bool) (p : parser) (c : ascii)
  : result parser :=
  match tok_state p with
  | START_RECORD fresh => start_record sep fresh p c
  | WHITESPACE_LINE fresh seen =>
      if Ascii.eqb c newline then Ok (goto (START_RECORD true) p)
      else if Ascii.eqb c carriage then Ok (goto EAT_CRNL_NOP p)
      else if is_whitespace c && negb (Ascii.eqb c sep) then
        Ok (goto (WHITESPACE_LINE fresh (seen +:+ String c EmptyString)) p)
      else if fresh && single_chunk then
        in_field sep {| tok_state := IN_FIELD; tok_field := seen;
                        tok_fields := tok_fields p; tok_lines := tok_lines p |} c
      else Raise (Unmodelled "read_csv: blanks before a field, after a carriage return or in a long file")
  | START_FIELD => start_field sep p c
  | IN_FIELD => in_field sep p c
  | IN_QUOTED_FIELD =>
      if Ascii.eqb c quote then Ok (goto QUOTE_IN_QUOTED_FIELD p)
      else Ok (push c p IN_QUOTED_FIELD)
  | QUOTE_IN_QUOTED_FIELD =>
      if Ascii.eqb c quote then Ok (push c p IN_QUOTED_FIELD)
      else if Ascii.eqb c sep then Ok (end_field p START_FIELD)
      else if Ascii.eqb c newline then
        end_line (end_field p START_FIELD) (START_RECORD true)
      else if Ascii.eqb c carriage then Ok (end_field p EAT_CRNL)
      else Ok (push c p IN_FIELD)
  | EAT_CRNL =>
      if Ascii.eqb c newline then end_line p (START_RECORD true)
      else if Ascii.eqb c sep then
        let* p' := end_line p START_FIELD in Ok (end_field p' START_FIELD)
      else
        let* p' := end_line p (START_RECORD false) in
        start_record sep false p' c
  | EAT_CRNL_NOP =>
      if Ascii.eqb c newline then Ok (goto (START_RECORD true) p)
      else if Ascii.eqb c sep then Ok (goto (START_RECORD false) p)
      else start_record sep false (goto (START_RECORD false) p) c
  end.

Fixpoint feed (sep : ascii) (single_chunk : bool) (p : parser) (text : string)
  : result parser :=
  match text with
  | EmptyString => Ok p
  | String c text' =>
      let* p' := step sep single_chunk p c in feed sep single_chunk p' text'
  end.

(** The end of the text ([parser_handle_eof]). *)
Definition handle_eof (p : parser) : result (list (list string)) :=
  match tok_state p with
  | START_RECORD _ | WHITESPACE_LINE _ _ | EAT_CRNL_NOP => Ok (tok_lines p)
  | IN_QUOTED_FIELD => Raise ParserError
  | IN_FIELD | START_FIELD | QUOTE_IN_QUOTED_FIELD =>
      let* p' := end_line (end_field p START_FIELD) (START_RECORD true) in
      Ok (tok_lines p')
  | EAT_CRNL =>
      let* p' := end_line p (START_RECORD true) in Ok (tok_lines p')
  end.

(** The tokenizer asks for the text in chunks of 256 KiB. *)
Definition chunksize : N := 262144.

Definition tokenize (sep : ascii) (text : string) : result (list (list string)) :=
  let single_chunk := (N.of_nat (String.length text) <=? chunksize)%N in
  let* p := feed sep single_chunk tokenizer_start text in
  handle_eof p.

(** *** The index *)

Definition ascii_upper (c : ascii) : bool :=
  (65 <=? nat_of_ascii c)%nat && (nat_of_ascii c <=? 90)%nat.

Definition ascii_letter (c : ascii) : bool :=
  ascii_upper c
  || ((97 <=? nat_of_ascii c)%nat && (nat_of_ascii c <=? 122)%nat).

Definition ascii_lower (c : ascii) : ascii :=
  if ascii_upper c then ascii_of_nat (nat_of_ascii c + 32) else c.

Fixpoint lower (s : string) : string :=
  match s with
  | EmptyString => EmptyString
  | String c s' => String (ascii_lower c) (lower s')
  end.

(** The words beginning with a letter that pandas reads as a missing
    value, a number or a truth value, in lower case. *)
Definition reserved_words : list string :=
  ["nan"; "na"; "n/a"; "null"; "none"; "inf"; "infinity"; "true"; "false"].

(** A label that stays the text it is, whatever the other labels are: it
    begins with a letter and is, case apart, none of the reserved words. *)
Definition text_label (s : string) : bool :=
  match s with
  | EmptyString => false
  | String c _ =>
      ascii_letter c && negb (existsb (String.eqb (lower s)) reserved_words)
  end.

Fixpoint distinct (l : list string) : bool :=
  match l with
  | [] => true
  | x :: l' => negb (existsb (String.eqb x) l') && distinct l'
  end.

(** [pd.read_csv(text, index_col = index_col, sep = sep)] on the text of the
    file.  The first line read names the columns and the column
    [index_col] becomes the row labels.  What pandas does beyond that is
    not modelled and reported as such: a header with an empty or a
    repeated name, which it rewrites; a first data line longer than the
    header, which it takes for an unnamed index; row labels that are not
    all [text_label]s, which it may turn into numbers, truth values or
    missing values. *)
Definition parse_csv (sep : ascii) (index_col : string) (text : string)
  : result dataframe :=
  let* lines := tokenize sep text in
  match lines with
  | [] => Raise (ValueError "No columns to parse from file")
  | header :: rows =>
      if negb (forallb nonblank header && distinct header) then
        Raise (Unmodelled "read_csv: header names that pandas rewrites")
      else if negb (forallb (fun r => Nat.eqb (length r) (length header)) rows)
      then Raise (Unmodelled "read_csv: data lines longer than the header")
      else
        match index_of index_col header, rows with
        | None, [] => Raise (Unmodelled "read_csv: index column of an empty frame")
        | None, _ :: _ => Raise (ValueError "Index column is not in the header")
        | Some i, _ =>
            if forallb text_label (map (cell i) rows) then
              Ok {| index := map (cell i) rows;
                    columns :=
                      map (fun j => cell j header)
                          (List.filter (fun j => negb (Nat.eqb j i))
                                       (seq 0 (length header))) |}
            else Raise (Unmodelled "read_csv: row labels that pandas does not keep as text")
        end
  end.

(** The text of a sheet with the rows [(A, path_A)] and [(B, path_B)]. *)
Definition two_row_sheet (path_A path_B : string) : string :=
  "sample_name" +:+ String tab ("path" +:+ String newline (
  "A" +:+ String tab (path_A +:+ String newline (
  "B" +:+ String tab (path_B +:+ String newline EmptyString))))).

(** A field of a sheet written as it is: no tab, no line feed, no carriage
    return, and no double quote in front. *)
Definition plain_field (s : string) : bool :=
  negb (contains_char tab s) && negb (contains_char newline s)
  && negb (contains_char carriage s)
  && match s with
     | String c _ => negb (Ascii.eqb c quote)
     | EmptyString => true
     end.

(** What sample resolution does, in order. *)
Inductive event : Type :=
  | ReadCsv (path : value)
  | ReadSample (arg : value)
  | Print (msg : string).

Section Workflow.

(** [scripts/samples_auto.py] is not part of the sources at hand:
    [read_sample] is a parameter. *)
Variable read_sample : value -> result dataframe.

(** The text files on disk. *)
Variable files : gmap string string.

(** [str] of a float or a container. *)
Variable str_opaque : value -> string.

Definition read_csv (path : value) (index_col : string) (sep : ascii)
  : result dataframe :=
  match path with
  | VStr p =>
      match files !! p with
      | Some text => parse_csv sep index_col text
      | None => Raise (FileNotFoundError p)
      end
  | _ => Raise (ValueError "Invalid file path or buffer object type")
  end.

(** The [if]/[elif]/[else] that binds [samples]; [None] is the name left
    unbound. *)
Definition load_samples (config : value)
  : list event * result (option dataframe) :=
  match (let* d := getitem config "data" in getitem d "sample_sheet_path") with
  | Raise e => ([], Raise e)
  | Ok sheet =>
      if truthy sheet then
        ([ReadCsv sheet],
         let* df := read_csv sheet "sample_name" tab in Ok (Some df))
      else
        match getitem config "samples_in_directory" with
        | Raise e => ([], Raise e)
        | Ok flag =>
            if truthy flag then
              match (let* d := getitem config "data" in
                     getitem d "samples_in_directory") with
              | Raise e => ([], Raise e)
              | Ok arg =>
                  ([ReadSample arg],
                   let* df := read_sample arg in Ok (Some df))
              end
            else ([Print "no samples detected"], Ok None)
        end
  end.

(** [wc = samples.index]. *)
Definition resolve_samples (config : value) : list event * result (list string) :=
  let '(ev, r) := load_samples config in
  (ev,
   let* samples := r in
   match samples with
   | Some df => Ok (index df)
   | None => Raise (NameError "samples")
   end).

(** Location of the conda environments. *)
Definition conda_env (config : value) : result (value * string) :=
  let* c := getitem config "conda_envs" in
  let* use := getitem c "use_existing_envs" in
  if truthy use then
    let* p := getitem c "envs_path" in Ok (p, EmptyString)
  else Ok (VStr "../envs/", ".yaml").

Definition filename (config : value) : result string :=
  let* s := getitem config "subset" in
  let* use := getitem s "use" in
  Ok (if truthy use then "subset" else "merged").

Definition checkpoint_pattern (fname : string) : string :=
  "results/analysis/" +:+ fname +:+
  "/dim_reduc/checkpoints/{layer_to_use}__{scale_data_before_pca}__{genes_for_pca}__{cc_method}__{pca_n_components}__{umap_n_neighbors}.done".

Definition dim_reduc_keys : list string :=
  ["layer_to_use"; "scale_data_before_pca"; "genes_for_pca"; "cc_method";
   "pca_n_components"; "umap_n_neighbors"].

(** The file name the pattern stands for at one grid point, given as the
    six values in keyword order. *)
Definition checkpoint_path (fname : string) (point : list string) : string :=
  "results/analysis/" +:+ fname +:+ "/dim_reduc/checkpoints/"
  +:+ Expand.join "__" point +:+ ".done".

(** The [expand(...)] call of rule [all]. *)
Definition checkpoints (config : value) (fname : string) : result (list string) :=
  let* d := getitem config "dim_reduc" in
  let* ws := mapM (fun k => let* v := getitem d k in Ok (k, v)) dim_reduc_keys in
  Expand.expand str_opaque (checkpoint_pattern fname) ws.

(** The values of one grid dimension. *)
Definition domain_values (config : value) (key : string) : result (list value) :=
  let* d := getitem config "dim_reduc" in
  let* v := getitem d key in
  Ok (Expand.flatten v).

(** The values of one grid dimension, as the text [expand] substitutes. *)
Definition domain (config : value) (key : string) : result (list string) :=
  let* d := getitem config "dim_reduc" in
  let* v := getitem d key in
  mapM (Expand.render str_opaque) (Expand.flatten v).

(** The input files of rule [all]. *)
Definition rule_all_input (config : value) : result (list string) :=
  let* fname := filename config in
  let* done := checkpoints config fname in
  Ok ("results/preprocessing/subset.h5ad" :: done).

Record workflow : Type := {
  wc : list string;
  env_prefix : value;
  env_suffix : string;
  targets : list string
}.

(** The Snakefile from top to bottom. *)
Definition snakefile (config : value) : list event * result workflow :=
  let '(ev, r) := resolve_samples config in
  (ev,
   let* w := r in
   let* env := conda_env config in
   let* t := rule_all_input config in
   Ok {| wc := w; env_prefix := fst env; env_suffix := snd env; targets := t |}).

End Workflow.

(** A stand-in for [str] on floats and containers, for configurations
    whose grid holds neither. *)
Definition str_unused (_ : value) : string := EmptyString.

End Snakefile.

(* ===================================================================== *)
(** * Reference annotation: feature augmentation ([scarches.ipynb]) *)
(* ===================================================================== *)

Module Annotation.
Import Py.

(** A row of a feature table ([adata.var], [reference_model_features]):
    both carry the gene id and the gene name, one of them as row label. *)
Record feature : Type := {
  gene_id : string;
  gene_name : string
}.

(** A reference of three features. *)
Definition example_reference : list feature :=
  [{| gene_id := "g1"; gene_name := "A" |};
   {| gene_id := "g2"; gene_name := "B" |};
   {| gene_id := "g3"; gene_name := "C" |}].

(** A matrix is kept by columns: one column per feature, one entry per
    cell. *)
Abbreviation matrix entry := (list (list entry)).

Section Augmentation.

(** Matrix entries; the notebook only ever creates the entry [zero]. *)
Context {entry : Type}.
Variable zero : entry.

(** The part of an AnnData object the augmentation touches.  After
    [var.set_index("gene_ids")] the features are labelled by [gene_id]. *)
Record anndata : Type := {
  n_obs : nat;
  var : list feature;
  X : matrix entry;
  layers : list (string * matrix entry)
}.

Definition var_index (a : anndata) : list string := map gene_id (var a).

Definition mem (x : string) (l : list string) : bool :=
  existsb (String.eqb x) l.

Fixpoint has_dup (l : list string) : bool :=
  match l with
  | [] => false
  | x :: l' => mem x l' || has_dup l'
  end.

(** [adata_to_map = adata.copy()], every layer but ["counts"] deleted,
    [X] set to the counts. *)
Definition counts_only (adata : anndata) : result anndata :=
  match assoc "counts" (layers adata) with
  | Some c =>
      Ok {| n_obs := n_obs adata; var := var adata; X := c;
            layers := List.filter (fun kv => String.eqb (fst kv) "counts")
                                  (layers adata) |}
  | None => Raise (KeyError "counts")
  end.

(** The genes of the reference that the query lacks, in reference order. *)
Definition missing_genes (reference_model_features : list feature)
  (adata_to_map : anndata) : list string :=
  List.filter (fun g => negb (mem g (var_index adata_to_map)))
              (map gene_id reference_model_features).

(** [reference_model_features.loc[labels, :]]. *)
Definition loc (reference_model_features : list feature) (labels : list string)
  : result (list feature) :=
  let* rows := mapM (fun g =>
      match List.filter (fun f => String.eqb (gene_id f) g)
                        reference_model_features with
      | [] => Raise (KeyError g)
      | fs => Ok fs
      end) labels in
  Ok (concat rows).

(** [np.zeros(shape = (rows, cols))]. *)
Definition zeros (rows cols : nat) : matrix entry :=
  replicate cols (replicate rows zero).

(** [sc.AnnData(X = zeros, obs = ..., var = ...)] with its shape check, then
    [layers["counts"] = X]. *)
Definition missing_gene_adata (reference_model_features : list feature)
  (adata : anndata) (missing : list string) : result anndata :=
  let* v := loc reference_model_features missing in
  if Nat.eqb (length v) (length missing) then
    let x := zeros (n_obs adata) (length missing) in
    Ok {| n_obs := n_obs adata; var := v; X := x; layers := [("counts", x)] |}
  else Raise (ValueError "var must have as many rows as X has columns").

(** [sc.concat([a; b], axis = 1, join = "outer")] for two objects over the
    same cells: features and columns are appended, a layer survives when
    both objects have it. *)
Definition concat_var (a b : anndata) : anndata :=
  {| n_obs := n_obs a;
     var := var a ++ var b;
     X := X a ++ X b;
     layers :=
       flat_map (fun kv =>
                   match assoc (fst kv) (layers b) with
                   | Some mb => [(fst kv, snd kv ++ mb)]
                   | None => []
                   end) (layers a) |}.

(** Positions of the labels in the index, as [Index.get_indexer] finds
    them. *)
Definition get_indexer (idx labels : list string) : result (list nat) :=
  if has_dup idx then Raise InvalidIndexError
  else mapM (fun g => match index_of g idx with
                      | Some i => Ok i
                      | None => Raise (KeyError g)
                      end) labels.

Definition take_at {A : Type} (positions : list nat) (l : list A)
  : result (list A) :=
  mapM (fun i => match l !! i with
                 | Some x => Ok x
                 | None => Raise IndexError
                 end) positions.

(** [adata[:, labels].copy()]. *)
Definition select_vars (a : anndata) (labels : list string) : result anndata :=
  let* pos := get_indexer (var_index a) labels in
  let* v := take_at pos (var a) in
  let* x := take_at pos (X a) in
  let* ls := mapM (fun kv => let* m := take_at pos (snd kv) in Ok (fst kv, m))
                  (layers a) in
  Ok {| n_obs := n_obs a; var := v; X := x; layers := ls |}.

(** The feature-augmentation cells, from [adata_to_map = adata.copy()] to
    the reordering by the reference index.  ([varm], which the notebook
    clears before the concatenation, is not part of the model.) *)
Definition augment (reference_model_features : list feature) (adata : anndata)
  : result anndata :=
  let* adata_to_map := counts_only adata in
  let missing := missing_genes reference_model_features adata_to_map in
  let* extra := missing_gene_adata reference_model_features adata missing in
  let adata_to_map_augmented := concat_var adata_to_map extra in
  select_vars adata_to_map_augmented (map gene_id reference_model_features).

(** The column of feature [g] in a matrix laid out along [idx]. *)
Definition column (idx : list string) (m : matrix entry) (g : string)
  : option (list entry) :=
  match index_of g idx with
  | Some i => m !! i
  | None => None
  end.

(** Shape invariant of an AnnData object. *)
Definition well_shaped (a : anndata) : Prop :=
  length (X a) = length (var a) /\
  Forall (fun kv => length (snd kv) = length (var a)) (layers a).

End Augmentation.

(** A query of two cells that has [g3] and [g1] of the reference, lacks
    [g2], and has a feature of its own. *)
Definition example_query : @anndata Z :=
  {| n_obs := 2;
     var := [{| gene_id := "g3"; gene_name := "C" |};
             {| gene_id := "g9"; gene_name := "Z" |};
             {| gene_id := "g1"; gene_name := "A" |}];
     X := [[1; 2]; [3; 4]; [5; 6]];
     layers := [("counts", [[1; 2]; [3; 4]; [5; 6]]);
                ("log1p_norm", [[7; 7]; [7; 7]; [7; 7]])] |}.

End Annotation.

(* ===================================================================== *)
(** * Merging the samples (the merge notebook) *)
(* ===================================================================== *)

Module Merge.
Import Py.

Definition in_range (lo hi c : ascii) : bool :=
  (N.leb (N_of_ascii lo) (N_of_ascii c)
   && N.leb (N_of_ascii c) (N_of_ascii hi))%bool.

(** The character class [[a-zA-Z0-9_]]. *)
Definition is_word (c : ascii) : bool :=
  in_range "a" "z" c || in_range "A" "Z" c || in_range "0" "9" c
  || Ascii.eqb c underscore.

Fixpoint take_while (f : ascii -> bool) (s : string) : string :=
  match s with
  | EmptyString => EmptyString
  | String c s' => if f c then String c (take_while f s') else EmptyString
  end.

Definition after_prefix (p s : string) : option string :=
  if starts_with p s
  then Some (String.substring (String.length p)
                              (String.length s - String.length p) s)
  else None.

(** [re.search("CE[a-zA-Z0-9_]*", s)]: the leftmost ["CE"] with the longest
    run of word characters after it. *)
Fixpoint re_search_CE (s : string) : option string :=
  match s with
  | EmptyString => None
  | String _ s' =>
      match after_prefix "CE" s with
      | Some rest => Some ("CE" +:+ take_while is_word rest)
      | None => re_search_CE s'
      end
  end.

Definition strip_prefixes (name : string) : string :=
  remove_all "5FU_" (remove_all "CE_SC_" name).

Definition tokens (name : string) : list string := split_on underscore name.

(** [name.split("_")[1]]. *)
Definition second_token (name : string) : result string :=
  match tokens name !! 1%nat with
  | Some w => Ok w
  | None => Raise IndexError
  end.

Definition first_token (name : string) : string := hd EmptyString (tokens name).

Definition control_if_C (treatment : string) : string :=
  if String.eqb treatment "C" then "Control" else treatment.

(** The sample identifier a path stands for. *)
Definition sample_id (path : string) : option string :=
  option_map strip_prefixes (re_search_CE path).

(** A path that names a sample the way the data set does: an identifier is
    found and has a treatment and a week token. *)
Definition well_named (path : string) : bool :=
  match sample_id path with
  | Some name => Nat.leb 2 (length (tokens name))
  | None => false
  end.

(** The entry of the [samples] dictionary a well-named path gives rise
    to. *)
Definition item_of (path : string) : option (string * (string * string * string)) :=
  match sample_id path with
  | Some name =>
      match tokens name !! 1%nat with
      | Some w => Some (name, (path, control_if_C (first_token name), w))
      | None => None
      end
  | None => None
  end.

Record sample_lists : Type := {
  sample_ids : list string;
  sample_treatments : list string;
  sample_weeks : list string
}.

(** The cell deriving ids, treatments and weeks from the paths. *)
Definition derive (sample_paths : list string) : result sample_lists :=
  let ids := omap re_search_CE sample_paths in
  let ids := map (remove_all "CE_SC_") ids in
  let ids := map (remove_all "5FU_") ids in
  let treatments := map first_token ids in
  let* weeks := mapM second_token ids in
  Ok {| sample_ids := ids;
        sample_treatments := map control_if_C treatments;
        sample_weeks := weeks |}.

(** [d[k] = v] on a dictionary that keeps insertion order. *)
Fixpoint dict_set {V : Type} (k : string) (v : V) (d : list (string * V))
  : list (string * V) :=
  match d with
  | [] => [(k, v)]
  | (k', v') :: d' =>
      if String.eqb k' k then (k', v) :: d' else (k', v') :: dict_set k v d'
  end.

Definition dict_of {V : Type} (items : list (string * V)) : list (string * V) :=
  fold_left (fun d kv => dict_set (fst kv) (snd kv) d) items [].

Fixpoint zip3 {A B C : Type} (a : list A) (b : list B) (c : list C)
  : list (A * B * C) :=
  match a, b, c with
  | x :: a', y :: b', z :: c' => (x, y, z) :: zip3 a' b' c'
  | _, _, _ => []
  end.

Fixpoint zip2 {A B : Type} (a : list A) (b : list B) : list (A * B) :=
  match a, b with
  | x :: a', y :: b' => (x, y) :: zip2 a' b'
  | _, _ => []
  end.

Section Merging.

(** A cell (one row of [obs]) as stored in a per-sample file. *)
Variable cell : Type.

(** The per-sample [annotation.h5ad] files on disk. *)
Variable stored : gmap string (list cell).

(** A row of the merged [obs]. *)
Record merged_cell : Type := {
  origin : cell;
  sample : string;
  treatment : string;
  week : string
}.

Definition read_h5ad (path : string) : result (list cell) :=
  match stored !! path with
  | Some cells => Ok cells
  | None => Raise (FileNotFoundError path)
  end.

(** One turn of the loop over [samples.items()], followed by the labelling
    [ad.concat(adatas, label = "sample")] gives the rows of that sample. *)
Definition load_sample (item : string * (string * string * string))
  : result (list merged_cell) :=
  let '(sample_id, (sample_path, tr, wk)) := item in
  let* sample_adata := read_h5ad sample_path in
  Ok (map (fun c => {| origin := c; sample := sample_id;
                       treatment := tr; week := wk |}) sample_adata).

(** The rows the data model promises for the sample at [path]: every cell
    of its file, labelled with the sample identifier, with the first token
    of the identifier as treatment ([C] standing for [Control]) and the
    second as week. *)
Definition annotated_cells (path : string) : list merged_cell :=
  match sample_id path, stored !! path with
  | Some name, Some cells =>
      match tokens name with
      | t0 :: t1 :: _ =>
          map (fun c => {| origin := c; sample := name;
                           treatment := control_if_C t0; week := t1 |}) cells
      | _ => []
      end
  | _, _ => []
  end.

(** The merge notebook up to [ad.concat], which refuses an empty
    collection. *)
Definition merge (sample_paths : list string) : result (list merged_cell) :=
  let* l := derive sample_paths in
  let samples :=
    dict_of (zip2 (sample_ids l)
                  (zip3 sample_paths (sample_treatments l) (sample_weeks l))) in
  let* adatas := mapM load_sample samples in
  match adatas with
  | [] => Raise (ValueError "No objects to concatenate")
  | _ => Ok (concat adatas)
  end.

(** [adata.obs_names_make_unique()] is anndata's: it renames rows and is
    taken as a function on the stored rows. *)
Variable make_names_unique : list cell -> list cell.

Definition obs_names_make_unique (adata : list merged_cell) : list merged_cell :=
  zip_with (fun m c => {| origin := c; sample := sample m;
                          treatment := treatment m; week := week m |})
           adata (make_names_unique (map origin adata)).

(** The file the notebook writes. *)
Definition merged_h5ad : string :=
  "/data/cephfs-1/work/groups/cubi/users/cemo10_c/scRNA/scRNA_preprocessing_pipeline/results/preprocessing/merged.h5ad".

(** The notebook from the list of paths to [adata.write]: the path
    written and the rows of the dataset written to it. *)
Definition notebook (sample_paths : list string)
  : result (string * list merged_cell) :=
  let* adata := merge sample_paths in
  Ok (merged_h5ad, obs_names_make_unique adata).

(** What the merge attaches to a cell. *)
Definition labels (m : merged_cell) : string * string * string :=
  (sample m, treatment m, week m).

End Merging.

End Merge.

(* ===================================================================== *)
(** * Per-sample notebook stages and the artifact files *)
(* ===================================================================== *)

Module Stages.
Import Py.

(** ** Temporary file names *)

Definition hex_digit (n : N) : ascii :=
  match n with
  | 0%N => "0" | 1%N => "1" | 2%N => "2" | 3%N => "3"
  | 4%N => "4" | 5%N => "5" | 6%N => "6" | 7%N => "7"
  | 8%N => "8" | 9%N => "9" | 10%N => "a" | 11%N => "b"
  | 12%N => "c" | 13%N => "d" | 14%N => "e" | _ => "f"
  end%char.

(** [bytes.hex()]: two lower-case digits per byte. *)
Definition hex_byte (b : Byte.byte) : string :=
  String (hex_digit (Byte.to_N b / 16))
         (String (hex_digit (Byte.to_N b mod 16)) EmptyString).

Fixpoint hex (bs : list Byte.byte) : string :=
  match bs with
  | [] => EmptyString
  | b :: bs' => hex_byte b +:+ hex bs'
  end.

(** Reading two hex digits back. *)
Definition digit_value (c : ascii) : N :=
  let n := N_of_ascii c in
  if (N.leb 48 n && N.leb n 57)%bool then (n - 48)%N
  else if (N.leb 97 n && N.leb n 102)%bool then (n - 87)%N
  else 0%N.

Definition unhex_byte (s : string) : option Byte.byte :=
  match s with
  | String h (String l EmptyString) =>
      Byte.of_N (16 * digit_value h + digit_value l)
  | _ => None
  end.

(** The random generator of one notebook process, as the bytes it will
    hand out. *)
Definition generator : Type := nat -> Byte.byte.

(** [np.random.bytes(n)]. *)
Definition random_bytes (g : generator) (n : nat) : list Byte.byte :=
  map g (seq 0 n).

Definition random_string (g : generator) : string := hex (random_bytes g 10).

Definition tmp_name (input_file : string) (g : generator) : string :=
  input_file +:+ random_string g +:+ ".tmp.h5ad".

Section Notebooks.

(** The dataset object held in memory and persisted in an [.h5ad] file. *)
Variable artifact : Type.

(** The cells of each notebook between reading and saving, given
    [count_layer_to_use]; a cell can raise, the lookup of a layer that is
    not there to begin with.  The notebooks for dimensionality reduction
    and clustering open the file with [backed = True]: their first cell
    after reading, [adata.X = adata.layers[...]], is kept apart, because
    the file changes with it. *)
Variable dim_reduction_assign : string -> artifact -> result artifact.
Variable dim_reduction_cells : string -> artifact -> result artifact.
Variable clustering_assign : string -> artifact -> result artifact.
Variable clustering_cells : string -> artifact -> result artifact.
Variable normalization_cells : string -> artifact -> result artifact.

(** A file is complete, or holds the beginning of a write in progress. *)
Inductive file : Type :=
  | Complete (a : artifact)
  | Partial.

(** What a notebook asks of the file system. *)
Inductive op : Type :=
  | Write (path : string) (a : artifact)
  | Rename (src dst : string).

(** [sc.read_h5ad(path)]. *)
Definition read_h5ad (st : gmap string file) (path : string) : result artifact :=
  match st !! path with
  | Some (Complete a) => Ok a
  | Some Partial => Raise (OSError path)
  | None => Raise (FileNotFoundError path)
  end.

(** [os.rename] replaces [dst]; a write leaves a complete file. *)
Definition run_op (o : op) (st : gmap string file) : result (gmap string file) :=
  match o with
  | Write p a => Ok (<[p := Complete a]> st)
  | Rename src dst =>
      match st !! src with
      | Some f => Ok (<[dst := f]> (delete src st))
      | None => Raise (FileNotFoundError src)
      end
  end.

(** The store a sequence of operations leaves, and whether it ran through:
    what was done before an operation that fails stays done. *)
Fixpoint run_ops (os : list op) (st : gmap string file)
  : gmap string file * result unit :=
  match os with
  | [] => (st, Ok tt)
  | o :: os' =>
      match run_op o st with
      | Ok st' => run_ops os' st'
      | Raise e => (st, Raise e)
      end
  end.

Inductive stage : Type :=
  | DimensionalityReduction
  | Clustering
  | Normalization.

(** The closing cell of each notebook: the file operations that save
    [adata]. *)
Definition save (s : stage) (input_file : string) (g : generator) (adata : artifact)
  : list op :=
  match s with
  | DimensionalityReduction => [Write input_file adata]
  | Clustering => [Write input_file adata]
  | Normalization =>
      [Write (tmp_name input_file g) adata;
       Rename (tmp_name input_file g) input_file]
  end.

(** The assignment to [X] of a notebook that opens its file backed; the
    normalization notebook reads the whole file into memory and its
    assignment is one of its cells. *)
Definition assign (s : stage) : option (string -> artifact -> result artifact) :=
  match s with
  | DimensionalityReduction => Some dim_reduction_assign
  | Clustering => Some clustering_assign
  | Normalization => None
  end.

Definition cells (s : stage) : string -> artifact -> result artifact :=
  match s with
  | DimensionalityReduction => dim_reduction_cells
  | Clustering => clustering_cells
  | Normalization => normalization_cells
  end.

(** All the cells of a notebook between reading and saving. *)
Definition stage_cells (s : stage) (count_layer_to_use : string) (adata : artifact)
  : result artifact :=
  match assign s with
  | None => cells s count_layer_to_use adata
  | Some assign_X =>
      let* backed := assign_X count_layer_to_use adata in
      cells s count_layer_to_use backed
  end.

(** The file operations of a whole notebook run on the store [st], in
    order, and how the notebook ends.  With a backed file the assignment
    to [X] is written into the file at once; a cell that raises ends the
    notebook, and what was written before stays written. *)
Definition notebook_ops (s : stage) (input_file count_layer_to_use : string)
  (g : generator) (st : gmap string file) : list op * result unit :=
  match read_h5ad st input_file with
  | Raise e => ([], Raise e)
  | Ok adata =>
      match assign s with
      | None =>
          match cells s count_layer_to_use adata with
          | Ok adata' => (save s input_file g adata', Ok tt)
          | Raise e => ([], Raise e)
          end
      | Some assign_X =>
          match assign_X count_layer_to_use adata with
          | Raise e => ([], Raise e)
          | Ok backed =>
              match cells s count_layer_to_use backed with
              | Ok adata' =>
                  (Write input_file backed :: save s input_file g adata', Ok tt)
              | Raise e => ([Write input_file backed], Raise e)
              end
          end
      end
  end.

Definition run_notebook (s : stage) (input_file count_layer_to_use : string)
  (g : generator) (st : gmap string file) : gmap string file * result unit :=
  let '(os, outcome) := notebook_ops s input_file count_layer_to_use g st in
  match run_ops os st with
  | (st', Ok _) => (st', outcome)
  | (st', Raise e) => (st', Raise e)
  end.

Definition written_paths (os : list op) : list string :=
  flat_map (fun o => match o with Write p _ => [p] | Rename _ _ => [] end) os.

(** ** Writes in progress *)

(** A write is not instantaneous: the file is created or truncated, then
    holds a partial dataset until the write completes.  A rename is one
    step. *)
Inductive action : Type :=
  | Truncate (path : string)
  | Fill (path : string) (a : artifact)
  | Move (src dst : string).

Definition actions (o : op) : list action :=
  match o with
  | Write p a => [Truncate p; Fill p a]
  | Rename src dst => [Move src dst]
  end.

Definition act (x : action) (st : gmap string file) : option (gmap string file) :=
  match x with
  | Truncate p => Some (<[p := Partial]> st)
  | Fill p a => Some (<[p := Complete a]> st)
  | Move src dst =>
      match st !! src with
      | Some f => Some (<[dst := f]> (delete src st))
      | None => None
      end
  end.

(** Two notebook processes over one file system: the store and what each
    process has left to do. *)
Definition machine : Type := gmap string file * list action * list action.

Inductive step : machine -> machine -> Prop :=
  | step_left x l r st st' :
      act x st = Some st' -> step (st, x :: l, r) (st', l, r)
  | step_right x l r st st' :
      act x st = Some st' -> step (st, l, x :: r) (st', l, r).

Inductive reachable (m0 : machine) : machine -> Prop :=
  | reach_refl : reachable m0 m0
  | reach_step m m' : reachable m0 m -> step m m' -> reachable m0 m'.

(** Where a process saving [a] through [tmp] stands: what it has left to
    do and, once the write is over, that its temporary file is complete. *)
Definition saving (st : gmap string file) (tmp input_file : string) (a : artifact)
  (todo : list action) : Prop :=
  todo = [Truncate tmp; Fill tmp a; Move tmp input_file]
  \/ todo = [Fill tmp a; Move tmp input_file]
  \/ (todo = [Move tmp input_file] /\ st !! tmp = Some (Complete a))
  \/ todo = [].

(** The actions of saving with the normalization notebook's closing
    cell. *)
Definition normalization_save (input_file : string) (g : generator) (a : artifact)
  : list action :=
  flat_map actions (save Normalization input_file g a).

End Notebooks.

Arguments Complete {artifact} a.
Arguments Partial {artifact}.
Arguments Write {artifact} path a.
Arguments Rename {artifact} src dst.
Arguments run_ops {artifact} os st.
Arguments Truncate {artifact} path.
Arguments Fill {artifact} path a.
Arguments Move {artifact} src dst.
Arguments written_paths {artifact} os.
Arguments save {artifact} s input_file g adata.
Arguments normalization_save {artifact} input_file g a.
Arguments saving {artifact} st tmp input_file a todo.
Arguments step {artifact} _ _.
Arguments reachable {artifact} m0 _.

(** Two generators that hand out different bytes, and a store holding one
    artifact. *)
Definition zeros_generator : generator := fun _ => Byte.x00.
Definition ones_generator : generator := fun _ => Byte.x01.

Definition one_sample_store : gmap string (file nat) :=
  {[ "sample/quality_control.h5ad" := Complete 0%nat ]}.

(** Stand-ins for the cells: the dataset counts the stages it went
    through, an assignment to [X] finds its layer and leaves the count
    alone, and a cell that looks for a layer that is not there raises. *)
Definition counting_cells (_ : string) (a : nat) : result nat := Ok (S a).
Definition finding_assign (_ : string) (a : nat) : result nat := Ok a.
Definition missing_layer (layer : string) (_ : nat) : result nat :=
  Raise (KeyError layer).

End Stages.

(* ===================================================================== *)
(** * Dimensionality reduction of the merged data
      ([merged_dim_reduc_diff_params.ipynb]) *)
(* ===================================================================== *)

Module MergedDimReduc.
Import Py.

(** The papermill parameters of the notebook. *)
Record params : Type := {
  input_file : string;
  layer_to_use : string;
  scale_data_before_pca : value;
  genes_for_pca : value;
  cc_method : value;
  pca_n_components : value;
  umap_n_neighbors : value
}.

(** The same run with another [genes_for_pca]. *)
Definition with_genes_for_pca (g : value) (p : params) : params :=
  {| input_file := input_file p;
     layer_to_use := layer_to_use p;
     scale_data_before_pca := scale_data_before_pca p;
     genes_for_pca := g;
     cc_method := cc_method p;
     pca_n_components := pca_n_components p;
     umap_n_neighbors := umap_n_neighbors p |}.

(** The same run with another [umap_n_neighbors]. *)
Definition with_umap_n_neighbors (n : value) (p : params) : params :=
  {| input_file := input_file p;
     layer_to_use := layer_to_use p;
     scale_data_before_pca := scale_data_before_pca p;
     genes_for_pca := genes_for_pca p;
     cc_method := cc_method p;
     pca_n_components := pca_n_components p;
     umap_n_neighbors := n |}.

(** The library calls and assignments that change [adata].  An optional
    argument left out of the call is [None]: the library's default. *)
Inductive call : Type :=
  | read_h5ad (file : string)
  | set_X_from_layer (layer : string)
  | pp_scale
  | tl_score_genes_cell_cycle
  | set_cell_cycle_diff
  | r_variance_explained_by_phase
  | pp_highly_variable_genes (batch_key : option string)
  | set_highly_variable_from_top_hvgs2
  | pp_regress_out (keys : list string)
  | tl_pca (n_comps : value) (use_highly_variable : bool)
  | pp_neighbors (n_neighbors : option value) (n_pcs : option value)
  | tl_umap (n_components : Z) (min_dist spread : Q)
  | print (msg : string).

(** Cells reading the data, scoring the cell cycle and calling R. *)
Definition setup_cells (p : params) : list call :=
  [read_h5ad (input_file p);
   set_X_from_layer (layer_to_use p);
   pp_scale;
   tl_score_genes_cell_cycle;
   set_cell_cycle_diff]
  ++ (if negb (truthy (scale_data_before_pca p))
      then [set_X_from_layer (layer_to_use p); print "Not scaling data before PCA"]
      else [print "Scaling data before PCA"])
  ++ [set_X_from_layer (layer_to_use p);
      r_variance_explained_by_phase].

(** The gene-selection cell. *)
Definition gene_selection_cell (p : params) : list call :=
  (if truthy (VStr "globally_highly_variable") then
     [pp_highly_variable_genes None;
      print "Using globally highly variable genes"]
   else if eq_str (genes_for_pca p) "highly_variable_per_sample" then
     [pp_highly_variable_genes (Some "sample");
      print "Using highly variable genes per sample. This simple process avoids the selection of batch-specific genes and acts as a lightweight batch correction method."]
   else [])
  ++
  (if eq_str (cc_method p) "cc_genes_out" then
     [set_highly_variable_from_top_hvgs2;
      print "Removing cell cycle genes from highly variable genes"]
   else if eq_str (cc_method p) "regress_out" then
     [pp_regress_out ["S_score"; "G2M_score"];
      print "Regressing out cell cycle scores"]
   else if eq_str (cc_method p) "cc_difference_regressed_out" then
     [pp_regress_out ["cell_cycle_diff"];
      print "Regressing out cell cycle difference score"]
   else if eq_str (cc_method p) "None" then
     [print "Not removing cell cycle effects"]
   else []).

(** The cell computing PCA, the neighbor graph and UMAP. *)
Definition embedding_cell (p : params) : list call :=
  [tl_pca (pca_n_components p)
          (if eq_str (genes_for_pca p) "all" then false else true);
   pp_neighbors None (Some (umap_n_neighbors p));
   tl_umap 2 (1 # 10) 5].

Definition notebook (p : params) : list call :=
  setup_cells p ++ gene_selection_cell p ++ embedding_cell p.

Section Run.

(** The dataset and the effect of each call on it: the libraries are
    opaque. *)
Variable adata : Type.
Variable exec : call -> adata -> adata.

Definition run (calls : list call) (a : adata) : adata :=
  fold_left (fun acc c => exec c acc) calls a.

End Run.

Definition is_neighbors (c : call) : bool :=
  match c with
  | pp_neighbors _ _ => true
  | _ => false
  end.

Definition is_highly_variable_genes (c : call) : bool :=
  match c with
  | pp_highly_variable_genes _ => true
  | _ => false
  end.

(** The same call with the [n_pcs] argument of [pp.neighbors] blanked. *)
Definition forget_n_pcs (c : call) : call :=
  match c with
  | pp_neighbors k _ => pp_neighbors k None
  | _ => c
  end.

End MergedDimReduc.

(* ===================================================================== *)
(** * Scheduling of the rule graph *)
(* ===================================================================== *)

Module Scheduler.
Import Py.

(** Modelled from the spec: the rule files [rules/preprocessing.smk] and
    [rules/analyse_merged_ds.smk] and the scheduler that runs the rule
    graph are not among the sources.  A task declares input and output
    paths; a task depends on the tasks producing its inputs. *)
Record task : Type := {
  rule_name : string;
  inputs : list string;
  outputs : list string
}.

#[global] Instance task_eq_dec : EqDecision task.
Proof. solve_decision. Defined.

(** Modelled from the spec: persistent storage as seen by the skip policy,
    the modification time of every file present. *)
Definition newer_than (st : gmap string nat) (out : nat) (input : string) : bool :=
  match st !! input with
  | Some t => Nat.ltb t out
  | None => false
  end.

(** Modelled from the spec: the skip policy, "a task already having all
    declared outputs present and newer than its inputs is treated as
    already satisfied and is not re-executed". *)
Definition satisfied (st : gmap string nat) (t : task) : bool :=
  forallb (fun o => match st !! o with
                    | Some mo => forallb (newer_than st mo) (inputs t)
                    | None => false
                    end) (outputs t).

(** Modelled from the spec: a task produces the paths it declares as
    outputs. *)
Definition produces (p : string) (t : task) : bool :=
  bool_decide (p ∈ outputs t).

(** Modelled from the spec: "a task B depends on task A if any of B's
    declared input paths equals one of A's output paths". *)
Definition depends_on (t u : task) : bool :=
  existsb (fun i => produces i u) (inputs t).

(** Modelled from the spec: the tasks the requested paths need, which are
    the tasks producing them and, from task to task, the tasks producing
    their inputs; [depth] bounds the length of the chains followed. *)
Fixpoint needed (tasks : list task) (depth : nat) (requested : list string)
  : list task :=
  match depth with
  | O => []
  | S d =>
      flat_map (fun p =>
                  flat_map (fun t => needed tasks d (inputs t) ++ [t])
                           (List.filter (produces p) tasks)) requested
  end.

(** Modelled from the spec: "a task becomes eligible once all its
    dependency outputs exist". *)
Definition eligible (st : gmap string nat) (t : task) : bool :=
  forallb (fun i => bool_decide (is_Some (st !! i))) (inputs t).

(** Modelled from the spec: a task that runs writes its outputs, which
    carry the time of the run. *)
Definition touch (now : nat) (st : gmap string nat) (paths : list string)
  : gmap string nat :=
  foldr (fun o acc => <[o := now]> acc) st paths.

(** Modelled from the spec: an invocation under way: storage, the clock,
    the tasks executed, the tasks that failed and the tasks not scheduled
    because of a failure or a missing input. *)
Record progress : Type := {
  storage : gmap string nat;
  clock : nat;
  executed : list task;
  failed : list task;
  held : list task
}.

Section Run.

(** Modelled from the spec: whether a task fails when it is executed is
    the notebook's business. *)
Variable fails : task -> bool.

(** Modelled from the spec: the turn of one task.  "If a task fails, its
    outputs are not considered produced; dependent tasks are not
    scheduled"; a satisfied task is not re-executed; a task with a missing
    input is not eligible; any other task is executed. *)
Definition run_task (r : progress) (t : task) : progress :=
  if existsb (depends_on t) (failed r ++ held r) then
    {| storage := storage r; clock := clock r; executed := executed r;
       failed := failed r; held := held r ++ [t] |}
  else if satisfied (storage r) t then r
  else if negb (eligible (storage r) t) then
    {| storage := storage r; clock := clock r; executed := executed r;
       failed := failed r; held := held r ++ [t] |}
  else if fails t then
    {| storage := storage r; clock := clock r; executed := executed r;
       failed := failed r ++ [t]; held := held r |}
  else
    {| storage := touch (clock r) (storage r) (outputs t);
       clock := S (clock r); executed := executed r ++ [t];
       failed := failed r; held := held r |}.

(** Modelled from the spec: "standard topological execution".  The rule
    graph is given with its tasks listed dependencies first; one
    invocation gives every task the requested paths need its turn, in that
    order. *)
Definition invoke (tasks : list task) (st : gmap string nat) (now : nat)
  (targets : list string) : progress :=
  fold_left run_task
    (List.filter (fun t => bool_decide (t ∈ needed tasks (length tasks) targets))
                 tasks)
    {| storage := st; clock := now; executed := []; failed := []; held := [] |}.

(** Modelled from the spec: one invocation of the top-level target, whose
    requested paths are the inputs of rule [all] as the Snakefile computes
    them. *)
Definition invoke_all (str_opaque : value -> string) (config : value)
  (tasks : list task) (st : gmap string nat) (now : nat) : result progress :=
  let* targets := Snakefile.rule_all_input str_opaque config in
  Ok (invoke tasks st now targets).

End Run.

(** Modelled from the spec: a requested path "already exists on storage
    and is newer than its inputs": it is there and every task producing
    it is satisfied. *)
Definition up_to_date (tasks : list task) (st : gmap string nat) (p : string)
  : bool :=
  bool_decide (is_Some (st !! p))
  && forallb (satisfied st) (List.filter (produces p) tasks).

(** Modelled from the spec: a list of tasks in dependency order in which
    no path has two writers: no task writes an input of its own, and no
    task writes an input or an output of a task listed before it. *)
Fixpoint ordered (tasks : list task) : bool :=
  match tasks with
  | [] => true
  | t :: rest =>
      forallb (fun o => bool_decide (o ∉ inputs t)) (outputs t)
      && forallb (fun u => forallb (fun o => bool_decide (o ∉ inputs t ++ outputs t))
                                   (outputs u)) rest
      && ordered rest
  end.

(** Modelled from the spec: the clock is ahead of every file time. *)
Definition ahead (st : gmap string nat) (now : nat) : Prop :=
  map_Forall (fun _ m => (m < now)%nat) st.

(** Modelled from the spec: an illustration of a rule graph for the
    targets of rule [all]: the merged data made from a sample's file, the
    subset from the merged data, every checkpoint from the subset. *)
Definition merge_task : task :=
  {| rule_name := "merge";
     inputs := ["results/preprocessing/A/dimensionality_reduction.h5ad"];
     outputs := ["results/preprocessing/merged.h5ad"] |}.

Definition subset_task : task :=
  {| rule_name := "subset";
     inputs := ["results/preprocessing/merged.h5ad"];
     outputs := ["results/preprocessing/subset.h5ad"] |}.

Definition dim_reduc_task (checkpoint : string) : task :=
  {| rule_name := "dim_reduc";
     inputs := ["results/preprocessing/subset.h5ad"];
     outputs := [checkpoint] |}.

Definition example_tasks (checkpoints : list string) : list task :=
  merge_task :: subset_task :: map dim_reduc_task checkpoints.

(** Modelled from the spec: storage with the sample's file written at
    [sample_time], the merged data at 1, the subset at 2 and the
    checkpoints at 3. *)
Definition example_storage (sample_time : nat) (checkpoints : list string)
  : gmap string nat :=
  <["results/preprocessing/A/dimensionality_reduction.h5ad" := sample_time]>
    (<["results/preprocessing/merged.h5ad" := 1%nat]>
       (<["results/preprocessing/subset.h5ad" := 2%nat]>
          (list_to_map (map (fun c => (c, 3%nat)) checkpoints)))).

Definition scenario_checkpoints : list string :=
  match Snakefile.checkpoints Snakefile.str_unused Snakefile.scenario_config
          "subset" with
  | Py.Ok l => l
  | Py.Raise _ => []
  end.

Definition no_failure (_ : task) : bool := false.

End Scheduler.

(* ===================================================================== *)
(** * More Python strings *)
(* ===================================================================== *)

Module PyStr.
Import Py.

(** [pat in s]. *)
Fixpoint occurs (pat s : string) : bool :=
  match s with
  | EmptyString => starts_with pat s
  | String _ s' => starts_with pat s || occurs pat s'
  end.

Fixpoint count_char (c : ascii) (s : string) : nat :=
  match s with
  | EmptyString => O
  | String a s' => (if Ascii.eqb a c then 1 else 0) + count_char c s'
  end.

Fixpoint all_chars (f : ascii -> bool) (s : string) : bool :=
  match s with
  | EmptyString => true
  | String c s' => f c && all_chars f s'
  end.

(** [re.sub(pat, repl, s)] for a pattern and a replacement without
    metacharacters: every occurrence of [pat], found left to right without
    overlap, is replaced. *)
Fixpoint replace_all_from (pat repl : string) (skip : nat) (s : string) : string :=
  match s with
  | EmptyString => EmptyString
  | String c s' =>
      match skip with
      | S k => replace_all_from pat repl k s'
      | O =>
          if starts_with pat s
          then repl +:+ replace_all_from pat repl (Nat.pred (String.length pat)) s'
          else String c (replace_all_from pat repl O s')
      end
  end.

Definition replace_all (pat repl s : string) : string :=
  match pat with
  | EmptyString => s
  | _ => replace_all_from pat repl O s
  end.

End PyStr.

(* ===================================================================== *)
(** * The per-sample workflow definition (the earlier Snakefile) *)
(* ===================================================================== *)

Module PerSampleSnakefile.
Import Py.

(** The pattern of rule [all]. *)
Definition dimensionality_reduction_pattern : string :=
  "results/preprocessing/{sample}/dimensionality_reduction.h5ad".

(** [expand(pattern, sample = wc)]: the input files of rule [all]. *)
Definition rule_all_input (wc : list string) : result (list string) :=
  Expand.expand_str dimensionality_reduction_pattern [("sample", wc)].

(** The file rule [all] asks for on behalf of one sample. *)
Definition sample_target (sample : string) : string :=
  "results/preprocessing/" +:+ sample +:+ "/dimensionality_reduction.h5ad".

Section Workflow.

Variable read_sample : value -> result Snakefile.dataframe.
Variable files : gmap string string.

(** The Snakefile from top to bottom: samples, environments, targets. *)
Definition snakefile (config : value)
  : list Snakefile.event * result (list string * (value * string) * list string) :=
  let '(ev, r) := Snakefile.resolve_samples read_sample files config in
  (ev,
   let* wc := r in
   let* env := Snakefile.conda_env config in
   let* t := rule_all_input wc in
   Ok (wc, env, t)).

End Workflow.

(** The text of a sample sheet: the header, then one line per sample. *)
Definition sheet_line (row : string * string) : string :=
  fst row +:+ String Snakefile.tab (snd row).

Fixpoint sheet_body (rows : list (string * string)) : string :=
  match rows with
  | [] => EmptyString
  | r :: rs => sheet_line r +:+ String Snakefile.newline (sheet_body rs)
  end.

Definition sheet_text (rows : list (string * string)) : string :=
  sheet_line ("sample_name", "path")
  +:+ String Snakefile.newline (sheet_body rows).

(** A row of a sheet written as it is: a name that pandas keeps as text,
    and two fields without tab, line break or leading double quote. *)
Definition plain_row (row : string * string) : bool :=
  Snakefile.text_label (fst row) && Snakefile.plain_field (fst row)
  && Snakefile.plain_field (snd row).

End PerSampleSnakefile.

(* ===================================================================== *)
(** * The naming scheme of the sample directories *)
(* ===================================================================== *)

Module Naming.
Import Py.

Definition is_letter (c : ascii) : bool :=
  Merge.in_range "a" "z" c || Merge.in_range "A" "Z" c.

Definition is_alnum (c : ascii) : bool :=
  is_letter c || Merge.in_range "0" "9" c.

(** The two prefixes the run's sample directories carry:
    [CE_SC_<treatment>_<week>] and [CE_SC_5FU_<treatment>_<week>]. *)
Inductive marker : Type :=
  | Plain
  | FiveFU.

Definition marker_text (m : marker) : string :=
  match m with
  | Plain => EmptyString
  | FiveFU => "5FU_"
  end.

(** The path of a sample's file: [dir] leads to the sample directory and
    [rest] follows its name. *)
Definition scheme_path (dir : string) (m : marker) (treatment week rest : string)
  : string :=
  dir +:+ "CE_SC_" +:+ marker_text m +:+ treatment +:+ "_" +:+ week +:+ rest.

(** What may follow the sample directory's name: nothing, or text that
    starts with a character outside [[a-zA-Z0-9_]]. *)
Definition ends_word (rest : string) : bool :=
  match rest with
  | EmptyString => true
  | String c _ => negb (Merge.is_word c)
  end.

End Naming.

(* ===================================================================== *)
(** * Reference annotation: the printed counts and the reference model *)
(* ===================================================================== *)

Module AnnotationReport.
Import Py Annotation.

(** [reference_model_features.shape[0]]. *)
Definition genes_needed (reference_model_features : list feature) : nat :=
  length reference_model_features.

(** [adata_to_map.var.index.isin(reference_model_features.index).sum()]. *)
Definition genes_found {entry : Type} (reference_model_features : list feature)
  (adata_to_map : @anndata entry) : nat :=
  length (List.filter (fun g => mem g (map gene_id reference_model_features))
                      (var_index adata_to_map)).

(** A query in which the gene id [g1] comes twice. *)
Definition duplicated_query : @anndata Z :=
  {| n_obs := 1;
     var := [{| gene_id := "g1"; gene_name := "A" |};
             {| gene_id := "g1"; gene_name := "A.1" |}];
     X := [[1]; [2]];
     layers := [("counts", [[1]; [2]])] |}.

(** A reference in which the gene id [g2] comes twice. *)
Definition repeated_reference : list feature :=
  [{| gene_id := "g1"; gene_name := "A" |};
   {| gene_id := "g2"; gene_name := "B" |};
   {| gene_id := "g2"; gene_name := "B.1" |}].

(** The example query without its [counts] layer. *)
Definition query_without_counts : @anndata Z :=
  {| n_obs := 2;
     var := [{| gene_id := "g3"; gene_name := "C" |};
             {| gene_id := "g9"; gene_name := "Z" |};
             {| gene_id := "g1"; gene_name := "A" |}];
     X := [[1; 2]; [3; 4]; [5; 6]];
     layers := [("log1p_norm", [[7; 7]; [7; 7]; [7; 7]])] |}.

(** ** The cell that fetches the reference model *)

Definition reference_model : string := "reference_model".
Definition model_pt : string := "reference_model/model.pt".

(** What the cell asks of the file system and the network. *)
Inductive request : Type :=
  | Mkdir (path : string)
  | Urlretrieve (url filename : string).

(** The [if]/[elif] of the cell, on the set of paths that exist. *)
Definition model_cell (exists_ : gset string) : list request :=
  if negb (bool_decide (reference_model ∈ exists_)) then
    [Mkdir reference_model]
  else if negb (bool_decide (model_pt ∈ exists_)) then
    [Urlretrieve "https://figshare.com/ndownloader/files/41436648" model_pt]
  else [].

(** The paths that exist after a request that succeeds. *)
Definition serve (r : request) (exists_ : gset string) : gset string :=
  match r with
  | Mkdir path => {[ path ]} ∪ exists_
  | Urlretrieve _ filename => {[ filename ]} ∪ exists_
  end.

Definition run_model_cell (exists_ : gset string) : gset string :=
  fold_left (fun fs r => serve r fs) (model_cell exists_) exists_.

End AnnotationReport.

(* ===================================================================== *)
(** * Runs of the merged dimensionality reduction over the grid *)
(* ===================================================================== *)

Module MergedDimReducRuns.
Import Py MergedDimReduc.

(** The same run with another [scale_data_before_pca]. *)
Definition with_scale_data_before_pca (s : value) (p : params) : params :=
  {| input_file := input_file p;
     layer_to_use := layer_to_use p;
     scale_data_before_pca := s;
     genes_for_pca := genes_for_pca p;
     cc_method := cc_method p;
     pca_n_components := pca_n_components p;
     umap_n_neighbors := umap_n_neighbors p |}.

(** The parameter cell as recorded in the notebook. *)
Definition recorded_params : params :=
  {| input_file := "/data/cephfs-1/work/groups/cubi/users/cemo10_c/scRNA/scRNA_preprocessing_pipeline/results/preprocessing/subset.h5ad";
     layer_to_use := "log1p_norm_of_soupX_counts";
     scale_data_before_pca := VBool true;
     genes_for_pca := VStr "highly_variable_per_sample";
     cc_method := VStr "None";
     pca_n_components := VInt 100;
     umap_n_neighbors := VInt 50 |}.

(** A reading of the calls that keeps track of the matrix in [X]: every
    library call is recorded together with the matrix it found in [X];
    assigning a layer to [X] replaces it, scaling changes it, printing
    leaves the dataset alone. *)
Record traced : Type := {
  in_X : string;
  history : list (call * string)
}.

Definition trace (c : call) (a : traced) : traced :=
  match c with
  | set_X_from_layer l => {| in_X := l; history := history a |}
  | print _ => a
  | pp_scale =>
      {| in_X := "scaled " +:+ in_X a; history := history a ++ [(c, in_X a)] |}
  | _ => {| in_X := in_X a; history := history a ++ [(c, in_X a)] |}
  end.

End MergedDimReducRuns.

(* ===================================================================== *)
(** * The distance logs of the merged dimensionality reduction *)
(* ===================================================================== *)

Module DistanceLog.
Import Py PyStr MergedDimReduc.

(** Points in time are counted in microseconds, the resolution of
    [datetime.now()]. *)
Definition second : Z := 1000000.
Definition day : Z := 86400000000.

(** [to_csv] writes the dates of a frame with a fraction of a second only
    when they have one: a stamp that falls on a whole second is written as
    [%Y-%m-%d %H:%M:%S].  The cells read the dates back as text and parse
    them with [%Y-%m-%d %H:%M:%S.%f], which such a date does not match. *)
Definition has_fraction (t : Z) : bool := negb (t mod second =? 0).

(** [(now - t).days]: whole days, rounded down. *)
Definition days (now t : Z) : Z := (now - t) / day.

(** A line of the log: its date and its other cells, in column order. *)
Record row : Type := {
  date : Z;
  others : list string
}.

Record table : Type := {
  header : list string;
  rows : list row
}.

(** Every line has one cell per column. *)
Definition regular (t : table) : bool :=
  forallb (fun r => Nat.eqb (S (length (others r))) (length (header t))) (rows t).

(** [df_old["date"].min()] and [df_old["date"].max()]: the dates are
    compared as text, which orders them as points in time. *)
Definition oldest (rs : list row) : option Z :=
  match rs with
  | [] => None
  | r :: rs' => Some (fold_left Z.min (map date rs') (date r))
  end.

Definition newest (rs : list row) : option Z :=
  match rs with
  | [] => None
  | r :: rs' => Some (fold_left Z.max (map date rs') (date r))
  end.

Inductive outcome (A : Type) : Type :=
  | Done (a : A)
  | TypeError
  | ValueError
  | NotModelled.
Arguments Done {A} a.
Arguments TypeError {A}.
Arguments ValueError {A}.
Arguments NotModelled {A}.

(** The [if not os.path.exists(...)]/[else] that ends both distance cells:
    [file] is the log as found on disk, [now] the clock read in the test.
    The newest date is parsed for printing, then the oldest one: a log
    without lines has no date to parse ([strptime] is given [nan]), and a
    date written without fraction makes [strptime] raise [ValueError].
    Reading back a log whose lines do not fit its header is not
    modelled. *)
Definition to_csv_log (now : Z) (df : table) (file : option table)
  : outcome table :=
  match file with
  | None => Done df
  | Some df_old =>
      if regular df_old then
        match newest (rows df_old), oldest (rows df_old) with
        | Some last, Some first =>
            if has_fraction last && has_fraction first then
              if 1 <=? days now first then Done df
              else Done {| header := header df_old;
                           rows := rows df_old ++ rows df |}
            else ValueError
        | _, _ => TypeError
        end
      else NotModelled
  end.

Definition log_cell (path : string) (now : Z) (df : table)
  (st : gmap string table) : outcome (gmap string table) :=
  match to_csv_log now df (st !! path) with
  | Done t => Done (<[path := t]> st)
  | TypeError => TypeError
  | ValueError => ValueError
  | NotModelled => NotModelled
  end.

Definition param_names : list string :=
  ["input_file"; "layer_to_use"; "scale_data_before_pca"; "genes_for_pca";
   "cc_method"; "pca_n_components"; "umap_n_neighbors"].

Section Frames.

(** How a parameter value is written into a cell. *)
Variable cell_text : value -> string.

Definition param_cells (p : params) : list string :=
  [input_file p; layer_to_use p; cell_text (scale_data_before_pca p);
   cell_text (genes_for_pca p); cell_text (cc_method p);
   cell_text (pca_n_components p); cell_text (umap_n_neighbors p)].

(** The frame of the first distance cell: the three centroid distances
    among the week 1 samples, in UMAP and in PCA space. *)
Definition week1_frame (stamp : Z) (umap pca : string * string * string)
  (p : params) : table :=
  {| header := ["Conti_1 vs C_1"; "OnOff_1 vs C_1"; "OnOff_1 vs Conti_1";
                "dim_reduc_method"; "date"] ++ param_names;
     rows := [ {| date := stamp;
                  others := [umap.1.1; umap.1.2; umap.2; "UMAP"] ++ param_cells p |};
               {| date := stamp;
                  others := [pca.1.1; pca.1.2; pca.2; "PCA"] ++ param_cells p |} ] |}.

(** The frame of the second distance cell: the distance between the
    OnOff samples of week 1 and week 5. *)
Definition onoff_frame (stamp : Z) (umap pca : string) (p : params) : table :=
  {| header := ["OnOff_1 vs OnOff_5"; "dim_reduc_method"; "date"] ++ param_names;
     rows := [ {| date := stamp; others := [umap; "UMAP"] ++ param_cells p |};
               {| date := stamp; others := [pca; "PCA"] ++ param_cells p |} ] |}.

End Frames.

(** [re.sub("week1_samples", "week1_and_5_onoff_samples.tsv", tsv_file)]. *)
Definition tsv_file2 (tsv_file : string) : string :=
  replace_all "week1_samples" "week1_and_5_onoff_samples.tsv" tsv_file.

(** The two distance cells, one after the other: [now1] and [now2] are the
    clock readings of their tests. *)
Definition distance_cells (tsv_file : string) (now1 now2 : Z) (df1 df2 : table)
  (st : gmap string table) : outcome (gmap string table) :=
  match log_cell tsv_file now1 df1 st with
  | Done st1 => log_cell (tsv_file2 tsv_file) now2 df2 st1
  | TypeError => TypeError
  | ValueError => ValueError
  | NotModelled => NotModelled
  end.

(** [tsv_file] of the parameter cell. *)
Definition recorded_tsv_file : string :=
  "/data/cephfs-1/home/users/cemo10_c/work/scRNA/scRNA_preprocessing_pipeline/results/analysis/umap_pca_distances.tsv".

End DistanceLog.

(* ===================================================================== *)
(** * What the per-sample notebooks read from and add to the dataset *)
(* ===================================================================== *)

Module StageData.
Import Py.

(** The layer names the notebooks build from [count_layer_to_use]. *)
Definition log1p_norm_of (count_layer_to_use : string) : string :=
  "log1p_norm" +:+ "_of_" +:+ count_layer_to_use.

Definition scran_normalization_of (count_layer_to_use : string) : string :=
  "scran_normalization" +:+ "_of_" +:+ count_layer_to_use.

Definition analytic_pearson_residuals_of (count_layer_to_use : string) : string :=
  "analytic_pearson_residuals" +:+ "_of_" +:+ count_layer_to_use.

Section Notebooks.

(** Matrices, and the numerical work on them: the shifted logarithm of the
    depth-normalized counts, the logarithm of the counts divided by scran's
    size factors, and the analytic Pearson residuals.  None of them
    changes the matrix it is given ([inplace = False]). *)
Variable matrix : Type.
Variable shifted_logarithm : matrix -> matrix.
Variable scran_logarithm : matrix -> matrix.
Variable pearson_residuals : matrix -> matrix.

(** The dataset as far as the notebooks name its parts: [X], the layers,
    and the column names of [obs] and [var]. *)
Record adata : Type := {
  X : matrix;
  layers : gmap string matrix;
  obs : gset string;
  var : gset string
}.

(** [adata.layers[name]]. *)
Definition layer (a : adata) (name : string) : result matrix :=
  match layers a !! name with
  | Some m => Ok m
  | None => Raise (KeyError name)
  end.

(** [frame[name]] on the columns of [obs] or [var]. *)
Definition column (names : gset string) (name : string) : result unit :=
  if bool_decide (name ∈ names) then Ok tt else Raise (KeyError name).

(** The normalization notebook between reading and saving. *)
Definition normalization (count_layer_to_use : string) (a : adata)
  : result adata :=
  let* x := layer a count_layer_to_use in
  let* _ := column (obs a) "total_counts" in
  Ok {| X := x;
        layers :=
          <[analytic_pearson_residuals_of count_layer_to_use := pearson_residuals x]>
            (<[scran_normalization_of count_layer_to_use := scran_logarithm x]>
               (<[log1p_norm_of count_layer_to_use := shifted_logarithm x]>
                  (layers a)));
        obs := {[ "size_factors" ]} ∪ obs a;
        var := var a |}.

(** The dimensionality-reduction notebook between reading and saving. *)
Definition dimensionality_reduction (count_layer_to_use : string) (a : adata)
  : result adata :=
  let* x := layer a (log1p_norm_of count_layer_to_use) in
  let* _ := column (var a) "highly_deviant" in
  let* _ := column (obs a) "total_counts" in
  Ok {| X := x;
        layers := layers a;
        obs := obs a;
        var := {[ "highly_variable" ]} ∪ var a |}.

(** The clustering notebook between reading and saving. *)
Definition clustering (count_layer_to_use : string) (a : adata)
  : result adata :=
  let* x := layer a (scran_normalization_of count_layer_to_use) in
  Ok {| X := x;
        layers := layers a;
        obs := {[ "leiden"; "leiden_res0_25"; "leiden_res0_5"; "leiden_res1" ]}
               ∪ obs a;
        var := var a |}.

End Notebooks.

Arguments X {matrix} a.
Arguments layers {matrix} a.
Arguments obs {matrix} a.
Arguments var {matrix} a.

(** A dataset after quality control and feature selection, with matrices
    named by how they were computed. *)
Definition after_feature_selection : adata string :=
  {| X := "counts";
     layers := {[ "counts" := "counts"; "soupX_counts" := "soupX_counts" ]};
     obs := {[ "total_counts" ]};
     var := {[ "highly_deviant" ]} |}.

End StageData.

(* ===================================================================== *)
(** * Runs of the per-sample notebooks: in sequence and side by side *)
(* ===================================================================== *)

Module StagesRuns.
Import Py Stages.

Section Runs.

Variable artifact : Type.
Variable dim_reduction_assign : string -> artifact -> result artifact.
Variable dim_reduction_cells : string -> artifact -> result artifact.
Variable clustering_assign : string -> artifact -> result artifact.
Variable clustering_cells : string -> artifact -> result artifact.
Variable normalization_cells : string -> artifact -> result artifact.

(** The notebooks of the listed stages, run one after the other on the same
    input path, each with its own random generator; a notebook that raises
    ends the sequence. *)
Fixpoint run_stages (stages : list (stage * generator))
  (input_file count_layer_to_use : string) (st : gmap string (file artifact))
  : gmap string (file artifact) * result unit :=
  match stages with
  | [] => (st, Ok tt)
  | (s, g) :: rest =>
      match run_notebook artifact dim_reduction_assign dim_reduction_cells
              clustering_assign clustering_cells normalization_cells
              s input_file count_layer_to_use g st with
      | (st', Ok _) => run_stages rest input_file count_layer_to_use st'
      | (st', Raise e) => (st', Raise e)
      end
  end.

(** The cells of the listed stages, composed in order. *)
Fixpoint compose_cells (stages : list (stage * generator))
  (count_layer_to_use : string) (a : artifact) : result artifact :=
  match stages with
  | [] => Ok a
  | (s, _) :: rest =>
      let* a' := stage_cells artifact dim_reduction_assign dim_reduction_cells
                   clustering_assign clustering_cells normalization_cells
                   s count_layer_to_use a in
      compose_cells rest count_layer_to_use a'
  end.

(** The temporary paths the listed stages use. *)
Definition tmp_paths (stages : list (stage * generator)) (input_file : string)
  : list string :=
  flat_map (fun sg => match fst sg with
                      | Normalization => [tmp_name input_file (snd sg)]
                      | _ => []
                      end) stages.

(** Where two notebooks that save [a1] and [a2] through [tmp1] and [tmp2]
    have brought the store [st], started from [st0]: a process that is done
    has left no temporary file; the input path is as at the start until one
    of them is done and holds one of the two datasets from then on; no other
    path has changed. *)
Definition settled (st0 st : gmap string (file artifact))
  (input_file tmp1 tmp2 : string) (a1 a2 : artifact)
  (todo1 todo2 : list (action artifact)) : Prop :=
  (todo1 = [] -> st !! tmp1 = None) /\
  (todo2 = [] -> st !! tmp2 = None) /\
  (todo1 <> [] -> todo2 <> [] -> st !! input_file = st0 !! input_file) /\
  (todo1 = [] \/ todo2 = [] ->
   st !! input_file = Some (Complete a1)
   \/ st !! input_file = Some (Complete a2)) /\
  (forall p, p <> input_file -> p <> tmp1 -> p <> tmp2 -> st !! p = st0 !! p).

End Runs.

Arguments settled {artifact} st0 st input_file tmp1 tmp2 a1 a2 todo1 todo2.

End StagesRuns.

(* ===================================================================== *)
(** * Facts about strings and the exception monad *)
(* ===================================================================== *)

Module PyFacts.
Import Py.

Lemma split_on_nonempty sep s : split_on sep s <> [].
Proof.
  destruct s as [|c s']; simpl; [discriminate|].
  destruct (Ascii.eqb c sep); [discriminate|].
  destruct (split_on sep s'); discriminate.
Qed.

Lemma split_on_no_sep sep s :
  contains_char sep s = false -> split_on sep s = [s].
Proof.
  induction s as [|c s' IH]; simpl; [reflexivity|].
  intros H. apply orb_false_iff in H as [Hc Hs].
  rewrite Hc, (IH Hs). reflexivity.
Qed.

Lemma split_on_app sep s t :
  contains_char sep s = false ->
  split_on sep (s +:+ String sep t) = s :: split_on sep t.
Proof.
  induction s as [|c s' IH]; simpl.
  - intros _. rewrite Ascii.eqb_refl. reflexivity.
  - intros H. apply orb_false_iff in H as [Hc Hs].
    rewrite Hc, (IH Hs). reflexivity.
Qed.

Lemma append_assoc (a b c : string) : (a +:+ b) +:+ c = a +:+ (b +:+ c).
Proof. induction a as [|x a IH]; simpl; [reflexivity|]. f_equal. exact IH. Qed.

Lemma append_length (a b : string) :
  String.length (a +:+ b) = (String.length a + String.length b)%nat.
Proof. induction a as [|x a IH]; simpl; [reflexivity|]. f_equal. exact IH. Qed.

Lemma append_inv_head (p a b : string) : p +:+ a = p +:+ b -> a = b.
Proof.
  induction p as [|x p IH]; simpl; [tauto|].
  intros H. injection H as H. auto.
Qed.

Lemma append_inv_tail (a b t : string) : a +:+ t = b +:+ t -> a = b.
Proof.
  revert b. induction a as [|x a IH]; intros [|y b] H; simpl in H.
  - reflexivity.
  - exfalso. apply (f_equal String.length) in H. simpl in H.
    rewrite append_length in H. lia.
  - exfalso. apply (f_equal String.length) in H. simpl in H.
    rewrite append_length in H. lia.
  - injection H as -> H. f_equal. auto.
Qed.

(** The split of a concatenation is determined by the length of its first
    part. *)
Lemma append_inv_length (a b c d : string) :
  String.length a = String.length b -> a +:+ c = b +:+ d -> a = b /\ c = d.
Proof.
  revert b. induction a as [|x a IH]; intros [|y b] Hl H; simpl in *;
    try discriminate.
  - auto.
  - injection H as -> H. injection Hl as Hl.
    destruct (IH b Hl H) as [-> ->]. auto.
Qed.

Lemma mapM_ok {A B : Type} (f : A -> result B) (g : A -> B) (l : list A) :
  (forall x, x ∈ l -> f x = Ok (g x)) -> mapM f l = Ok (g <$> l).
Proof.
  induction l as [|a l IH]; intros H; simpl; [reflexivity|].
  rewrite (H a) by apply list_elem_of_here. simpl.
  rewrite IH; [reflexivity|].
  intros x Hx. apply H. now apply list_elem_of_further.
Qed.

Lemma mapM_length {A B : Type} (f : A -> result B) (l : list A) (r : list B) :
  mapM f l = Ok r -> length r = length l.
Proof.
  revert r. induction l as [|a l IH]; intros r; simpl.
  - intros [= <-]. reflexivity.
  - destruct (f a) as [b|e]; simpl; [|discriminate].
    destruct (mapM f l) as [bs|e]; simpl; [|discriminate].
    intros [= <-]. simpl. f_equal. now apply IH.
Qed.

Lemma mapM_lookup {A B : Type} (f : A -> result B) (l : list A) (r : list B)
  (i : nat) (a : A) :
  mapM f l = Ok r -> l !! i = Some a -> exists b, r !! i = Some b /\ f a = Ok b.
Proof.
  revert r i. induction l as [|x l IH]; intros r i; simpl.
  - intros _ H. discriminate.
  - destruct (f x) as [b|e] eqn:Hfx; simpl; [|discriminate].
    destruct (mapM f l) as [bs|e]; simpl; [|discriminate].
    intros [= <-]. destruct i as [|i]; simpl.
    + intros [= <-]. eauto.
    + intros H. now apply (IH bs i).
Qed.

Lemma mapM_exists {A B : Type} (f : A -> result B) (l : list A) :
  (forall x, x ∈ l -> exists b, f x = Ok b) -> exists r, mapM f l = Ok r.
Proof.
  induction l as [|a l IH]; intros H; simpl; [eauto|].
  destruct (H a) as [b Hb]; [apply list_elem_of_here|]. rewrite Hb. simpl.
  destruct IH as [r Hr].
  { intros x Hx. apply H. now apply list_elem_of_further. }
  rewrite Hr. simpl. eauto.
Qed.

Lemma index_of_lookup (x : string) (l : list string) (i : nat) :
  index_of x l = Some i -> l !! i = Some x.
Proof.
  revert i. induction l as [|y l IH]; intros i; simpl; [discriminate|].
  destruct (String.eqb_spec y x) as [->|Hne].
  - intros [= <-]. reflexivity.
  - destruct (index_of x l) as [k|]; simpl; [|discriminate].
    intros [= <-]. simpl. auto.
Qed.

Lemma index_of_elem (x : string) (l : list string) :
  x ∈ l -> exists i, index_of x l = Some i.
Proof.
  induction l as [|y l IH]; [intros H; inversion H|].
  intros [->|H]%elem_of_cons; simpl.
  - rewrite String.eqb_refl. eauto.
  - destruct (String.eqb y x); [eauto|].
    destruct (IH H) as [i ->]. simpl. eauto.
Qed.

Lemma index_of_not_elem (x : string) (l : list string) :
  x ∉ l -> index_of x l = None.
Proof.
  induction l as [|y l IH]; [reflexivity|].
  intros [Hne H]%not_elem_of_cons. simpl.
  destruct (String.eqb_spec y x) as [->|_]; [congruence|].
  now rewrite (IH H).
Qed.

Lemma index_of_app_l (x : string) (l1 l2 : list string) :
  x ∈ l1 -> index_of x (l1 ++ l2) = index_of x l1.
Proof.
  induction l1 as [|y l1 IH]; [intros H; inversion H|].
  intros [->|H]%elem_of_cons; simpl.
  - now rewrite String.eqb_refl.
  - destruct (String.eqb y x); [reflexivity|]. now rewrite (IH H).
Qed.

Lemma index_of_app_r (x : string) (l1 l2 : list string) :
  x ∉ l1 ->
  index_of x (l1 ++ l2) = option_map (fun i => (length l1 + i)%nat) (index_of x l2).
Proof.
  induction l1 as [|y l1 IH]; simpl.
  - intros _. now destruct (index_of x l2).
  - intros [Hne H]%not_elem_of_cons.
    destruct (String.eqb_spec y x) as [->|_]; [congruence|].
    rewrite (IH H). now destruct (index_of x l2).
Qed.

Lemma index_of_NoDup (x : string) (l : list string) (i : nat) :
  NoDup l -> l !! i = Some x -> index_of x l = Some i.
Proof.
  intros Hnd. revert i. induction Hnd as [|y l Hy Hnd IH]; intros i;
    [discriminate|].
  destruct i as [|i]; simpl.
  - intros [= ->]. now rewrite String.eqb_refl.
  - intros H. destruct (String.eqb_spec y x) as [->|_].
    + exfalso. apply Hy. now apply list_elem_of_lookup_2 in H.
    + now rewrite (IH i H).
Qed.

Lemma NoDup_compute {A : Type} `{EqDecision A} (l : list A) :
  bool_decide (NoDup l) = true -> NoDup l.
Proof. apply bool_decide_eq_true_1. Qed.

Lemma starts_with_app (p s : string) : starts_with p (p +:+ s) = true.
Proof.
  induction p as [|c p IH]; simpl; [reflexivity|].
  now rewrite Ascii.eqb_refl.
Qed.

End PyFacts.

(* ===================================================================== *)
(** * The parameter grid of rule [all] *)
(* ===================================================================== *)

Module GridFacts.
Import Py PyFacts Expand Snakefile.

Lemma product_tag (ws : list (string * list string)) :
  product (map tag ws) = zip (map fst ws) <$> product (map snd ws).
Proof.
  induction ws as [|[k vs] ws IH]; [reflexivity|].
  cbn [map product fst snd]. rewrite IH. unfold tag at 1. cbn [fst snd].
  induction vs as [|v vs IHvs]; [reflexivity|].
  cbn [map]. rewrite !bind_cons, fmap_app, IHvs. f_equal.
  rewrite <- !list_fmap_compose. reflexivity.
Qed.

Lemma product_elem_length {A : Type} (ds : list (list A)) (x : list A) :
  x ∈ product ds -> length x = length ds.
Proof.
  revert x. induction ds as [|d ds IH]; intros x; cbn [product].
  - intros ->%list_elem_of_singleton. reflexivity.
  - intros (y & Hx & _)%list_elem_of_bind.
    apply list_elem_of_fmap in Hx as (r & -> & Hr). simpl. f_equal. auto.
Qed.

Lemma product_elem {A : Type} (ds : list (list A)) (x : list A) :
  x ∈ product ds <-> Forall2 (fun v d => v ∈ d) x ds.
Proof.
  revert x. induction ds as [|d ds IH]; intros x; cbn [product].
  - rewrite list_elem_of_singleton. split; [intros ->; constructor|].
    intros H. now inversion H.
  - rewrite list_elem_of_bind. split.
    + intros (y & (r & -> & Hr)%list_elem_of_fmap & Hy).
      constructor; [assumption|]. now apply IH.
    + intros H. inversion H as [|v d' r ds' Hv Hr]; subst.
      exists v. split; [|assumption].
      apply list_elem_of_fmap. exists r. split; [reflexivity|]. now apply IH.
Qed.

Lemma bind_length_const {A B : Type} (f : A -> list B) (l : list A) (n : nat) :
  (forall x, length (f x) = n) -> length (l ≫= f) = (length l * n)%nat.
Proof.
  intros H. induction l as [|a l IH]; [reflexivity|].
  rewrite bind_cons, length_app, IH, H. simpl. reflexivity.
Qed.

Lemma product_length {A : Type} (ds : list (list A)) :
  length (product ds) = grid_size ds.
Proof.
  induction ds as [|d ds IH]; [reflexivity|].
  cbn [product grid_size]. rewrite <- IH.
  apply bind_length_const. intros x. apply length_fmap.
Qed.

Lemma product_NoDup {A : Type} (ds : list (list A)) :
  Forall NoDup ds -> NoDup (product ds).
Proof.
  induction 1 as [|d ds Hd Hds IH]; cbn [product].
  - apply NoDup_singleton.
  - apply NoDup_bind; [| |assumption].
    + intros x1 x2 y _ _ (r1 & -> & _)%list_elem_of_fmap
        (r2 & [= -> _] & _)%list_elem_of_fmap. reflexivity.
    + intros x _. apply NoDup_fmap_2; [|assumption].
      intros r1 r2 [= ->]. reflexivity.
Qed.

Lemma sep_safe_tail (c : ascii) (s : string) :
  sep_safe (String c s) = true -> sep_safe s = true.
Proof.
  simpl. destruct (Ascii.eqb c underscore); [|tauto].
  destruct s as [|c' s']; [discriminate|].
  intros H. now apply andb_true_iff in H as [_ H].
Qed.

Lemma sep_safe_not_before_sep (s r : string) :
  sep_safe (String underscore s) = true ->
  forall t, s +:+ "__" +:+ r <> String underscore t.
Proof.
  intros H t E. simpl in H. destruct s as [|c' s']; [discriminate|].
  apply andb_true_iff in H as [H _]. simpl in E. injection E as -> _.
  now rewrite Ascii.eqb_refl in H.
Qed.

(** A safe value is recovered from the text it starts: the first ["__"]
    that ends a safe value is found at one place only. *)
Lemma sep_safe_split (a b r1 r2 : string) :
  sep_safe a = true -> sep_safe b = true ->
  a +:+ "__" +:+ r1 = b +:+ "__" +:+ r2 -> a = b /\ r1 = r2.
Proof.
  revert b. induction a as [|x a IH]; intros [|y b] Ha Hb E.
  - simpl in E. injection E as E. auto.
  - exfalso. simpl in E. injection E as Ey E. subst y.
    now apply (sep_safe_not_before_sep b r2 Hb r1).
  - exfalso. simpl in E. injection E as Ex E. subst x.
    now apply (sep_safe_not_before_sep a r1 Ha r2).
  - simpl in E. injection E as -> E.
    destruct (IH b (sep_safe_tail _ _ Ha) (sep_safe_tail _ _ Hb) E) as [-> ->].
    auto.
Qed.

Lemma join_inj (t : string) (v1 v2 : list string) :
  length v1 = length v2 ->
  forallb sep_safe (removelast v1) = true ->
  forallb sep_safe (removelast v2) = true ->
  join "__" v1 +:+ t = join "__" v2 +:+ t -> v1 = v2.
Proof.
  revert v2. induction v1 as [|a [|a' r] IH]; intros [|b [|b' r']] Hl H1 H2 E;
    try discriminate.
  - reflexivity.
  - f_equal. now apply (append_inv_tail a b t).
  - cbn [removelast forallb] in H1, H2.
    apply andb_true_iff in H1 as [Ha H1]. apply andb_true_iff in H2 as [Hb H2].
    change (join "__" (a :: a' :: r)) with (a +:+ "__" +:+ join "__" (a' :: r)) in E.
    change (join "__" (b :: b' :: r')) with (b +:+ "__" +:+ join "__" (b' :: r')) in E.
    rewrite !append_assoc in E.
    apply sep_safe_split in E as [-> E]; [|assumption..].
    f_equal. apply IH; [simpl in Hl |- *; lia|assumption..].
Qed.

Lemma checkpoint_path_inj (fname : string) (v1 v2 : list string) :
  length v1 = length v2 ->
  forallb sep_safe (removelast v1) = true ->
  forallb sep_safe (removelast v2) = true ->
  checkpoint_path fname v1 = checkpoint_path fname v2 -> v1 = v2.
Proof.
  intros Hl H1 H2 E. unfold checkpoint_path in E.
  apply append_inv_head, append_inv_head, append_inv_head in E.
  now apply (join_inj ".done").
Qed.

Lemma format_checkpoint (fname l s g c p u : string) :
  fname = "subset" \/ fname = "merged" ->
  format (parse_pattern (checkpoint_pattern fname))
         (zip dim_reduc_keys [l; s; g; c; p; u])
  = Ok (checkpoint_path fname [l; s; g; c; p; u]).
Proof.
  intros [-> | ->]; unfold checkpoint_path; cbn [join];
    rewrite !append_assoc; reflexivity.
Qed.

Lemma mapM_fmap {A B C : Type} (f : B -> result C) (h : A -> B) (l : list A) :
  mapM f (h <$> l) = mapM (fun x => f (h x)) l.
Proof.
  induction l as [|a l IH]; [reflexivity|].
  change (h <$> a :: l) with (h a :: (h <$> l)). cbn [mapM]. now rewrite IH.
Qed.

(** [expand] on the six domains yields the checkpoint path of every grid
    point, in [product] order. *)
Lemma expand_str_grid (fname : string) (L S G C P U : list string) :
  fname = "subset" \/ fname = "merged" ->
  expand_str (checkpoint_pattern fname) (zip dim_reduc_keys [L; S; G; C; P; U])
  = Ok (checkpoint_path fname <$> product [L; S; G; C; P; U]).
Proof.
  intros Hf. unfold expand_str.
  rewrite (product_tag (zip dim_reduc_keys [L; S; G; C; P; U])).
  cbn [zip zip_with dim_reduc_keys map fst snd].
  rewrite mapM_fmap. apply mapM_ok.
  intros x Hx. pose proof (product_elem_length _ _ Hx) as Hl.
  destruct x as [|l [|s [|g [|c [|p [|u [|? ?]]]]]]]; try discriminate Hl.
  now apply format_checkpoint.
Qed.

Lemma forallb_elem {A : Type} (f : A -> bool) (l : list A) (x : A) :
  forallb f l = true -> x ∈ l -> f x = true.
Proof.
  intros H Hx. apply list_elem_of_In in Hx.
  now apply (proj1 (forallb_forall f l) H).
Qed.

Lemma grid_point_safe (L S G C P U : list string) (v : list string) :
  forallb sep_safe (L ++ S ++ G ++ C ++ P) = true ->
  v ∈ product [L; S; G; C; P; U] ->
  length v = 6%nat /\ forallb sep_safe (removelast v) = true.
Proof.
  intros Hs Hv. split; [now apply product_elem_length in Hv|].
  apply product_elem in Hv.
  repeat match goal with
         | H : Forall2 _ _ (_ :: _) |- _ => inversion H; subst; clear H
         | H : Forall2 _ _ [] |- _ => inversion H; subst; clear H
         end.
  cbn [removelast forallb].
  repeat match goal with
         | |- (_ && _)%bool = true => apply andb_true_iff; split
         end; try reflexivity;
    apply (forallb_elem _ _ _ Hs); rewrite !elem_of_app; auto 10.
Qed.

Lemma filename_cases (config : value) (fname : string) :
  filename config = Ok fname -> fname = "subset" \/ fname = "merged".
Proof.
  unfold filename. destruct (getitem config "subset") as [s|]; [|discriminate].
  cbn [bind]. destruct (getitem s "use") as [use|]; [|discriminate].
  cbn [bind]. destruct (truthy use); intros [= <-]; auto.
Qed.

Lemma product_map {A B : Type} (f : A -> B) (ds : list (list A)) :
  product (map (map f) ds) = map (map f) (product ds).
Proof.
  induction ds as [|d ds IH]; [reflexivity|]. cbn [map product]. rewrite IH.
  induction d as [|x d IHd]; [reflexivity|].
  cbn [map]. rewrite !bind_cons, map_app, IHd. f_equal.
  rewrite <- !list_fmap_compose. reflexivity.
Qed.

Lemma distinct_NoDup (l : list string) : distinct l = true -> NoDup l.
Proof.
  induction l as [|x l IH]; [intros _; constructor|]. cbn [distinct].
  intros [Hx Hl]%andb_true_iff. constructor; [|now apply IH].
  intros Hin. apply negb_true_iff in Hx.
  assert (existsb (String.eqb x) l = true); [|congruence].
  apply existsb_exists. exists x. split; [now apply list_elem_of_In|].
  apply String.eqb_refl.
Qed.

(** Within a domain whose texts are pairwise distinct, a value is known by
    its text; so is a grid point. *)
Lemma NoDup_map_inj {A B : Type} (f : A -> B) (l : list A) (a b : A) :
  NoDup (map f l) -> a ∈ l -> b ∈ l -> f a = f b -> a = b.
Proof.
  induction l as [|x l IH]; intros Hnd Ha Hb E; [inversion Ha|].
  cbn [map] in Hnd. apply NoDup_cons in Hnd as [Hx Hnd].
  apply elem_of_cons in Ha as [->|Ha], Hb as [->|Hb]; try reflexivity.
  - exfalso. apply Hx. rewrite E. now apply (list_elem_of_fmap_2 f).
  - exfalso. apply Hx. rewrite <- E. now apply (list_elem_of_fmap_2 f).
  - now apply IH.
Qed.

Lemma grid_point_by_text {A B : Type} (f : A -> B) (ds : list (list A))
  (t1 t2 : list A) :
  Forall (fun d => NoDup (map f d)) ds ->
  t1 ∈ product ds -> t2 ∈ product ds -> map f t1 = map f t2 -> t1 = t2.
Proof.
  intros Hnd H1%product_elem H2%product_elem. revert t2 H2 Hnd.
  induction H1 as [|x d t1 ds Hx H1 IH]; intros t2 H2 Hnd E;
    inversion H2 as [|y d' t2' ds' Hy H2']; subst; [reflexivity|].
  apply Forall_cons in Hnd as [Hd Hnd]. cbn [map] in E.
  injection E as Exy E. f_equal.
  - exact (NoDup_map_inj f d x y Hd Hx Hy Exy).
  - now apply IH.
Qed.

Section Grid.

Variable str_opaque : value -> string.

#[local] Abbreviation text := (text str_opaque).
#[local] Abbreviation render := (render str_opaque).
#[local] Abbreviation expand := (expand str_opaque).
#[local] Abbreviation checkpoints := (checkpoints str_opaque).
#[local] Abbreviation domain := (domain str_opaque).
#[local] Abbreviation rule_all_input := (rule_all_input str_opaque).

Lemma mapM_render (l : list value) : mapM render l = Ok (map text l).
Proof.
  induction l as [|v l IH]; [reflexivity|]. cbn [mapM map].
  unfold Expand.render at 1. cbn [bind]. now rewrite IH.
Qed.

Lemma domain_of_values (config : value) (key : string) (V : list value) :
  domain_values config key = Ok V -> domain config key = Ok (map text V).
Proof.
  unfold domain_values, Snakefile.domain.
  destruct (getitem config "dim_reduc") as [d|]; [|discriminate]. cbn [bind].
  destruct (getitem d key) as [v|]; [|discriminate]. cbn [bind].
  intros [= <-]. apply mapM_render.
Qed.

Lemma checkpoints_domains (config : value) (fname : string)
  (L S G C P U : list string) :
  domain config "layer_to_use" = Ok L ->
  domain config "scale_data_before_pca" = Ok S ->
  domain config "genes_for_pca" = Ok G ->
  domain config "cc_method" = Ok C ->
  domain config "pca_n_components" = Ok P ->
  domain config "umap_n_neighbors" = Ok U ->
  checkpoints config fname
  = expand_str (checkpoint_pattern fname) (zip dim_reduc_keys [L; S; G; C; P; U]).
Proof.
  unfold Snakefile.domain, Snakefile.checkpoints.
  destruct (getitem config "dim_reduc") as [d|e];
    [|discriminate]. cbn [bind mapM dim_reduc_keys].
  intros HL HS HG HC HP HU.
  destruct (getitem d "layer_to_use") as [vl|]; [|discriminate].
  destruct (getitem d "scale_data_before_pca") as [vs|]; [|discriminate].
  destruct (getitem d "genes_for_pca") as [vg|]; [|discriminate].
  destruct (getitem d "cc_method") as [vc|]; [|discriminate].
  destruct (getitem d "pca_n_components") as [vp|]; [|discriminate].
  destruct (getitem d "umap_n_neighbors") as [vu|]; [|discriminate].
  cbn [bind] in *. unfold Expand.expand. cbn [mapM bind fst snd].
  rewrite HL, HS, HG, HC, HP, HU. reflexivity.
Qed.

(** C1, as amended.  When no value of the first five dimensions has a
    text ([str]) that contains ["__"] or ends with ["_"], and no dimension
    lists two values with the same text, the [expand] call of rule [all]
    yields one checkpoint path per grid point: as many paths as the product
    of the domain sizes and no path twice, the path of every grid point
    among them, every path that of a grid point, and distinct grid points
    with distinct paths. *)
Theorem checkpoints_one_per_grid_point (config : value) (fname : string)
  (L S G C P U : list value) :
  filename config = Ok fname ->
  domain_values config "layer_to_use" = Ok L ->
  domain_values config "scale_data_before_pca" = Ok S ->
  domain_values config "genes_for_pca" = Ok G ->
  domain_values config "cc_method" = Ok C ->
  domain_values config "pca_n_components" = Ok P ->
  domain_values config "umap_n_neighbors" = Ok U ->
  forallb sep_safe (map text (L ++ S ++ G ++ C ++ P)) = true ->
  forallb (fun D => distinct (map text D)) [L; S; G; C; P; U] = true ->
  exists out,
    rule_all_input config = Ok ("results/preprocessing/subset.h5ad" :: out) /\
    checkpoints config fname = Ok out /\
    length out
    = (length L * (length S * (length G * (length C * (length P * length U)))))%nat /\
    NoDup out /\
    (forall t, t ∈ product [L; S; G; C; P; U] ->
               checkpoint_path fname (map text t) ∈ out) /\
    (forall x, x ∈ out ->
               exists t, t ∈ product [L; S; G; C; P; U] /\
                         x = checkpoint_path fname (map text t)) /\
    (forall t1 t2,
        t1 ∈ product [L; S; G; C; P; U] -> t2 ∈ product [L; S; G; C; P; U] ->
        checkpoint_path fname (map text t1) = checkpoint_path fname (map text t2) ->
        t1 = t2).
Proof.
  intros Hfile HL HS HG HC HP HU Hsafe Hdist.
  pose proof (filename_cases config fname Hfile) as Hf.
  apply domain_of_values in HL, HS, HG, HC, HP, HU.
  rewrite !map_app in Hsafe.
  assert (Htexts : Forall (fun D => NoDup (map text D)) [L; S; G; C; P; U]).
  { apply Forall_forall. intros D HD. apply distinct_NoDup.
    apply list_elem_of_In in HD.
    exact (proj1 (forallb_forall _ _) Hdist D HD). }
  assert (Hprod : product [map text L; map text S; map text G; map text C;
                           map text P; map text U]
                  = map (map text) (product [L; S; G; C; P; U]))
    by apply (product_map text [L; S; G; C; P; U]).
  assert (Hinj : forall v1 v2,
             v1 ∈ map (map text) (product [L; S; G; C; P; U]) ->
             v2 ∈ map (map text) (product [L; S; G; C; P; U]) ->
             checkpoint_path fname v1 = checkpoint_path fname v2 -> v1 = v2).
  { rewrite <- Hprod. intros v1 v2 H1 H2 E.
    destruct (grid_point_safe _ _ _ _ _ _ _ Hsafe H1) as [Hl1 Hs1].
    destruct (grid_point_safe _ _ _ _ _ _ _ Hsafe H2) as [Hl2 Hs2].
    apply (checkpoint_path_inj fname); [congruence|assumption..]. }
  assert (Hout : checkpoints config fname
                 = Ok (checkpoint_path fname
                         <$> map (map text) (product [L; S; G; C; P; U]))).
  { rewrite (checkpoints_domains config fname _ _ _ _ _ _ HL HS HG HC HP HU).
    rewrite <- Hprod. now apply expand_str_grid. }
  exists (checkpoint_path fname <$> map (map text) (product [L; S; G; C; P; U])).
  split; [|split; [|split; [|split; [|split; [|split]]]]].
  - unfold Snakefile.rule_all_input. rewrite Hfile. cbn [bind]. now rewrite Hout.
  - exact Hout.
  - rewrite length_fmap, length_map, product_length. cbn [grid_size]. lia.
  - apply NoDup_fmap_2_strong; [exact Hinj|]. rewrite <- Hprod.
    apply product_NoDup.
    repeat match goal with
           | H : Forall _ (_ :: _) |- _ => apply Forall_cons in H as [? H]
           end.
    repeat constructor; assumption.
  - intros t Ht. apply list_elem_of_fmap. exists (map text t).
    split; [reflexivity|]. now apply (list_elem_of_fmap_2 (map text)).
  - intros x (v & -> & (t & -> & Ht)%list_elem_of_fmap)%list_elem_of_fmap.
    now exists t.
  - intros t1 t2 H1 H2 E.
    apply (grid_point_by_text text [L; S; G; C; P; U]); try assumption.
    apply Hinj; [now apply (list_elem_of_fmap_2 (map text))..|exact E].
Qed.

End Grid.

(** The scenario of C1: two cell-cycle methods and two component counts,
    single values elsewhere, give exactly four distinct checkpoint paths. *)
Lemma checkpoints_scenario_four :
  exists out,
    checkpoints str_unused scenario_config "subset" = Ok out /\
    length out = 4%nat /\ NoDup out.
Proof.
  destruct (checkpoints_one_per_grid_point str_unused scenario_config "subset"
              [VStr "log1p_norm_of_soupX_counts"] [VBool true] [VStr "all"]
              [VStr "None"; VStr "regress_out"] [VInt 50; VInt 100] [VInt 30])
    as (out & _ & Hout & Hlen & Hnd & _).
  - reflexivity.
  - reflexivity.
  - reflexivity.
  - reflexivity.
  - reflexivity.
  - reflexivity.
  - reflexivity.
  - reflexivity.
  - reflexivity.
  - exists out. split; [exact Hout|]. split; [exact Hlen|exact Hnd].
Defined.

(** Counterexample to C1 as stated.  With values that contain ["__"], two
    distinct grid points of duplicate-free domains get one and the same
    checkpoint path, so the four grid points yield three distinct paths;
    so it is with a value that ends with ["_"].  With values of different
    types that print alike ([None] and ['None'], [True] and ['True'], [50]
    and ['50']), the eight grid points get one path. *)
Lemma checkpoints_collision :
  (domain str_unused colliding_config "genes_for_pca" = Ok ["all"; "all__None"] /\
   domain str_unused colliding_config "cc_method" = Ok ["None"; "None__None"] /\
   exists out,
     checkpoints str_unused colliding_config "subset" = Ok out /\
     length out = 4%nat /\
     ~ NoDup out /\
     checkpoint_path "subset"
       ["log1p_norm_of_soupX_counts"; "True"; "all"; "None__None"; "50"; "30"]
     = checkpoint_path "subset"
       ["log1p_norm_of_soupX_counts"; "True"; "all__None"; "None"; "50"; "30"]) /\
  (domain str_unused trailing_config "genes_for_pca" = Ok ["all"; "all_"] /\
   domain str_unused trailing_config "cc_method" = Ok ["_None"; "None"] /\
   exists out,
     checkpoints str_unused trailing_config "subset" = Ok out /\
     length out = 4%nat /\
     checkpoint_path "subset"
       ["log1p_norm_of_soupX_counts"; "True"; "all"; "_None"; "50"; "30"]
     = checkpoint_path "subset"
       ["log1p_norm_of_soupX_counts"; "True"; "all_"; "None"; "50"; "30"] /\
     length (remove_dups out) = 3%nat) /\
  (domain_values same_text_config "scale_data_before_pca"
   = Ok [VBool true; VStr "True"] /\
   domain_values same_text_config "cc_method" = Ok [VNone; VStr "None"] /\
   domain_values same_text_config "pca_n_components" = Ok [VInt 50; VStr "50"] /\
   checkpoints str_unused same_text_config "subset"
   = Ok (replicate 8
           (checkpoint_path "subset"
              ["log1p_norm_of_soupX_counts"; "True"; "all"; "None"; "50"; "30"]))).
Proof.
  split.
  - split; [reflexivity|]. split; [reflexivity|].
    eexists. split; [vm_compute; reflexivity|].
    split; [reflexivity|]. split; [|reflexivity].
    intros H. apply NoDup_ListNoDup in H.
    inversion H as [|x1 l1 _ H1]; subst. inversion H1 as [|x2 l2 Hn _]; subst.
    apply Hn. left. reflexivity.
  - split.
    + split; [reflexivity|]. split; [reflexivity|].
      eexists. split; [vm_compute; reflexivity|].
      split; [reflexivity|]. split; [reflexivity|]. vm_compute. reflexivity.
    + repeat split; vm_compute; reflexivity.
Qed.

(** The shipped configuration: 24 grid points, 24 distinct checkpoint
    paths, and the subset artifact in front. *)
Lemma rule_all_input_config_yaml :
  exists done,
    rule_all_input str_unused config_yaml
    = Ok ("results/preprocessing/subset.h5ad" :: done) /\
    length done = 24%nat /\ NoDup done.
Proof.
  eexists. split; [vm_compute; reflexivity|].
  split; [reflexivity|]. apply NoDup_compute. vm_compute. reflexivity.
Qed.

End GridFacts.

(* ===================================================================== *)
(** * Sample resolution *)
(* ===================================================================== *)

Module SampleFacts.
Import Py PyFacts Snakefile.

Lemma config_yaml_sections :
  config_yaml = configuration shipped_data shipped_dim_reduc.
Proof. reflexivity. Qed.

Section Resolution.

Variable read_sample : value -> result dataframe.
Variable files : gmap string string.
Variable str_opaque : value -> string.

(** The sheet branch is taken whenever a sheet path is configured, whatever
    the directory flag says. *)
Lemma load_samples_sheet (config data sheet : value) :
  getitem config "data" = Ok data ->
  getitem data "sample_sheet_path" = Ok sheet ->
  truthy sheet = true ->
  load_samples read_sample files config
  = ([ReadCsv sheet],
     let* df := read_csv files sheet "sample_name" tab in Ok (Some df)).
Proof.
  intros Hd Hs Ht. unfold load_samples. rewrite Hd. cbn [bind].
  now rewrite Hs, Ht.
Qed.

(** With the flag present at top level and on, and no sheet, the directory
    scan runs and nothing else. *)
Lemma load_samples_directory (config data sheet flag arg : value) :
  getitem config "data" = Ok data ->
  getitem data "sample_sheet_path" = Ok sheet ->
  truthy sheet = false ->
  getitem config "samples_in_directory" = Ok flag ->
  truthy flag = true ->
  getitem data "samples_in_directory" = Ok arg ->
  load_samples read_sample files config
  = ([ReadSample arg], let* df := read_sample arg in Ok (Some df)).
Proof.
  intros Hd Hs Ht Hf Htf Ha. unfold load_samples. rewrite Hd. cbn [bind].
  now rewrite Hs, Ht, Hf, Htf, Ha.
Qed.

(** With the flag present at top level and off, and no sheet, the message is
    printed and the Snakefile stops at [samples.index]. *)
Lemma resolve_samples_none (config data sheet flag : value) :
  getitem config "data" = Ok data ->
  getitem data "sample_sheet_path" = Ok sheet ->
  truthy sheet = false ->
  getitem config "samples_in_directory" = Ok flag ->
  truthy flag = false ->
  resolve_samples read_sample files config
  = ([Print "no samples detected"], Raise (NameError "samples")) /\
  snakefile read_sample files str_opaque config
  = ([Print "no samples detected"], Raise (NameError "samples")).
Proof.
  intros Hd Hs Ht Hf Htf.
  assert (H : resolve_samples read_sample files config
              = ([Print "no samples detected"], Raise (NameError "samples"))).
  { unfold resolve_samples, load_samples. rewrite Hd. cbn [bind].
    now rewrite Hs, Ht, Hf, Htf. }
  split; [exact H|]. unfold snakefile. now rewrite H.
Qed.

(** Without a sheet, a configuration that lacks the top-level flag stops
    sample resolution with the lookup error, whatever [data] says. *)
Lemma load_samples_missing_flag (config data sheet : value) (e : exn) :
  getitem config "data" = Ok data ->
  getitem data "sample_sheet_path" = Ok sheet ->
  truthy sheet = false ->
  getitem config "samples_in_directory" = Raise e ->
  load_samples read_sample files config = ([], Raise e).
Proof.
  intros Hd Hs Ht Hf. unfold load_samples. rewrite Hd. cbn [bind].
  now rewrite Hs, Ht, Hf.
Qed.

(** C2, the defect.  [config.yaml] keeps the directory flag under [data];
    the Snakefile tests [config['samples_in_directory']].  With the sheet
    path emptied and [data.samples_in_directory] switched on, the test
    raises [KeyError]: no sample source is read.  With both switched off
    the same [KeyError] comes before the message is printed. *)
Theorem directory_scan_config_raises_KeyError :
  load_samples read_sample files directory_scan_config
  = ([], Raise (KeyError "samples_in_directory")) /\
  snakefile read_sample files str_opaque directory_scan_config
  = ([], Raise (KeyError "samples_in_directory")) /\
  snakefile read_sample files str_opaque no_source_config
  = ([], Raise (KeyError "samples_in_directory")).
Proof. repeat split; reflexivity. Qed.

(** The same two configurations with the flag repeated at top level behave
    as intended. *)
Lemma top_level_flag_behaviour :
  load_samples read_sample files
    (with_top_level_flag (VBool true) directory_scan_config)
  = ([ReadSample (VBool true)],
     let* df := read_sample (VBool true) in Ok (Some df)) /\
  snakefile read_sample files str_opaque
    (with_top_level_flag (VBool false) no_source_config)
  = ([Print "no samples detected"], Raise (NameError "samples")).
Proof. split; reflexivity. Qed.

Lemma append_snoc (f : string) (c : ascii) (w : string) :
  (f +:+ String c EmptyString) +:+ w = f +:+ String c w.
Proof.
  induction f as [|a f IH]; cbn [String.append]; [reflexivity|now rewrite IH].
Qed.

Lemma append_empty_r (f : string) : f +:+ EmptyString = f.
Proof.
  induction f as [|a f IH]; cbn [String.append]; [reflexivity|now rewrite IH].
Qed.

(** Inside a field, characters other than tab, line feed and carriage
    return are added to the field. *)
Lemma feed_in_field (b : bool) (w : string) :
  contains_char tab w = false -> contains_char newline w = false ->
  contains_char carriage w = false ->
  forall f fs ls rest,
    feed tab b {| tok_state := IN_FIELD; tok_field := f;
                  tok_fields := fs; tok_lines := ls |} (w +:+ rest)
    = feed tab b {| tok_state := IN_FIELD; tok_field := f +:+ w;
                    tok_fields := fs; tok_lines := ls |} rest.
Proof.
  induction w as [|c w IH]; intros Ht Hn Hc f fs ls rest.
  - cbn [String.append]. now rewrite append_empty_r.
  - cbn [contains_char] in Ht, Hn, Hc.
    apply orb_false_iff in Ht as [Ht Ht'], Hn as [Hn Hn'], Hc as [Hc Hc'].
    cbn [String.append feed]. unfold step at 1. cbn [tok_state].
    unfold in_field. rewrite Ht, Hn, Hc. cbn [bind]. unfold push.
    cbn [tok_field tok_fields tok_lines].
    rewrite (IH Ht' Hn' Hc'). now rewrite append_snoc.
Qed.

Lemma plain_field_inv (w : string) :
  plain_field w = true ->
  contains_char tab w = false /\ contains_char newline w = false /\
  contains_char carriage w = false /\
  match w with
  | String c _ => Ascii.eqb c quote = false
  | EmptyString => True
  end.
Proof.
  unfold plain_field.
  intros [[[Ht Hn]%andb_true_iff Hc]%andb_true_iff Hq]%andb_true_iff.
  apply negb_true_iff in Ht, Hn, Hc. repeat split; try assumption.
  destruct w; [exact I|now apply negb_true_iff].
Qed.

(** A plain field, from its start to the character that ends it. *)
Lemma feed_plain_field (b : bool) (w : string) (fs : list string)
  (ls : list (list string)) :
  plain_field w = true ->
  exists s,
    (s = START_FIELD \/ s = IN_FIELD) /\
    forall rest,
      feed tab b {| tok_state := START_FIELD; tok_field := EmptyString;
                    tok_fields := fs; tok_lines := ls |} (w +:+ rest)
      = feed tab b {| tok_state := s; tok_field := w;
                      tok_fields := fs; tok_lines := ls |} rest.
Proof.
  intros (Ht & Hn & Hc & Hq)%plain_field_inv. destruct w as [|c w].
  - exists START_FIELD. split; [now left|]. reflexivity.
  - exists IN_FIELD. split; [now right|]. intros rest.
    cbn [contains_char] in Ht, Hn, Hc.
    apply orb_false_iff in Ht as [Ht Ht'], Hn as [Hn Hn'], Hc as [Hc Hc'].
    cbn [String.append feed]. unfold step at 1. cbn [tok_state].
    unfold start_field. rewrite Hn, Hc, Hq, Ht. cbn [bind]. unfold push.
    cbn [tok_field tok_fields tok_lines String.append].
    now rewrite (feed_in_field b w Ht' Hn' Hc').
Qed.

Lemma letter_is_ordinary (c : ascii) :
  ascii_letter c = true ->
  Ascii.eqb c newline = false /\ Ascii.eqb c carriage = false /\
  Ascii.eqb c quote = false /\ Ascii.eqb c tab = false /\
  is_whitespace c = false.
Proof.
  intros H. unfold is_whitespace.
  repeat split;
    repeat match goal with
           | |- context [Ascii.eqb c ?x] =>
               destruct (Ascii.eqb_spec c x) as [->|_];
               [vm_compute in H; discriminate H|]
           end; reflexivity.
Qed.

(** The name that begins a line, up to the tab behind it. *)
Lemma feed_name (b fresh : bool) (name : string) (ls : list (list string))
  (rest : string) :
  text_label name = true -> plain_field name = true ->
  feed tab b {| tok_state := START_RECORD fresh; tok_field := EmptyString;
                tok_fields := []; tok_lines := ls |}
       (name +:+ String tab rest)
  = feed tab b {| tok_state := START_FIELD; tok_field := EmptyString;
                  tok_fields := [name]; tok_lines := ls |} rest.
Proof.
  intros Hl (Ht & Hn & Hc & _)%plain_field_inv.
  destruct name as [|c w]; [discriminate Hl|].
  cbn [text_label] in Hl. apply andb_true_iff in Hl as [Hl _].
  destruct (letter_is_ordinary c Hl) as (En & Ec & Eq & Et & Ew).
  cbn [contains_char] in Ht, Hn, Hc.
  apply orb_false_iff in Ht as [_ Ht'], Hn as [_ Hn'], Hc as [_ Hc'].
  cbn [String.append feed]. unfold step at 1. cbn [tok_state].
  unfold start_record, start_field. rewrite En, Ec, Ew, Eq, Et.
  cbn [andb bind]. unfold push.
  cbn [tok_field tok_fields tok_lines String.append].
  rewrite (feed_in_field b w Ht' Hn' Hc').
  cbn [feed]. unfold step at 1. cbn [tok_state]. reflexivity.
Qed.

(** A line of two fields ends without error behind lines of two fields. *)
Lemma end_line_two (s0 s : tokenizer_state) (f x y : string)
  (ls : list (list string)) :
  match last ls with
  | Some l => length l = 2%nat
  | None => True
  end ->
  end_line {| tok_state := s0; tok_field := f; tok_fields := [x; y];
              tok_lines := ls |} s
  = Ok {| tok_state := s; tok_field := EmptyString; tok_fields := [];
          tok_lines := ls ++ [[x; y]] |}.
Proof.
  intros H. unfold end_line. cbn [tok_lines tok_fields length].
  destruct (last ls) as [l|] eqn:E.
  - rewrite H. cbn [Nat.ltb Nat.leb]. now rewrite !andb_false_r.
  - apply last_None in E. subst ls. reflexivity.
Qed.

(** A line of a sheet, from its start to the line feed behind it. *)
Lemma feed_sheet_line (b fresh : bool) (row : string * string)
  (ls : list (list string)) (rest : string) :
  PerSampleSnakefile.plain_row row = true ->
  match last ls with
  | Some l => length l = 2%nat
  | None => True
  end ->
  feed tab b {| tok_state := START_RECORD fresh; tok_field := EmptyString;
                tok_fields := []; tok_lines := ls |}
       (PerSampleSnakefile.sheet_line row +:+ String newline rest)
  = feed tab b {| tok_state := START_RECORD true; tok_field := EmptyString;
                  tok_fields := []; tok_lines := ls ++ [[fst row; snd row]] |}
         rest.
Proof.
  unfold PerSampleSnakefile.plain_row, PerSampleSnakefile.sheet_line.
  intros [[Hl Hname]%andb_true_iff Hpath]%andb_true_iff Hls.
  rewrite append_assoc. cbn [String.append].
  rewrite (feed_name b fresh (fst row) ls _ Hl Hname).
  destruct (feed_plain_field b (snd row) [fst row] ls Hpath) as (s & Hs & ->).
  cbn [feed]. unfold step at 1. cbn [tok_state].
  assert (E : forall p, tok_fields p = [fst row] -> tok_lines p = ls ->
                        tok_field p = snd row ->
                        end_line (end_field p START_FIELD) (START_RECORD true)
                        = Ok {| tok_state := START_RECORD true;
                                tok_field := EmptyString; tok_fields := [];
                                tok_lines := ls ++ [[fst row; snd row]] |}).
  { intros p Hf Hl' Hw. unfold end_field. rewrite Hf, Hl', Hw.
    now apply end_line_two. }
  destruct Hs as [-> | ->]; unfold start_field, in_field;
    cbn [Ascii.eqb Bool.eqb newline];
    [rewrite E by reflexivity|]; cbn [bind]; try reflexivity.
  unfold end_field. cbn [tok_field tok_fields tok_lines app].
  now rewrite end_line_two.
Qed.

Lemma last_two (ls : list (list string)) (x y : string) :
  match last (ls ++ [[x; y]]) with
  | Some l => length l = 2%nat
  | None => True
  end.
Proof. now rewrite last_snoc. Qed.

Lemma feed_sheet_body (b : bool) (rows : list (string * string)) :
  forallb PerSampleSnakefile.plain_row rows = true ->
  forall ls,
    match last ls with
    | Some l => length l = 2%nat
    | None => True
    end ->
    feed tab b {| tok_state := START_RECORD true; tok_field := EmptyString;
                  tok_fields := []; tok_lines := ls |}
         (PerSampleSnakefile.sheet_body rows)
    = Ok {| tok_state := START_RECORD true; tok_field := EmptyString;
            tok_fields := [];
            tok_lines := ls ++ map (fun r => [fst r; snd r]) rows |}.
Proof.
  induction rows as [|r rows IH]; intros Hrows ls Hls.
  - cbn [PerSampleSnakefile.sheet_body feed map]. now rewrite app_nil_r.
  - cbn [forallb] in Hrows. apply andb_true_iff in Hrows as [Hr Hrows].
    cbn [PerSampleSnakefile.sheet_body map].
    rewrite (feed_sheet_line b true r ls _ Hr Hls).
    rewrite (IH Hrows _ (last_two ls (fst r) (snd r))).
    now rewrite <- app_assoc.
Qed.

(** The lines the tokenizer finds in a sheet of plain rows. *)
Lemma tokenize_sheet_text (rows : list (string * string)) :
  forallb PerSampleSnakefile.plain_row rows = true ->
  tokenize tab (PerSampleSnakefile.sheet_text rows)
  = Ok (["sample_name"; "path"] :: map (fun r => [fst r; snd r]) rows).
Proof.
  intros Hrows. unfold tokenize, tokenizer_start, PerSampleSnakefile.sheet_text.
  rewrite (feed_sheet_line _ true ("sample_name", "path") [] _ eq_refl I).
  cbn [fst snd app].
  rewrite (feed_sheet_body _ rows Hrows [["sample_name"; "path"]] eq_refl).
  reflexivity.
Qed.

(** The sheet written for plain rows reads back as those rows. *)
Lemma parse_sheet_text (rows : list (string * string)) :
  forallb PerSampleSnakefile.plain_row rows = true ->
  parse_csv tab "sample_name" (PerSampleSnakefile.sheet_text rows)
  = Ok {| index := map fst rows; columns := ["path"] |}.
Proof.
  intros Hrows. unfold parse_csv.
  rewrite (tokenize_sheet_text rows Hrows). cbn [bind].
  assert (Hh : negb (forallb nonblank ["sample_name"; "path"]
                     && distinct ["sample_name"; "path"]) = false)
    by reflexivity.
  rewrite Hh.
  assert (Hlen : forallb (fun r => Nat.eqb (length r)
                                     (length ["sample_name"; "path"]))
                   (map (fun r : string * string => [fst r; snd r]) rows)
                 = true).
  { apply forallb_forall. intros x [r [<- _]]%in_map_iff. reflexivity. }
  rewrite Hlen. cbn [negb].
  assert (Hi : index_of "sample_name" ["sample_name"; "path"] = Some O)
    by reflexivity.
  rewrite Hi.
  assert (Hlab : map (cell 0) (map (fun r : string * string => [fst r; snd r]) rows)
                 = map fst rows).
  { rewrite map_map. apply map_ext. intros r. reflexivity. }
  rewrite Hlab.
  assert (Htext : forallb text_label (map fst rows) = true).
  { apply forallb_forall. intros x [r [<- Hr]]%in_map_iff.
    rewrite forallb_forall in Hrows. specialize (Hrows r Hr).
    unfold PerSampleSnakefile.plain_row in Hrows.
    now apply andb_true_iff in Hrows as [[H _]%andb_true_iff _]. }
  rewrite Htext. reflexivity.
Qed.

Lemma parse_two_row_sheet (path_A path_B : string) :
  plain_field path_A = true -> plain_field path_B = true ->
  parse_csv tab "sample_name" (two_row_sheet path_A path_B)
  = Ok {| index := ["A"; "B"]; columns := ["path"] |}.
Proof.
  intros HA HB.
  change (two_row_sheet path_A path_B)
    with (PerSampleSnakefile.sheet_text [("A", path_A); ("B", path_B)]).
  rewrite parse_sheet_text; [reflexivity|].
  cbn [forallb]. unfold PerSampleSnakefile.plain_row. cbn [fst snd].
  rewrite HA, HB. reflexivity.
Qed.

(** C5, as amended.  With a configured sheet holding the rows (A, path_A)
    and (B, path_B) under the columns [sample_name] and [path], where the
    two paths are written as they are and hold no tab, no line feed and no
    carriage return and do not begin with a double quote, the Snakefile
    reads the sheet and nothing else, and the wildcard collection [wc] is
    A, B in sheet order. *)
Theorem two_row_sheet_wildcards (config data : value)
  (sheet_path path_A path_B : string) :
  getitem config "data" = Ok data ->
  getitem data "sample_sheet_path" = Ok (VStr sheet_path) ->
  sheet_path <> EmptyString ->
  files !! sheet_path = Some (two_row_sheet path_A path_B) ->
  plain_field path_A = true -> plain_field path_B = true ->
  resolve_samples read_sample files config
  = ([ReadCsv (VStr sheet_path)], Ok ["A"; "B"]).
Proof.
  intros Hd Hs Hne Hfile HA HB. unfold resolve_samples.
  rewrite (load_samples_sheet config data (VStr sheet_path) Hd Hs).
  - unfold read_csv. rewrite Hfile, parse_two_row_sheet by assumption.
    reflexivity.
  - simpl. apply negb_true_iff. now apply String.eqb_neq.
Qed.

End Resolution.

(** The shipped configuration with such a sheet at the configured path. *)
Lemma two_row_sheet_wildcards_shipped :
  resolve_samples (fun _ => Raise (Unmodelled "samples_auto.read_sample"))
    {[ "resources/sample_sheet.tsv" := two_row_sheet "path_A" "path_B" ]}
    config_yaml
  = ([ReadCsv (VStr "resources/sample_sheet.tsv")], Ok ["A"; "B"]).
Proof.
  apply (two_row_sheet_wildcards _ _ config_yaml (VDict shipped_data)
           "resources/sample_sheet.tsv" "path_A" "path_B").
  - reflexivity.
  - reflexivity.
  - discriminate.
  - vm_compute. reflexivity.
  - reflexivity.
  - reflexivity.
Defined.

(** Counterexample to C5 as stated: the sheet holds the rows (A, path_A)
    and (B, path_B), and the wildcards are not A, B.  A path that begins
    with a double quote opens a quoted field, which here runs on to the
    quote that ends path_B; a carriage return or a line feed inside a path
    ends the line; a tab inside path_B gives the line a third field. *)
Lemma two_row_sheet_needs_plain_paths :
  let resolve path_A path_B :=
    resolve_samples (fun _ => Raise (Unmodelled "samples_auto.read_sample"))
      {[ "resources/sample_sheet.tsv" := two_row_sheet path_A path_B ]}
      config_yaml in
  resolve (String quote "path_A") ("path_B" +:+ String quote EmptyString)
  = ([ReadCsv (VStr "resources/sample_sheet.tsv")], Ok ["A"]) /\
  resolve ("x" +:+ String carriage "y") "path_B"
  = ([ReadCsv (VStr "resources/sample_sheet.tsv")], Ok ["A"; "y"; "B"]) /\
  resolve ("x" +:+ String newline "y") "path_B"
  = ([ReadCsv (VStr "resources/sample_sheet.tsv")], Ok ["A"; "y"; "B"]) /\
  resolve "path_A" ("x" +:+ String tab "y")
  = ([ReadCsv (VStr "resources/sample_sheet.tsv")], Raise ParserError).
Proof. repeat split; vm_compute; reflexivity. Qed.

End SampleFacts.

(* ===================================================================== *)
(** * Feature augmentation *)
(* ===================================================================== *)

Module AnnotationFacts.
Import Py PyFacts Annotation.

Lemma mem_spec (x : string) (l : list string) : mem x l = true <-> x ∈ l.
Proof.
  unfold mem. rewrite existsb_exists. split.
  - intros (y & Hy & ->%String.eqb_eq). now apply list_elem_of_In.
  - intros H. exists x. split; [now apply list_elem_of_In|apply String.eqb_refl].
Qed.

Lemma mem_false (x : string) (l : list string) : mem x l = false <-> x ∉ l.
Proof.
  rewrite <- mem_spec. destruct (mem x l); split; congruence.
Qed.

Lemma has_dup_false (l : list string) : NoDup l -> has_dup l = false.
Proof.
  induction 1 as [|x l Hx _ IH]; simpl; [reflexivity|].
  rewrite IH, orb_false_r. now apply mem_false.
Qed.

Lemma filter_elem {A : Type} (f : A -> bool) (l : list A) (x : A) :
  x ∈ List.filter f l <-> x ∈ l /\ f x = true.
Proof. rewrite !list_elem_of_In. apply filter_In. Qed.

Lemma filter_NoDup {A : Type} (f : A -> bool) (l : list A) :
  NoDup l -> NoDup (List.filter f l).
Proof. rewrite !NoDup_ListNoDup. apply List.NoDup_filter. Qed.

Lemma rows_none (reference : list feature) (g : string) :
  g ∉ map gene_id reference ->
  List.filter (fun f => String.eqb (gene_id f) g) reference = [].
Proof.
  induction reference as [|f ref IH]; [reflexivity|]. cbn [map].
  intros [Hne H]%not_elem_of_cons. simpl.
  destruct (String.eqb_spec (gene_id f) g) as [E|_]; [congruence|]. auto.
Qed.

Lemma rows_unique (reference : list feature) (g : string) :
  NoDup (map gene_id reference) -> g ∈ map gene_id reference ->
  exists f, List.filter (fun f => String.eqb (gene_id f) g) reference = [f]
            /\ gene_id f = g.
Proof.
  induction reference as [|f0 ref IH]; cbn [map]; [intros _ H; inversion H|].
  intros [Hf0 Hnd]%NoDup_cons Hg. simpl.
  destruct (String.eqb_spec (gene_id f0) g) as [E|Hne].
  - exists f0. subst g. now rewrite rows_none.
  - apply elem_of_cons in Hg as [Hg|Hg]; [congruence|]. auto.
Qed.

Lemma loc_unique (reference : list feature) (labels : list string) :
  NoDup (map gene_id reference) ->
  (forall g, g ∈ labels -> g ∈ map gene_id reference) ->
  exists v, loc reference labels = Ok v /\ map gene_id v = labels.
Proof.
  intros Hnd. unfold loc.
  induction labels as [|g ls IH]; intros Hin; cbn [mapM bind].
  - exists []. auto.
  - destruct (rows_unique reference g Hnd) as (f & -> & Hf);
      [apply Hin, list_elem_of_here|].
    destruct IH as (v & Hv & Hids).
    { intros g' Hg'. now apply Hin, list_elem_of_further. }
    cbn [bind] in *.
    destruct (mapM _ ls) as [rows|e]; cbn [bind] in *; [|discriminate].
    injection Hv as <-. exists (f :: concat rows).
    split; [reflexivity|]. cbn [map]. now rewrite Hf, Hids.
Qed.

Section Facts.

Context {entry : Type}.
Variable zero : entry.

Lemma take_at_spec {A : Type} (pos : list nat) (l : list A) :
  (forall i, i ∈ pos -> (i < length l)%nat) ->
  exists r, take_at pos l = Ok r /\ length r = length pos /\
            forall j i, pos !! j = Some i -> r !! j = l !! i.
Proof.
  intros Hb. unfold take_at.
  destruct (mapM_exists (fun i => match l !! i with
                                  | Some x => Ok x
                                  | None => Raise IndexError
                                  end) pos) as [r Hr].
  { intros i Hi. destruct (lookup_lt_is_Some_2 l i (Hb i Hi)) as [x ->]. eauto. }
  exists r. split; [exact Hr|]. split; [now apply mapM_length in Hr|].
  intros j i Hj. destruct (mapM_lookup _ _ _ _ _ Hr Hj) as (b & -> & Hb').
  destruct (l !! i); [now injection Hb' as ->|discriminate].
Qed.

Lemma get_indexer_spec (idx labels : list string) :
  NoDup idx -> (forall g, g ∈ labels -> g ∈ idx) ->
  exists pos, get_indexer idx labels = Ok pos /\ length pos = length labels /\
    (forall i, i ∈ pos -> (i < length idx)%nat) /\
    (forall j g, labels !! j = Some g ->
                 exists i, pos !! j = Some i /\ index_of g idx = Some i).
Proof.
  intros Hnd Hin. unfold get_indexer. rewrite (has_dup_false idx Hnd).
  destruct (mapM_exists (fun g => match index_of g idx with
                                  | Some i => Ok i
                                  | None => Raise (KeyError g)
                                  end) labels) as [pos Hpos].
  { intros g Hg. destruct (index_of_elem g idx (Hin g Hg)) as [i ->]. eauto. }
  exists pos. split; [exact Hpos|]. split; [now apply mapM_length in Hpos|].
  assert (Hpt : forall j g, labels !! j = Some g ->
                  exists i, pos !! j = Some i /\ index_of g idx = Some i).
  { intros j g Hj. destruct (mapM_lookup _ _ _ _ _ Hpos Hj) as (i & Hi & Hg).
    exists i. split; [exact Hi|].
    destruct (index_of g idx); [now injection Hg as ->|discriminate]. }
  split; [|exact Hpt].
  intros i (j & Hj)%list_elem_of_lookup_1.
  assert (Hlt : (j < length labels)%nat).
  { apply mapM_length in Hpos. rewrite <- Hpos. now apply lookup_lt_Some in Hj. }
  destruct (lookup_lt_is_Some_2 labels j Hlt) as [g Hg].
  destruct (Hpt j g Hg) as (i' & Hi' & Hidx).
  assert (i' = i) by congruence. subst i'.
  apply index_of_lookup in Hidx. now apply lookup_lt_Some in Hidx.
Qed.

Lemma select_layers (pos : list nat) (n : nat) (ls : list (string * matrix entry)) :
  (forall i, i ∈ pos -> (i < n)%nat) ->
  Forall (fun kv => length (snd kv) = n) ls ->
  exists ls',
    mapM (fun kv => let* m := take_at pos (snd kv) in Ok (fst kv, m)) ls = Ok ls' /\
    forall k m, assoc k ls = Some m ->
      exists m', assoc k ls' = Some m' /\ length m' = length pos /\
                 forall j i, pos !! j = Some i -> m' !! j = m !! i.
Proof.
  intros Hb. induction 1 as [|[k0 m0] ls Hm0 Hls IH]; cbn [mapM].
  - exists []. split; [reflexivity|]. intros k m H. discriminate.
  - cbn [fst snd] in *.
    destruct (take_at_spec pos m0) as (r & -> & Hlen & Hr).
    { intros i Hi. rewrite Hm0. auto. }
    destruct IH as (ls' & -> & IH). cbn [bind].
    exists ((k0, r) :: ls'). split; [reflexivity|].
    intros k m. cbn [assoc]. destruct (String.eqb k0 k).
    + intros [= <-]. eauto.
    + apply IH.
Qed.

Lemma column_take (idx labels : list string) (pos : list nat)
  (m r : matrix entry) (g : string) :
  (forall j g, labels !! j = Some g ->
               exists i, pos !! j = Some i /\ index_of g idx = Some i) ->
  (forall j i, pos !! j = Some i -> r !! j = m !! i) ->
  g ∈ labels -> column labels r g = column idx m g.
Proof.
  intros Hpos Hr Hg. unfold column.
  destruct (index_of_elem g labels Hg) as [j Hj]. rewrite Hj.
  destruct (Hpos j g (index_of_lookup _ _ _ Hj)) as (i & Hi & ->). auto.
Qed.

(** Selecting features by label from a well-shaped object with distinct
    labels succeeds and returns, in the order asked for, the columns the
    labels name. *)
Lemma select_vars_spec (a : @anndata entry) (labels : list string) :
  NoDup (var_index a) -> (forall g, g ∈ labels -> g ∈ var_index a) ->
  well_shaped a ->
  exists out,
    select_vars a labels = Ok out /\
    n_obs out = n_obs a /\
    var_index out = labels /\
    length (X out) = length labels /\
    (forall g, g ∈ labels ->
               column labels (X out) g = column (var_index a) (X a) g) /\
    (forall k m, assoc k (layers a) = Some m ->
       exists m', assoc k (layers out) = Some m' /\
                  length m' = length labels /\
                  forall g, g ∈ labels ->
                            column labels m' g = column (var_index a) m g).
Proof.
  intros Hnd Hin [HX HL]. unfold select_vars.
  destruct (get_indexer_spec (var_index a) labels Hnd Hin)
    as (pos & -> & Hlen & Hb & Hpos). cbn [bind].
  assert (Hbv : forall i, i ∈ pos -> (i < length (var a))%nat).
  { intros i Hi. specialize (Hb i Hi). unfold var_index in Hb.
    now rewrite length_map in Hb. }
  destruct (take_at_spec pos (var a) Hbv) as (v & -> & Hlv & Hv). cbn [bind].
  destruct (take_at_spec pos (X a)) as (x & -> & Hlx & Hx).
  { intros i Hi. rewrite HX. auto. }
  cbn [bind].
  destruct (select_layers pos (length (var a)) (layers a) Hbv HL)
    as (ls & -> & Hls). cbn [bind].
  eexists. split; [reflexivity|]. cbn [n_obs var X layers var_index].
  split; [reflexivity|]. split; [|split; [congruence|split]].
  - apply list_eq. intros j. unfold var_index. cbn [var].
    change (map gene_id v) with (gene_id <$> v). rewrite list_lookup_fmap.
    destruct (labels !! j) as [g|] eqn:Hj.
    + destruct (Hpos j g Hj) as (i & Hi & Hidx).
      rewrite (Hv j i Hi). apply index_of_lookup in Hidx.
      unfold var_index in Hidx.
      change (map gene_id (var a)) with (gene_id <$> var a) in Hidx.
      now rewrite list_lookup_fmap in Hidx.
    + apply lookup_ge_None in Hj.
      rewrite (proj2 (lookup_ge_None v j)); [reflexivity|lia].
  - intros g Hg. now apply (column_take _ _ pos).
  - intros k m Hk. destruct (Hls k m Hk) as (m' & Hm' & Hlm & Hpt).
    exists m'. split; [exact Hm'|]. split; [congruence|].
    intros g Hg. now apply (column_take _ _ pos).
Qed.

Lemma assoc_elem {A : Type} (k : string) (l : list (string * A)) (x : A) :
  assoc k l = Some x -> (k, x) ∈ l.
Proof.
  induction l as [|[k0 x0] l IH]; cbn [assoc]; [discriminate|].
  destruct (String.eqb_spec k0 k) as [->|_].
  - intros [= ->]. apply list_elem_of_here.
  - intros H. apply list_elem_of_further. auto.
Qed.

(** The layers of the concatenation with the zero block: the counts with
    the zero columns appended. *)
Lemma concat_counts_layers (z : matrix entry) (n : nat)
  (ls : list (string * matrix entry)) :
  Forall (fun kv => length (snd kv) = n) ls ->
  let ls' :=
    flat_map (fun kv => match assoc (fst kv) [("counts", z)] with
                        | Some mb => [(fst kv, snd kv ++ mb)]
                        | None => []
                        end)
             (List.filter (fun kv => String.eqb (fst kv) "counts") ls) in
  Forall (fun kv => length (snd kv) = (n + length z)%nat) ls' /\
  forall c, assoc "counts" ls = Some c -> assoc "counts" ls' = Some (c ++ z).
Proof.
  induction 1 as [|[k m] ls Hm Hls IH]; cbn zeta.
  - split; [constructor|]. intros c H. discriminate.
  - cbn [List.filter fst snd assoc] in *.
    destruct (String.eqb_spec k "counts") as [->|Hne].
    + cbn [flat_map fst snd assoc app].
      change (String.eqb "counts" "counts") with true. cbn iota. cbn [app assoc].
      change (String.eqb "counts" "counts") with true. cbn iota. split.
      * constructor; [cbn [snd]; rewrite length_app; lia|apply IH].
      * intros c [= ->]. reflexivity.
    + exact IH.
Qed.

(** C3, as amended.  For a reference feature table with distinct gene ids
    and a well-shaped query with distinct gene ids and a counts layer, the
    augmentation succeeds and yields a dataset over the same cells whose
    features are exactly the reference's, in the reference's order; every
    reference feature the query lacks is an all-zero column in [X] and in
    the counts layer, and every other column is the query's counts
    column. *)
Theorem augment_reference_features (reference : list feature)
  (adata : @anndata entry) (c : matrix entry) :
  NoDup (map gene_id reference) ->
  NoDup (var_index adata) ->
  well_shaped adata ->
  assoc "counts" (layers adata) = Some c ->
  exists out counts,
    augment zero reference adata = Ok out /\
    n_obs out = n_obs adata /\
    var_index out = map gene_id reference /\
    length (var out) = length reference /\
    length (X out) = length reference /\
    assoc "counts" (layers out) = Some counts /\
    length counts = length reference /\
    (forall g, g ∈ map gene_id reference -> g ∉ var_index adata ->
       column (var_index out) (X out) g = Some (replicate (n_obs adata) zero) /\
       column (var_index out) counts g = Some (replicate (n_obs adata) zero)) /\
    (forall g, g ∈ map gene_id reference -> g ∈ var_index adata ->
       column (var_index out) (X out) g = column (var_index adata) c g /\
       column (var_index out) counts g = column (var_index adata) c g).
Proof.
  intros Hr Hq [HX HL] Hc.
  assert (Hlc : length c = length (var adata)).
  { apply assoc_elem in Hc. rewrite List.Forall_forall in HL.
    apply list_elem_of_In in Hc. exact (HL _ Hc). }
  unfold augment, counts_only. rewrite Hc. cbn [bind].
  set (a1 := {| n_obs := n_obs adata; var := var adata; X := c;
                layers := List.filter (fun kv => String.eqb (fst kv) "counts")
                                      (layers adata) |}).
  set (missing := missing_genes reference a1).
  assert (Hmiss : forall g, g ∈ missing <->
                            g ∈ map gene_id reference /\ g ∉ var_index adata).
  { intros g. unfold missing, missing_genes. rewrite filter_elem.
    rewrite negb_true_iff, mem_false. reflexivity. }
  destruct (loc_unique reference missing Hr) as (v & Hv & Hids).
  { intros g Hg. now apply Hmiss in Hg. }
  assert (Hlv : length v = length missing).
  { rewrite <- Hids. now rewrite length_map. }
  unfold missing_gene_adata. rewrite Hv. cbn [bind].
  rewrite Hlv, Nat.eqb_refl. cbn [bind].
  set (z := zeros zero (n_obs adata) (length missing)).
  set (extra := {| n_obs := n_obs adata; var := v; X := z;
                   layers := [("counts", z)] |}).
  assert (Hlz : length z = length missing) by apply length_replicate.
  assert (Hidx : var_index (concat_var a1 extra) = var_index adata ++ missing).
  { unfold var_index, concat_var, a1, extra. cbn [var]. rewrite map_app.
    now rewrite Hids. }
  destruct (concat_counts_layers z (length (var adata)) (layers adata) HL)
    as [HL' Hc'].
  destruct (select_vars_spec (concat_var a1 extra) (map gene_id reference))
    as (out & Hout & Hn & Hvi & HlX & HcolX & Hlay).
  { rewrite Hidx. apply NoDup_app. split; [exact Hq|]. split.
    - intros g Hg Hm. apply Hmiss in Hm. tauto.
    - unfold missing, missing_genes. now apply filter_NoDup. }
  { intros g Hg. rewrite Hidx, elem_of_app.
    destruct (mem g (var_index adata)) eqn:E.
    - left. now apply mem_spec.
    - right. apply Hmiss. split; [exact Hg|]. now apply mem_false. }
  { split.
    - unfold concat_var, a1, extra. cbn [X var]. rewrite !length_app. lia.
    - unfold concat_var, a1, extra. cbn [layers var].
      rewrite length_app, Hlv, <- Hlz.
      exact HL'. }
  destruct (Hlay "counts" (c ++ z)) as (counts & Hcounts & Hlcounts & Hcol).
  { unfold concat_var, a1, extra. cbn [layers]. now apply Hc'. }
  exists out, counts. rewrite Hout, Hvi.
  split; [reflexivity|]. split; [exact Hn|]. split; [reflexivity|].
  split.
  { unfold var_index in Hvi. apply (f_equal length) in Hvi.
    now rewrite !length_map in Hvi. }
  split; [now rewrite HlX, length_map|].
  split; [exact Hcounts|]. split; [now rewrite Hlcounts, length_map|].
  assert (Hzero : forall g, g ∈ map gene_id reference -> g ∉ var_index adata ->
            column (var_index adata ++ missing) (c ++ z) g
            = Some (replicate (n_obs adata) zero)).
  { intros g Hg Hnq. unfold column. rewrite index_of_app_r by exact Hnq.
    destruct (index_of_elem g missing) as [k Hk]; [now apply Hmiss|].
    rewrite Hk. cbn [option_map].
    assert (Hklt : (k < length missing)%nat).
    { apply index_of_lookup in Hk. now apply lookup_lt_Some in Hk. }
    unfold var_index. rewrite length_map, <- Hlc.
    rewrite lookup_app_r by lia.
    replace (length c + k - length c)%nat with k by lia.
    unfold z, zeros. now apply lookup_replicate_2. }
  assert (Hkeep : forall g, g ∈ var_index adata ->
            column (var_index adata ++ missing) (c ++ z) g
            = column (var_index adata) c g).
  { intros g Hgq. unfold column. rewrite index_of_app_l by exact Hgq.
    destruct (index_of g (var_index adata)) as [i|] eqn:Hi; [|reflexivity].
    apply index_of_lookup, lookup_lt_Some in Hi.
    unfold var_index in Hi. rewrite length_map, <- Hlc in Hi.
    now apply lookup_app_l. }
  split.
  - intros g Hg Hnq. rewrite (HcolX g Hg), (Hcol g Hg), Hidx.
    unfold concat_var, a1, extra. cbn [X]. split; now apply Hzero.
  - intros g Hg Hgq. rewrite (HcolX g Hg), (Hcol g Hg), Hidx.
    unfold concat_var, a1, extra. cbn [X]. split; now apply Hkeep.
Qed.

End Facts.

(** The theorem at work on a query of two cells that lacks one of three
    reference features. *)
Lemma augment_example_query :
  exists out counts,
    augment 0 example_reference example_query = Ok out /\
    var_index out = ["g1"; "g2"; "g3"] /\
    assoc "counts" (layers out) = Some counts /\
    column (var_index out) (X out) "g2" = Some [0; 0] /\
    column (var_index out) counts "g2" = Some [0; 0].
Proof.
  destruct (augment_reference_features 0 example_reference example_query
              [[1; 2]; [3; 4]; [5; 6]])
    as (out & counts & Hout & _ & Hidx & _ & _ & Hcounts & _ & Hzero & _).
  - apply NoDup_compute. vm_compute. reflexivity.
  - apply NoDup_compute. vm_compute. reflexivity.
  - split; [reflexivity|]. repeat constructor.
  - reflexivity.
  - exists out, counts. split; [exact Hout|]. split; [exact Hidx|].
    split; [exact Hcounts|]. apply Hzero.
    + compute_done.
    + compute_done.
Defined.

(** Counterexample to C3 as stated, for every reference and every query:
    a query that repeats a gene id, a reference that repeats a gene id the
    query lacks, and a query without [counts] layer each stop the
    augmentation. *)
Lemma augment_stops_outside_its_preconditions :
  augment 0 example_reference AnnotationReport.duplicated_query
  = Raise InvalidIndexError /\
  augment 0 AnnotationReport.repeated_reference example_query
  = Raise (ValueError "var must have as many rows as X has columns") /\
  augment 0 example_reference AnnotationReport.query_without_counts
  = Raise (KeyError "counts").
Proof. repeat split; vm_compute; reflexivity. Qed.

End AnnotationFacts.

(* ===================================================================== *)
(** * Merging the samples *)
(* ===================================================================== *)

Module MergeFacts.
Import Py PyFacts Merge.

(** The recorded outputs of the notebook: the first paths of the run and
    the treatments and weeks printed for them. *)
Lemma derive_recorded_run :
  derive
    ["/data/cephfs-1/work/groups/cubi/users/cemo10_c/scRNA/scRNA_preprocessing_pipeline/results/preprocessing/CE_SC_5FU_OnOff_3/annotation.h5ad";
     "/data/cephfs-1/work/groups/cubi/users/cemo10_c/scRNA/scRNA_preprocessing_pipeline/results/preprocessing/CE_SC_5FU_OnOff_2/annotation.h5ad";
     "/data/cephfs-1/work/groups/cubi/users/cemo10_c/scRNA/scRNA_preprocessing_pipeline/results/preprocessing/CE_SC_C_5/annotation.h5ad"]
  = Ok {| sample_ids := ["OnOff_3"; "OnOff_2"; "C_5"];
          sample_treatments := ["OnOff"; "OnOff"; "Control"];
          sample_weeks := ["3"; "2"; "5"] |}.
Proof. vm_compute. reflexivity. Qed.

Lemma dict_set_fresh {V : Type} (k : string) (v : V) (d : list (string * V)) :
  k ∉ map fst d -> dict_set k v d = d ++ [(k, v)].
Proof.
  induction d as [|[k' v'] d IH]; cbn [map fst dict_set]; [reflexivity|].
  intros [Hne H]%not_elem_of_cons.
  destruct (String.eqb_spec k' k) as [E|_]; [congruence|].
  now rewrite (IH H).
Qed.

Lemma dict_fold_fresh {V : Type} (items d : list (string * V)) :
  NoDup (map fst (d ++ items)) ->
  fold_left (fun d kv => dict_set (fst kv) (snd kv) d) items d = d ++ items.
Proof.
  revert d. induction items as [|[k v] items IH]; intros d Hnd; cbn [fold_left].
  - now rewrite app_nil_r.
  - cbn [fst snd]. rewrite dict_set_fresh.
    + rewrite IH; rewrite <- app_assoc; [reflexivity|exact Hnd].
    + rewrite map_app in Hnd. apply NoDup_app in Hnd as (_ & Hd & _).
      intros Hk. apply (Hd k Hk). cbn [map fst]. apply list_elem_of_here.
Qed.

(** A dictionary built from distinct keys keeps every item, in order. *)
Lemma dict_of_NoDup {V : Type} (items : list (string * V)) :
  NoDup (map fst items) -> dict_of items = items.
Proof. intros H. unfold dict_of. now rewrite dict_fold_fresh. Qed.

Lemma stripped_ids (paths : list string) :
  map (remove_all "5FU_") (map (remove_all "CE_SC_") (omap re_search_CE paths))
  = omap sample_id paths.
Proof.
  induction paths as [|p ps IH]; [reflexivity|].
  cbn [omap list_omap]. unfold sample_id at 1.
  destruct (re_search_CE p) as [m|]; cbn [option_map map]; [|exact IH].
  now rewrite IH.
Qed.

Lemma well_named_tokens (path : string) :
  well_named path = true ->
  exists name t0 t1 rest,
    sample_id path = Some name /\ tokens name = t0 :: t1 :: rest.
Proof.
  unfold well_named. destruct (sample_id path) as [name|]; [|discriminate].
  intros H. apply Nat.leb_le in H.
  destruct (tokens name) as [|t0 [|t1 rest]] eqn:E; simpl in H; try lia.
  eauto 10.
Qed.

(** On well-named paths the three lists line up with the paths. *)
Lemma derive_items (paths : list string) :
  forallb well_named paths = true ->
  exists l,
    derive paths = Ok l /\
    zip2 (sample_ids l) (zip3 paths (sample_treatments l) (sample_weeks l))
    = omap item_of paths /\
    map fst (omap item_of paths) = omap sample_id paths.
Proof.
  unfold derive. rewrite stripped_ids.
  induction paths as [|p ps IH]; intros Hw.
  - eexists. split; [reflexivity|]. split; reflexivity.
  - cbn [forallb] in Hw. apply andb_true_iff in Hw as [Hp Hps].
    destruct (well_named_tokens p Hp) as (name & t0 & t1 & rest & Hid & Htok).
    destruct (IH Hps) as (l & Hl & Hzip & Hkeys).
    assert (Hitem : item_of p
                    = Some (name, (p, control_if_C (first_token name), t1))).
    { unfold item_of. now rewrite Hid, Htok. }
    cbn [omap list_omap]. rewrite Hid, Hitem. cbn [map mapM].
    unfold second_token at 1. rewrite Htok. cbn [lookup list_lookup bind].
    destruct (mapM second_token (omap sample_id ps)) as [ws|e];
      cbn [bind] in *; [|discriminate].
    injection Hl as <-. cbn [sample_ids sample_treatments sample_weeks] in *.
    eexists. split; [reflexivity|].
    cbn [sample_ids sample_treatments sample_weeks zip2 zip3 map fst].
    rewrite Hzip, Hkeys. split; reflexivity.
Qed.

Section Merged.

Variable cell : Type.
Variable stored : gmap string (list cell).
Variable make_names_unique : list cell -> list cell.

Lemma load_items (paths : list string) :
  forallb well_named paths = true ->
  (forall p, p ∈ paths -> is_Some (stored !! p)) ->
  mapM (load_sample cell stored) (omap item_of paths)
  = Ok (map (annotated_cells cell stored) paths).
Proof.
  induction paths as [|p ps IH]; intros Hw Hst; [reflexivity|].
  cbn [forallb] in Hw. apply andb_true_iff in Hw as [Hp Hps].
  destruct (well_named_tokens p Hp) as (name & t0 & t1 & rest & Hid & Htok).
  destruct (Hst p) as [cells Hcells]; [apply list_elem_of_here|].
  cbn [omap list_omap map]. unfold item_of at 1. rewrite Hid, Htok.
  cbn [lookup list_lookup mapM]. rewrite IH; [|assumption|].
  - unfold load_sample, read_h5ad, annotated_cells.
    rewrite Hcells, Hid, Htok. unfold first_token. rewrite Htok. reflexivity.
  - intros p' Hp'. now apply Hst, list_elem_of_further.
Qed.

(** Making the row names unique leaves the labels where they are. *)
Lemma labels_survive (adata : list (merged_cell cell)) :
  (forall rows, length (make_names_unique rows) = length rows) ->
  map (labels cell) (obs_names_make_unique cell make_names_unique adata)
  = map (labels cell) adata.
Proof.
  intros Hlen. unfold obs_names_make_unique.
  specialize (Hlen (map (origin cell) adata)). rewrite length_map in Hlen.
  revert Hlen. generalize (make_names_unique (map (origin cell) adata)).
  induction adata as [|m adata IH]; intros [|c cs] H; cbn [length] in H;
    try discriminate; [reflexivity|].
  cbn [zip_with map]. f_equal. apply IH. now injection H.
Qed.

(** C7, as amended.  When the list of paths is not empty, every path
    names a sample with a treatment and a week token, the sample
    identifiers are distinct and the files exist, the merge yields, sample
    after sample, every cell of each file labelled with its sample
    identifier, the first token of the identifier as treatment ([C] read as
    [Control]) and the second token as week; what follows in the notebook
    renames rows and writes the dataset, and the labels written are the
    ones attached, cell by cell. *)
Theorem merge_annotates_every_cell (paths : list string) :
  paths <> [] ->
  forallb well_named paths = true ->
  NoDup (omap sample_id paths) ->
  (forall p, p ∈ paths -> is_Some (stored !! p)) ->
  (forall rows, length (make_names_unique rows) = length rows) ->
  merge cell stored paths = Ok (concat (map (annotated_cells cell stored) paths)) /\
  (forall p name t0 t1 rest cells c,
    p ∈ paths -> sample_id p = Some name -> tokens name = t0 :: t1 :: rest ->
    stored !! p = Some cells -> c ∈ cells ->
    {| origin := c; sample := name; treatment := control_if_C t0; week := t1 |}
    ∈ concat (map (annotated_cells cell stored) paths)) /\
  exists written,
    notebook cell stored make_names_unique paths = Ok (merged_h5ad, written) /\
    map (labels cell) written
    = map (labels cell) (concat (map (annotated_cells cell stored) paths)).
Proof.
  intros Hne Hw Hnd Hst Hlen.
  assert (Hmerge : merge cell stored paths
                   = Ok (concat (map (annotated_cells cell stored) paths))).
  { unfold merge. destruct (derive_items paths Hw) as (l & Hl & Hzip & Hkeys).
    rewrite Hl. cbn [bind]. rewrite Hzip.
    rewrite dict_of_NoDup by now rewrite Hkeys.
    rewrite load_items by assumption. cbn [bind].
    destruct paths; [congruence|reflexivity]. }
  split; [exact Hmerge|]. split.
  - intros p name t0 t1 rest cells c Hp Hid Htok Hcells Hc.
    apply list_elem_of_In, in_concat.
    exists (annotated_cells cell stored p). split.
    + apply in_map. now apply list_elem_of_In.
    + unfold annotated_cells. rewrite Hid, Hcells, Htok.
      apply in_map with (f := fun c => {| origin := c; sample := name;
                                          treatment := control_if_C t0;
                                          week := t1 |}).
      now apply list_elem_of_In.
  - unfold notebook. rewrite Hmerge. cbn [bind]. eexists.
    split; [reflexivity|]. apply labels_survive, Hlen.
Qed.

End Merged.

(** The theorem at work on two samples of the data set. *)
Lemma merge_two_samples :
  merge nat {[ "/d/CE_SC_5FU_OnOff_3/annotation.h5ad" := [1; 2]%nat;
               "/d/CE_SC_C_5/annotation.h5ad" := [3]%nat ]}
    ["/d/CE_SC_5FU_OnOff_3/annotation.h5ad"; "/d/CE_SC_C_5/annotation.h5ad"]
  = Ok [ {| origin := 1%nat; sample := "OnOff_3"; treatment := "OnOff"; week := "3" |};
         {| origin := 2%nat; sample := "OnOff_3"; treatment := "OnOff"; week := "3" |};
         {| origin := 3%nat; sample := "C_5"; treatment := "Control"; week := "5" |} ].
Proof.
  refine (eq_trans (proj1 (merge_annotates_every_cell nat _ (fun rows => rows)
                             _ _ _ _ _ _)) _).
  - discriminate.
  - reflexivity.
  - apply NoDup_compute. vm_compute. reflexivity.
  - intros p Hp.
    repeat (apply elem_of_cons in Hp as [->|Hp]; [vm_compute; eauto|]).
    inversion Hp.
  - reflexivity.
  - vm_compute. reflexivity.
Defined.

(** Counterexample to C7 as stated: a path whose identifier matches the
    pattern but has a single token after stripping; the week lookup raises
    [IndexError] and nothing is merged. *)
Lemma merge_single_token_raises :
  re_search_CE "/d/CE_SC_Pilot/annotation.h5ad" = Some "CE_SC_Pilot" /\
  derive ["/d/CE_SC_Pilot/annotation.h5ad"] = Raise IndexError /\
  merge nat {[ "/d/CE_SC_Pilot/annotation.h5ad" := [1; 2]%nat ]}
    ["/d/CE_SC_Pilot/annotation.h5ad"] = Raise IndexError.
Proof. repeat split; vm_compute; reflexivity. Qed.

(** With no sample at all there is nothing to concatenate: [ad.concat]
    raises and nothing is written. *)
Lemma merge_without_samples_raises :
  merge nat ∅ [] = Raise (ValueError "No objects to concatenate") /\
  notebook nat ∅ (fun rows => rows) []
  = Raise (ValueError "No objects to concatenate").
Proof. split; reflexivity. Qed.

(** When a path of the list has no identifier, the identifiers no longer
    line up with the paths: the cells of the unnamed file are labelled with
    the next sample's attributes. *)
Lemma merge_misaligned_paths :
  merge nat {[ "/d/foo/annotation.h5ad" := [1; 2]%nat;
               "/d/CE_SC_C_1/annotation.h5ad" := [3]%nat ]}
    ["/d/foo/annotation.h5ad"; "/d/CE_SC_C_1/annotation.h5ad"]
  = Ok [ {| origin := 1%nat; sample := "C_1"; treatment := "Control"; week := "1" |};
         {| origin := 2%nat; sample := "C_1"; treatment := "Control"; week := "1" |} ].
Proof. vm_compute. reflexivity. Qed.

(** When two paths give the same identifier, the later entry replaces the
    earlier one in the dictionary: the cells of the first file are left
    out. *)
Lemma merge_duplicate_ids :
  merge nat {[ "/d/CE_SC_C_1/annotation.h5ad" := [1; 2]%nat;
               "/e/CE_SC_C_1/annotation.h5ad" := [3]%nat ]}
    ["/d/CE_SC_C_1/annotation.h5ad"; "/e/CE_SC_C_1/annotation.h5ad"]
  = Ok [ {| origin := 3%nat; sample := "C_1"; treatment := "Control"; week := "1" |} ].
Proof. vm_compute. reflexivity. Qed.

End MergeFacts.

(* ===================================================================== *)
(** * Dimensionality reduction of the merged data *)
(* ===================================================================== *)

Module MergedDimReducFacts.
Import Py MergedDimReduc.

Lemma literal_is_truthy : truthy (VStr "globally_highly_variable") = true.
Proof. reflexivity. Qed.

Lemma gene_selection_calls (p : params) :
  exists rest,
    gene_selection_cell p
    = (pp_highly_variable_genes None
       :: print "Using globally highly variable genes" :: rest) /\
    Forall (fun c => is_highly_variable_genes c = false) rest.
Proof.
  unfold gene_selection_cell. rewrite literal_is_truthy.
  eexists. split; [reflexivity|].
  destruct (eq_str (cc_method p) "cc_genes_out");
    [|destruct (eq_str (cc_method p) "regress_out");
      [|destruct (eq_str (cc_method p) "cc_difference_regressed_out");
        [|destruct (eq_str (cc_method p) "None")]]];
    repeat constructor.
Qed.

(** C8.  The cells up to and including gene selection issue the same calls
    whatever [genes_for_pca] is, so they leave the same dataset, with the
    same [highly_variable] annotation, under any behaviour of the
    libraries; the condition of the first branch is a non-empty string
    literal, the global computation always runs, and the per-sample
    computation ([batch_key = "sample"]) is called nowhere in the
    notebook. *)
Theorem gene_selection_ignores_genes_for_pca (p : params) (g : value) :
  truthy (VStr "globally_highly_variable") = true /\
  setup_cells (with_genes_for_pca g p) ++ gene_selection_cell (with_genes_for_pca g p)
  = setup_cells p ++ gene_selection_cell p /\
  List.filter is_highly_variable_genes (notebook p) = [pp_highly_variable_genes None] /\
  (pp_highly_variable_genes (Some "sample") ∉ notebook p) /\
  forall (adata : Type) (exec : call -> adata -> adata) (a : adata),
    run adata exec
      (setup_cells (with_genes_for_pca g p)
       ++ gene_selection_cell (with_genes_for_pca g p)) a
    = run adata exec (setup_cells p ++ gene_selection_cell p) a.
Proof.
  assert (Hsame : setup_cells (with_genes_for_pca g p)
                  ++ gene_selection_cell (with_genes_for_pca g p)
                  = setup_cells p ++ gene_selection_cell p) by reflexivity.
  assert (Hfilter : List.filter is_highly_variable_genes (notebook p)
                    = [pp_highly_variable_genes None]).
  { unfold notebook. rewrite !List.filter_app.
    destruct (gene_selection_calls p) as (rest & -> & Hrest).
    replace (List.filter is_highly_variable_genes (setup_cells p)) with (@nil call)
      by (unfold setup_cells;
          destruct (truthy (scale_data_before_pca p)); reflexivity).
    cbn [List.filter is_highly_variable_genes embedding_cell app].
    f_equal. rewrite app_nil_r.
    induction Hrest as [|c rest Hc _ IH]; [reflexivity|].
    cbn [List.filter]. now rewrite Hc. }
  split; [reflexivity|]. split; [exact Hsame|]. split; [exact Hfilter|].
  split.
  - intros Hin.
    assert (H : pp_highly_variable_genes (Some "sample")
                ∈ List.filter is_highly_variable_genes (notebook p)).
    { apply list_elem_of_In, filter_In. split; [now apply list_elem_of_In|].
      reflexivity. }
    rewrite Hfilter in H. apply list_elem_of_singleton in H. discriminate.
  - intros adata exec a. now rewrite Hsame.
Qed.

(** C9.  The notebook calls the neighbor-graph computation once, without
    a neighbor count (the library's default applies) and with
    [umap_n_neighbors] as [n_pcs]; two runs that differ only in
    [umap_n_neighbors] issue the same calls except for that [n_pcs]. *)
Theorem umap_n_neighbors_is_passed_as_n_pcs (p : params) (n : value) :
  List.filter is_neighbors (notebook p)
  = [pp_neighbors None (Some (umap_n_neighbors p))] /\
  map forget_n_pcs (notebook (with_umap_n_neighbors n p))
  = map forget_n_pcs (notebook p).
Proof.
  split.
  - unfold notebook. rewrite !List.filter_app.
    replace (List.filter is_neighbors (setup_cells p)) with (@nil call)
      by (unfold setup_cells;
          destruct (truthy (scale_data_before_pca p)); reflexivity).
    replace (List.filter is_neighbors (gene_selection_cell p)) with (@nil call).
    + reflexivity.
    + unfold gene_selection_cell. rewrite literal_is_truthy.
      destruct (eq_str (cc_method p) "cc_genes_out");
        [|destruct (eq_str (cc_method p) "regress_out");
          [|destruct (eq_str (cc_method p) "cc_difference_regressed_out");
            [|destruct (eq_str (cc_method p) "None")]]];
        reflexivity.
  - unfold notebook. rewrite !map_app. reflexivity.
Qed.

End MergedDimReducFacts.

(* ===================================================================== *)
(** * The notebook stages and their artifact files *)
(* ===================================================================== *)

Module StagesFacts.
Import Py PyFacts Stages StagesRuns.

Lemma unhex_hex_byte (b : Byte.byte) : unhex_byte (hex_byte b) = Some b.
Proof. destruct b; vm_compute; reflexivity. Qed.

Lemma hex_byte_inj (b b' : Byte.byte) : hex_byte b = hex_byte b' -> b = b'.
Proof.
  intros H. apply (f_equal unhex_byte) in H.
  rewrite !unhex_hex_byte in H. now injection H.
Qed.

Lemma hex_length (bs : list Byte.byte) :
  String.length (hex bs) = (2 * length bs)%nat.
Proof.
  induction bs as [|b bs IH]; [reflexivity|].
  cbn [hex length]. rewrite append_length, IH. simpl. lia.
Qed.

Lemma hex_inj (bs bs' : list Byte.byte) : hex bs = hex bs' -> bs = bs'.
Proof.
  revert bs'. induction bs as [|b bs IH]; intros [|b' bs'] H.
  - reflexivity.
  - discriminate.
  - discriminate.
  - cbn [hex] in H. apply append_inv_length in H as [Hb Ht]; [|reflexivity].
    f_equal; [now apply hex_byte_inj|now apply IH].
Qed.

Lemma random_string_length (g : generator) :
  String.length (random_string g) = 20%nat.
Proof.
  unfold random_string. rewrite hex_length. unfold random_bytes.
  now rewrite length_map, length_seq.
Qed.

Lemma tmp_name_length (input_file : string) (g : generator) :
  String.length (tmp_name input_file g) = (String.length input_file + 29)%nat.
Proof.
  unfold tmp_name. rewrite !append_length, random_string_length. reflexivity.
Qed.

(** The temporary file is never the input file. *)
Lemma tmp_name_fresh (input_file : string) (g : generator) :
  tmp_name input_file g <> input_file.
Proof.
  intros H. apply (f_equal String.length) in H.
  rewrite tmp_name_length in H. lia.
Qed.

(** Two temporary names coincide only for the same input path and the same
    random bytes. *)
Lemma tmp_name_inj (i1 i2 : string) (g1 g2 : generator) :
  tmp_name i1 g1 = tmp_name i2 g2 ->
  i1 = i2 /\ random_bytes g1 10 = random_bytes g2 10.
Proof.
  intros H. pose proof (f_equal String.length H) as Hl.
  rewrite !tmp_name_length in Hl. unfold tmp_name in H.
  apply append_inv_length in H as [-> H]; [|lia].
  split; [reflexivity|]. apply append_inv_tail in H. now apply hex_inj.
Qed.

Section Files.

Variable artifact : Type.
Variable dim_reduction_assign : string -> artifact -> result artifact.
Variable dim_reduction_cells : string -> artifact -> result artifact.
Variable clustering_assign : string -> artifact -> result artifact.
Variable clustering_cells : string -> artifact -> result artifact.
Variable normalization_cells : string -> artifact -> result artifact.

#[local] Abbreviation assign :=
  (assign artifact dim_reduction_assign clustering_assign).
#[local] Abbreviation cells :=
  (cells artifact dim_reduction_cells clustering_cells normalization_cells).
#[local] Abbreviation stage_cells :=
  (stage_cells artifact dim_reduction_assign dim_reduction_cells
     clustering_assign clustering_cells normalization_cells).
#[local] Abbreviation notebook_ops :=
  (notebook_ops artifact dim_reduction_assign dim_reduction_cells
     clustering_assign clustering_cells normalization_cells).
#[local] Abbreviation run_notebook :=
  (run_notebook artifact dim_reduction_assign dim_reduction_cells
     clustering_assign clustering_cells normalization_cells).

(** A notebook looks at the store through its input path only. *)
Lemma notebook_reads_input_only (s : stage) (input_file layer : string)
  (g : generator) (st1 st2 : gmap string (file artifact)) :
  st1 !! input_file = st2 !! input_file ->
  notebook_ops s input_file layer g st1 = notebook_ops s input_file layer g st2.
Proof.
  intros H. unfold Stages.notebook_ops, read_h5ad. now rewrite H.
Qed.

(** The operations of a notebook on a complete input file. *)
Lemma notebook_ops_complete (s : stage) (input_file layer : string)
  (g : generator) (st : gmap string (file artifact)) (a : artifact) :
  st !! input_file = Some (Complete a) ->
  notebook_ops s input_file layer g st
  = match assign s with
    | None =>
        match cells s layer a with
        | Ok a' => (save s input_file g a', Ok tt)
        | Raise e => ([], Raise e)
        end
    | Some assign_X =>
        match assign_X layer a with
        | Raise e => ([], Raise e)
        | Ok backed =>
            match cells s layer backed with
            | Ok a' => (Write input_file backed :: save s input_file g a', Ok tt)
            | Raise e => ([Write input_file backed], Raise e)
            end
        end
    end.
Proof.
  intros Hin. unfold Stages.notebook_ops, read_h5ad. now rewrite Hin.
Qed.

(** The store a notebook leaves and how it ends, on a complete input
    file. *)
Lemma run_notebook_store (s : stage) (input_file layer : string) (g : generator)
  (st : gmap string (file artifact)) (a : artifact) :
  st !! input_file = Some (Complete a) ->
  run_notebook s input_file layer g st
  = match assign s with
    | None =>
        match cells s layer a with
        | Ok a' =>
            (<[input_file := Complete a']> (delete (tmp_name input_file g) st),
             Ok tt)
        | Raise e => (st, Raise e)
        end
    | Some assign_X =>
        match assign_X layer a with
        | Raise e => (st, Raise e)
        | Ok backed =>
            match cells s layer backed with
            | Ok a' => (<[input_file := Complete a']> st, Ok tt)
            | Raise e => (<[input_file := Complete backed]> st, Raise e)
            end
        end
    end.
Proof.
  intros Hin. unfold Stages.run_notebook.
  rewrite (notebook_ops_complete s input_file layer g st a Hin).
  destruct s; cbn [Stages.assign].
  - destruct (dim_reduction_assign layer a) as [x|e]; [|reflexivity].
    destruct (cells DimensionalityReduction layer x) as [a'|e];
      cbn [save run_ops run_op]; [|reflexivity].
    now rewrite insert_insert_eq.
  - destruct (clustering_assign layer a) as [x|e]; [|reflexivity].
    destruct (cells Clustering layer x) as [a'|e];
      cbn [save run_ops run_op]; [|reflexivity].
    now rewrite insert_insert_eq.
  - destruct (cells Normalization layer a) as [a'|e];
      cbn [save run_ops run_op]; [|reflexivity].
    rewrite lookup_insert_eq. cbn [run_ops]. now rewrite delete_insert_eq.
Qed.

(** C6, as amended.  Each stage reads the artifact at its input path and
    nothing else, and changes no path but the input path and, for the
    normalization, its temporary path.  When its cells run through, the
    updated artifact is left at the input path; the normalization stage has
    written it to the temporary path and renamed that onto the input path,
    and the temporary path is gone.  When a cell raises, the notebook ends
    with that error: the normalization stage has written nothing; a stage
    that opens its file backed has written nothing when the assignment to
    [X] raises, and leaves the file with the assigned [X] when a later cell
    raises. *)
Theorem stage_rewrites_its_input (s : stage) (input_file layer : string)
  (g : generator) (st : gmap string (file artifact)) (a : artifact) :
  st !! input_file = Some (Complete a) ->
  (forall st2, st2 !! input_file = st !! input_file ->
     notebook_ops s input_file layer g st2 = notebook_ops s input_file layer g st) /\
  (forall p, p ∈ written_paths (notebook_ops s input_file layer g st).1 ->
     p = input_file \/ (s = Normalization /\ p = tmp_name input_file g)) /\
  (forall p, p <> input_file -> p <> tmp_name input_file g ->
     (run_notebook s input_file layer g st).1 !! p = st !! p) /\
  (s <> Normalization ->
   forall p, p <> input_file ->
     (run_notebook s input_file layer g st).1 !! p = st !! p) /\
  (forall a', stage_cells s layer a = Ok a' ->
     (run_notebook s input_file layer g st).2 = Ok tt /\
     (run_notebook s input_file layer g st).1 !! input_file = Some (Complete a') /\
     (s = Normalization ->
      written_paths (notebook_ops s input_file layer g st).1
      = [tmp_name input_file g] /\
      (run_notebook s input_file layer g st).1 !! tmp_name input_file g = None)) /\
  (forall e, stage_cells s layer a = Raise e ->
     (run_notebook s input_file layer g st).2 = Raise e /\
     match assign s with
     | None => run_notebook s input_file layer g st = (st, Raise e)
     | Some assign_X =>
         match assign_X layer a with
         | Raise _ => run_notebook s input_file layer g st = (st, Raise e)
         | Ok backed =>
             (run_notebook s input_file layer g st).1
             = <[input_file := Complete backed]> st
         end
     end).
Proof.
  intros Hin.
  pose proof (notebook_ops_complete s input_file layer g st a Hin) as Hops.
  pose proof (run_notebook_store s input_file layer g st a Hin) as Hrun.
  split.
  { intros st2 H2. now apply notebook_reads_input_only. }
  rewrite Hops, Hrun. unfold Stages.stage_cells.
  destruct s; cbn [Stages.assign bind].
  - destruct (dim_reduction_assign layer a) as [x|e0]; cbn [bind].
    + destruct (cells DimensionalityReduction layer x) as [a'|e0];
        cbn [fst snd save written_paths flat_map app].
      * split.
        { intros p Hp. left.
          repeat (apply elem_of_cons in Hp as [->|Hp]; [reflexivity|]).
          inversion Hp. }
        split; [intros p Hp _; now apply lookup_insert_ne|].
        split; [intros _ p Hp; now apply lookup_insert_ne|].
        split.
        { intros a2 [= <-]. split; [reflexivity|].
          split; [apply lookup_insert_eq|discriminate]. }
        intros e. discriminate.
      * split.
        { intros p Hp. left.
          repeat (apply elem_of_cons in Hp as [->|Hp]; [reflexivity|]).
          inversion Hp. }
        split; [intros p Hp _; now apply lookup_insert_ne|].
        split; [intros _ p Hp; now apply lookup_insert_ne|].
        split; [intros a2; discriminate|].
        intros e [= <-]. split; reflexivity.
    + cbn [fst snd written_paths flat_map].
      split; [intros p Hp; inversion Hp|].
      split; [reflexivity|]. split; [reflexivity|].
      split; [intros a2; discriminate|].
      intros e [= <-]. split; reflexivity.
  - destruct (clustering_assign layer a) as [x|e0]; cbn [bind].
    + destruct (cells Clustering layer x) as [a'|e0];
        cbn [fst snd save written_paths flat_map app].
      * split.
        { intros p Hp. left.
          repeat (apply elem_of_cons in Hp as [->|Hp]; [reflexivity|]).
          inversion Hp. }
        split; [intros p Hp _; now apply lookup_insert_ne|].
        split; [intros _ p Hp; now apply lookup_insert_ne|].
        split.
        { intros a2 [= <-]. split; [reflexivity|].
          split; [apply lookup_insert_eq|discriminate]. }
        intros e. discriminate.
      * split.
        { intros p Hp. left.
          repeat (apply elem_of_cons in Hp as [->|Hp]; [reflexivity|]).
          inversion Hp. }
        split; [intros p Hp _; now apply lookup_insert_ne|].
        split; [intros _ p Hp; now apply lookup_insert_ne|].
        split; [intros a2; discriminate|].
        intros e [= <-]. split; reflexivity.
    + cbn [fst snd written_paths flat_map].
      split; [intros p Hp; inversion Hp|].
      split; [reflexivity|]. split; [reflexivity|].
      split; [intros a2; discriminate|].
      intros e [= <-]. split; reflexivity.
  - destruct (cells Normalization layer a) as [a'|e0];
      cbn [fst snd save written_paths flat_map app].
    + split.
      { intros p Hp. right. split; [reflexivity|].
        apply list_elem_of_singleton in Hp. exact Hp. }
      split.
      { intros p Hp Hq. rewrite lookup_insert_ne by congruence.
        apply lookup_delete_ne. congruence. }
      split; [congruence|]. split.
      { intros a2 [= <-]. split; [reflexivity|].
        split; [apply lookup_insert_eq|]. intros _. split; [reflexivity|].
        rewrite lookup_insert_ne by (apply not_eq_sym, tmp_name_fresh).
        apply lookup_delete_eq. }
      intros e. discriminate.
    + split; [intros p Hp; inversion Hp|].
      split; [reflexivity|]. split; [congruence|].
      split; [intros a2; discriminate|].
      intros e [= <-]. split; reflexivity.
Qed.

End Files.

Section Atomic.

Variable artifact : Type.
Variable input_file : string.
Variables g1 g2 : generator.
Variables a1 a2 : artifact.

Hypothesis distinct_bytes : random_bytes g1 10 <> random_bytes g2 10.

Lemma tmp_names_distinct : tmp_name input_file g1 <> tmp_name input_file g2.
Proof. intros H. now apply tmp_name_inj in H as [_ H]. Qed.

Lemma saving_frame (st st' : gmap string (file artifact)) (tmp : string)
  (a : artifact) (todo : list (action artifact)) :
  st' !! tmp = st !! tmp ->
  saving st tmp input_file a todo -> saving st' tmp input_file a todo.
Proof.
  intros E [H|[H|[[H1 H2]|H]]]; unfold saving; rewrite ?E; auto.
Qed.

(** One process moves, the other keeps its place. *)
Lemma saving_step (st st' : gmap string (file artifact)) (tmp other : string)
  (a b : artifact) (x : action artifact) (todo rest : list (action artifact)) :
  tmp <> input_file -> other <> input_file -> tmp <> other ->
  st !! input_file <> Some Partial ->
  saving st tmp input_file a (x :: todo) ->
  saving st other input_file b rest ->
  act artifact x st = Some st' ->
  st' !! input_file <> Some Partial /\
  saving st' tmp input_file a todo /\
  saving st' other input_file b rest.
Proof.
  intros Ht Ho Hne Hin [H|[H|[[H Htmp]|H]]] Hrest Hact; [| | |discriminate];
    injection H as -> ->; cbn [act] in Hact.
  - injection Hact as <-. split; [now rewrite lookup_insert_ne|]. split.
    + right. left. reflexivity.
    + apply (saving_frame st); [now apply lookup_insert_ne|exact Hrest].
  - injection Hact as <-. split; [now rewrite lookup_insert_ne|]. split.
    + right. right. left. split; [reflexivity|apply lookup_insert_eq].
    + apply (saving_frame st); [now apply lookup_insert_ne|exact Hrest].
  - rewrite Htmp in Hact. injection Hact as <-. split.
    + rewrite lookup_insert_eq. discriminate.
    + split; [right; right; right; reflexivity|].
      apply (saving_frame st); [|exact Hrest].
      rewrite lookup_insert_ne by congruence. now apply lookup_delete_ne.
Qed.

(** While two normalization notebooks save to the same input path, the
    input path never holds a partial file. *)
Lemma input_never_partial (st0 : gmap string (file artifact))
  (m : machine artifact) :
  st0 !! input_file <> Some Partial ->
  reachable (st0, normalization_save input_file g1 a1,
                  normalization_save input_file g2 a2) m ->
  m.1.1 !! input_file <> Some Partial /\
  saving m.1.1 (tmp_name input_file g1) input_file a1 m.1.2 /\
  saving m.1.1 (tmp_name input_file g2) input_file a2 m.2.
Proof.
  intros H0. induction 1 as [|m m' _ IH Hstep].
  - cbn [fst snd]. split; [exact H0|]. split; left; reflexivity.
  - destruct IH as (Hin & Hl & Hr).
    inversion Hstep as [x l r st st' Hact|x l r st st' Hact]; subst;
      cbn [fst snd] in *.
    + apply (saving_step st st' _ (tmp_name input_file g2) a1 a2 x l r);
        auto using tmp_name_fresh, tmp_names_distinct.
    + destruct (saving_step st st' (tmp_name input_file g2)
                  (tmp_name input_file g1) a2 a1 x r l) as (? & ? & ?);
        auto using tmp_name_fresh, not_eq_sym, tmp_names_distinct.
Qed.

Lemma settled_swap (st0 st : gmap string (file artifact)) (tmp1 tmp2 : string)
  (b1 b2 : artifact) (todo1 todo2 : list (action artifact)) :
  settled st0 st input_file tmp1 tmp2 b1 b2 todo1 todo2 ->
  settled st0 st input_file tmp2 tmp1 b2 b1 todo2 todo1.
Proof.
  intros (H1 & H2 & H3 & H4 & H5). unfold settled.
  split; [exact H2|]. split; [exact H1|]. split; [auto|]. split.
  - intros H. destruct H4 as [H4|H4]; [tauto|now right|now left].
  - intros p Hp Hp2 Hp1. now apply H5.
Qed.

(** One process takes a step, the other keeps its place. *)
Lemma settled_step (st0 st st' : gmap string (file artifact))
  (tmp other : string) (a b : artifact) (x : action artifact)
  (todo rest : list (action artifact)) :
  tmp <> input_file -> other <> input_file -> tmp <> other ->
  saving st tmp input_file a (x :: todo) ->
  settled st0 st input_file tmp other a b (x :: todo) rest ->
  act artifact x st = Some st' ->
  settled st0 st' input_file tmp other a b todo rest.
Proof.
  intros Ht Ho Hne [H|[H|[[H Htmp]|H]]] (H1 & H2 & H3 & H4 & H5) Hact;
    [| | |discriminate]; injection H as -> ->; cbn [act] in Hact.
  - injection Hact as <-. unfold settled.
    split; [discriminate|]. split.
    { intros Hr. rewrite lookup_insert_ne by congruence. auto. }
    split.
    { intros _ Hr. rewrite lookup_insert_ne by congruence.
      apply H3; [discriminate|exact Hr]. }
    split.
    { intros [Hl|Hr]; [discriminate|].
      rewrite lookup_insert_ne by congruence. auto. }
    intros p Hp Hp1 Hp2. rewrite lookup_insert_ne by congruence. auto.
  - injection Hact as <-. unfold settled.
    split; [discriminate|]. split.
    { intros Hr. rewrite lookup_insert_ne by congruence. auto. }
    split.
    { intros _ Hr. rewrite lookup_insert_ne by congruence.
      apply H3; [discriminate|exact Hr]. }
    split.
    { intros [Hl|Hr]; [discriminate|].
      rewrite lookup_insert_ne by congruence. auto. }
    intros p Hp Hp1 Hp2. rewrite lookup_insert_ne by congruence. auto.
  - rewrite Htmp in Hact. injection Hact as <-. unfold settled.
    split.
    { intros _. rewrite lookup_insert_ne by congruence. apply lookup_delete_eq. }
    split.
    { intros Hr. rewrite lookup_insert_ne by congruence.
      rewrite lookup_delete_ne by congruence. auto. }
    split; [congruence|]. split.
    { intros _. left. apply lookup_insert_eq. }
    intros p Hp Hp1 Hp2. rewrite lookup_insert_ne by congruence.
    rewrite lookup_delete_ne by congruence. auto.
Qed.

(** A process that is saving can always take its next step: the file it
    renames is there. *)
Lemma saving_can_step (st : gmap string (file artifact)) (tmp : string)
  (a : artifact) (x : action artifact) (todo : list (action artifact)) :
  saving st tmp input_file a (x :: todo) ->
  exists st', act artifact x st = Some st'.
Proof.
  intros [H|[H|[[H Htmp]|H]]]; [| | |discriminate]; injection H as -> ->;
    cbn [act]; [eauto|eauto|]. rewrite Htmp. eauto.
Qed.

Lemma reachable_settled (st0 : gmap string (file artifact))
  (m : machine artifact) :
  st0 !! input_file <> Some Partial ->
  reachable (st0, normalization_save input_file g1 a1,
                  normalization_save input_file g2 a2) m ->
  settled st0 m.1.1 input_file (tmp_name input_file g1) (tmp_name input_file g2)
    a1 a2 m.1.2 m.2.
Proof.
  intros H0 Hreach.
  pose proof tmp_names_distinct as Hne.
  induction Hreach as [|m m' Hreach IH Hstep].
  - cbn [fst snd]. unfold settled.
    split; [discriminate|]. split; [discriminate|]. split; [reflexivity|].
    split; [intros [H|H]; discriminate H|reflexivity].
  - destruct (input_never_partial st0 m H0 Hreach) as (_ & Hl & Hr).
    inversion Hstep as [x l r st st' Hact|x l r st st' Hact]; subst;
      cbn [fst snd] in *.
    + apply (settled_step st0 st st' _ _ a1 a2 x l r);
        auto using tmp_name_fresh.
    + apply settled_swap.
      apply (settled_step st0 st st' _ _ a2 a1 x r l);
        auto using tmp_name_fresh, not_eq_sym.
      now apply settled_swap.
Qed.

End Atomic.

(** C10.  The normalization notebook saves by writing the dataset to the
    input path extended with the 20 hex digits of 10 random bytes and
    [.tmp.h5ad], and renaming that file onto the input path: run alone, the
    save leaves the dataset at the input path and no temporary file.
    Whatever the interleaving of two such notebooks on one input path
    whose random bytes differ, the input path never holds a partial file:
    it is as at the start until one of the notebooks is done, and holds the
    complete dataset of one of them from then on; and two temporary names
    are equal only when input path and random bytes are. *)
Theorem normalization_saves_atomically (artifact : Type) (input_file : string)
  (g1 g2 : generator) (a1 a2 : artifact)
  (st0 : gmap string (file artifact)) (m : machine artifact) :
  random_bytes g1 10 <> random_bytes g2 10 ->
  st0 !! input_file <> Some Partial ->
  reachable (st0, normalization_save input_file g1 a1,
                  normalization_save input_file g2 a2) m ->
  normalization_save input_file g1 a1
  = [Truncate (input_file +:+ hex (random_bytes g1 10) +:+ ".tmp.h5ad");
     Fill (input_file +:+ hex (random_bytes g1 10) +:+ ".tmp.h5ad") a1;
     Move (input_file +:+ hex (random_bytes g1 10) +:+ ".tmp.h5ad") input_file] /\
  String.length (hex (random_bytes g1 10)) = 20%nat /\
  run_ops (save Normalization input_file g1 a1) st0
  = (<[input_file := Complete a1]> (delete (tmp_name input_file g1) st0), Ok tt) /\
  m.1.1 !! input_file <> Some Partial /\
  (m.1.2 <> [] -> m.2 <> [] -> m.1.1 !! input_file = st0 !! input_file) /\
  (m.1.2 = [] \/ m.2 = [] ->
   m.1.1 !! input_file = Some (Complete a1)
   \/ m.1.1 !! input_file = Some (Complete a2)) /\
  tmp_name input_file g1 <> tmp_name input_file g2 /\
  tmp_name input_file g1 <> input_file /\
  (forall i1 i2 h1 h2, tmp_name i1 h1 = tmp_name i2 h2 ->
                       i1 = i2 /\ random_bytes h1 10 = random_bytes h2 10).
Proof.
  intros Hd H0 Hreach.
  pose proof (reachable_settled artifact input_file g1 g2 a1 a2 Hd st0 m
                H0 Hreach) as (_ & _ & H3 & H4 & _).
  split; [reflexivity|]. split; [apply (random_string_length g1)|].
  split.
  { cbn [save run_ops run_op]. rewrite lookup_insert_eq. cbn [run_ops].
    now rewrite delete_insert_eq. }
  split; [now apply (input_never_partial artifact input_file g1 g2 a1 a2 Hd st0 m)|].
  split; [exact H3|]. split; [exact H4|].
  split; [now apply tmp_names_distinct|].
  split; [apply tmp_name_fresh|]. intros i1 i2 h1 h2. apply tmp_name_inj.
Qed.

(** The theorem at work: one notebook has saved while the other is in the
    middle of its write. *)
Lemma normalization_saves_atomically_example :
  exists st,
    reachable (one_sample_store,
               normalization_save "sample/quality_control.h5ad" zeros_generator 1%nat,
               normalization_save "sample/quality_control.h5ad" ones_generator 2%nat)
              (st, [],
               [Fill (tmp_name "sample/quality_control.h5ad" ones_generator) 2%nat;
                Move (tmp_name "sample/quality_control.h5ad" ones_generator)
                     "sample/quality_control.h5ad"]) /\
    st !! "sample/quality_control.h5ad" <> Some Partial /\
    (st !! "sample/quality_control.h5ad" = Some (Complete 1%nat)
     \/ st !! "sample/quality_control.h5ad" = Some (Complete 2%nat)).
Proof.
  set (input := "sample/quality_control.h5ad").
  set (t1 := tmp_name input zeros_generator).
  set (t2 := tmp_name input ones_generator).
  set (s1 := <[t1 := Partial]> one_sample_store).
  set (s2 := <[t1 := Complete 1%nat]> s1).
  set (s3 := <[t2 := Partial]> s2).
  set (s4 := <[input := Complete 1%nat]> (delete t1 s3)).
  assert (Hreach : reachable
            (one_sample_store, normalization_save input zeros_generator 1%nat,
             normalization_save input ones_generator 2%nat)
            (s4, [], [Fill t2 2%nat; Move t2 input])).
  { eapply reach_step; [eapply reach_step; [eapply reach_step;
      [eapply reach_step; [apply reach_refl|]|]|]|].
    - apply (step_left _ (Truncate t1) _ _ one_sample_store s1). reflexivity.
    - apply (step_left _ (Fill t1 1%nat) _ _ s1 s2). reflexivity.
    - apply (step_right _ (Truncate t2) _ _ s2 s3). reflexivity.
    - apply (step_left _ (Move t1 input) _ _ s3 s4). cbn [act].
      unfold s3, s2. rewrite lookup_insert_ne by (vm_compute; discriminate).
      now rewrite lookup_insert_eq. }
  exists s4. split; [exact Hreach|].
  destruct (normalization_saves_atomically nat input zeros_generator
              ones_generator 1%nat 2%nat one_sample_store
              (s4, [], [Fill t2 2%nat; Move t2 input]))
    as (_ & _ & _ & Hpartial & _ & Hdone & _).
  - intros H. vm_compute in H. discriminate H.
  - intros H. vm_compute in H. discriminate H.
  - exact Hreach.
  - split; [exact Hpartial|]. apply Hdone. now left.
Defined.

(** With the same random bytes the guarantee is lost: one notebook renames
    the file the other has just begun to rewrite. *)
Lemma same_bytes_break_atomicity :
  let input := "sample/quality_control.h5ad" in
  let tmp := tmp_name input zeros_generator in
  exists st todo,
    reachable (one_sample_store,
               normalization_save input zeros_generator 1%nat,
               normalization_save input zeros_generator 2%nat)
              (st, [], todo) /\
    st !! input = Some Partial.
Proof.
  intros input tmp.
  exists (<[input := Partial]>
            (delete tmp (<[tmp := Partial]>
               (<[tmp := Complete 1%nat]>
                  (<[tmp := Partial]> one_sample_store))))),
         [Fill tmp 2%nat; Move tmp input].
  split; [|apply lookup_insert_eq].
  eapply reach_step; [eapply reach_step; [eapply reach_step;
    [eapply reach_step; [apply reach_refl|]|]|]|].
  - apply step_left. reflexivity.
  - apply step_left. reflexivity.
  - apply step_right. reflexivity.
  - apply step_left. cbn [act]. now rewrite lookup_insert_eq.
Qed.

(** The theorem at work on the three stages: normalization, and a
    clustering notebook whose layer is missing. *)
Lemma normalization_stage_example :
  (run_notebook nat finding_assign counting_cells finding_assign counting_cells
     counting_cells Normalization "sample/quality_control.h5ad" "soupX_counts"
     zeros_generator one_sample_store).1 !! "sample/quality_control.h5ad"
  = Some (Complete 1%nat) /\
  run_notebook nat finding_assign counting_cells missing_layer counting_cells
    counting_cells Clustering "sample/quality_control.h5ad" "soupX_counts"
    zeros_generator one_sample_store
  = (one_sample_store, Raise (KeyError "soupX_counts")).
Proof.
  split.
  - destruct (stage_rewrites_its_input nat finding_assign counting_cells
                finding_assign counting_cells counting_cells Normalization
                "sample/quality_control.h5ad" "soupX_counts" zeros_generator
                one_sample_store 0%nat)
      as (_ & _ & _ & _ & Hok & _); [vm_compute; reflexivity|].
    now destruct (Hok 1%nat eq_refl) as (_ & Hin & _).
  - destruct (stage_rewrites_its_input nat finding_assign counting_cells
                missing_layer counting_cells counting_cells Clustering
                "sample/quality_control.h5ad" "soupX_counts" zeros_generator
                one_sample_store 0%nat)
      as (_ & _ & _ & _ & _ & Hfail); [vm_compute; reflexivity|].
    now destruct (Hfail (KeyError "soupX_counts") eq_refl) as (_ & Hrun).
Defined.

(** Counterexample to C6 as stated: the normalization stage writes to a
    path that is not its input path. *)
Lemma normalization_writes_another_path :
  exists ops,
    notebook_ops nat finding_assign counting_cells finding_assign counting_cells
      counting_cells Normalization "sample/quality_control.h5ad" "soupX_counts"
      zeros_generator one_sample_store = (ops, Ok tt) /\
    written_paths ops
    = ["sample/quality_control.h5ad00000000000000000000.tmp.h5ad"] /\
    ~ (forall p, p ∈ written_paths ops -> p = "sample/quality_control.h5ad").
Proof.
  eexists. split; [vm_compute; reflexivity|]. split; [reflexivity|].
  intros H.
  specialize (H "sample/quality_control.h5ad00000000000000000000.tmp.h5ad").
  discriminate H. apply list_elem_of_here.
Qed.

End StagesFacts.

(* ===================================================================== *)
(** * Re-invoking the top-level target *)
(* ===================================================================== *)

Module SchedulerFacts.
Import Py Scheduler.

Lemma touch_lookup (now : nat) (st : gmap string nat) (paths : list string)
  (p : string) :
  touch now st paths !! p
  = if bool_decide (p ∈ paths) then Some now else st !! p.
Proof.
  induction paths as [|a paths IH]; cbn [touch foldr].
  - now rewrite bool_decide_eq_false_2 by apply not_elem_of_nil.
  - destruct (decide (p = a)) as [->|Hne].
    + rewrite lookup_insert_eq.
      now rewrite bool_decide_eq_true_2 by apply list_elem_of_here.
    + rewrite lookup_insert_ne by congruence. fold (touch now st paths).
      rewrite IH. destruct (decide (p ∈ paths)) as [Hin|Hout].
      * rewrite !bool_decide_eq_true_2; [reflexivity| |assumption].
        now apply list_elem_of_further.
      * rewrite !bool_decide_eq_false_2; [reflexivity| |assumption].
        intros [?|?]%elem_of_cons; contradiction.
Qed.

Lemma forallb_ext_elem {A : Type} (f g : A -> bool) (l : list A) :
  (forall x, x ∈ l -> f x = g x) -> forallb f l = forallb g l.
Proof.
  induction l as [|a l IH]; intros H; [reflexivity|]. cbn [forallb].
  rewrite (H a) by apply list_elem_of_here. f_equal.
  apply IH. intros x Hx. now apply H, list_elem_of_further.
Qed.

(** Whether a task is satisfied depends on its own inputs and outputs
    only. *)
Lemma satisfied_ext (st1 st2 : gmap string nat) (t : task) :
  (forall p, p ∈ inputs t ++ outputs t -> st1 !! p = st2 !! p) ->
  satisfied st1 t = satisfied st2 t.
Proof.
  intros H. unfold satisfied. apply forallb_ext_elem. intros o Ho.
  rewrite (H o) by (apply elem_of_app; now right).
  destruct (st2 !! o) as [mo|]; [|reflexivity].
  apply forallb_ext_elem. intros i Hi.
  unfold newer_than. now rewrite (H i) by (apply elem_of_app; now left).
Qed.

(** A task that has just been executed is satisfied. *)
Lemma satisfied_after_touch (st : gmap string nat) (now : nat) (t : task) :
  ahead st now -> eligible st t = true ->
  forallb (fun o => bool_decide (o ∉ inputs t)) (outputs t) = true ->
  satisfied (touch now st (outputs t)) t = true.
Proof.
  intros Hahead Hel Hself. unfold satisfied. apply forallb_forall.
  intros o Ho. apply list_elem_of_In in Ho. rewrite touch_lookup.
  rewrite bool_decide_eq_true_2 by exact Ho.
  apply forallb_forall. intros i Hi. apply list_elem_of_In in Hi.
  unfold newer_than. rewrite touch_lookup.
  rewrite bool_decide_eq_false_2.
  - unfold eligible in Hel.
    pose proof (proj1 (forallb_forall _ _) Hel i
                  (proj1 (list_elem_of_In _ _) Hi)) as Hi'.
    apply bool_decide_eq_true_1 in Hi'. destruct Hi' as [m Hm].
    rewrite Hm. apply Nat.ltb_lt. exact (Hahead i m Hm).
  - intros Hio.
    pose proof (proj1 (forallb_forall _ _) Hself i
                  (proj1 (list_elem_of_In _ _) Hio)) as Hn.
    apply bool_decide_eq_true_1 in Hn. contradiction.
Qed.

Lemma ahead_touch (st : gmap string nat) (now : nat) (paths : list string) :
  ahead st now -> ahead (touch now st paths) (S now).
Proof.
  intros H p m. rewrite touch_lookup.
  destruct (bool_decide (p ∈ paths)).
  - intros [= <-]. cbn. lia.
  - intros Hm. specialize (H p m Hm). cbn in *. lia.
Qed.

Section Run.

Variable fails : task -> bool.

#[local] Abbreviation run_task := (run_task fails).

(** A turn that leaves nothing failed or held has skipped a satisfied
    task or executed an eligible one. *)
Lemma run_task_quiet (r : progress) (t : task) :
  failed (run_task r t) = [] -> held (run_task r t) = [] ->
  failed r = [] /\ held r = [] /\
  ((satisfied (storage r) t = true /\ run_task r t = r)
   \/ (eligible (storage r) t = true /\
       run_task r t
       = {| storage := touch (clock r) (storage r) (outputs t);
            clock := S (clock r); executed := executed r ++ [t];
            failed := failed r; held := held r |})).
Proof.
  unfold Scheduler.run_task.
  destruct (existsb (depends_on t) (failed r ++ held r)).
  { cbn [failed held]. intros _ H. now destruct (held r). }
  destruct (satisfied (storage r) t) eqn:Hsat; [now auto|].
  destruct (eligible (storage r) t) eqn:Hel; cbn [negb].
  2:{ cbn [failed held]. intros _ H. now destruct (held r). }
  destruct (fails t).
  { cbn [failed held]. intros H _. now destruct (failed r). }
  cbn [failed held]. intros Hf Hh. split; [exact Hf|]. split; [exact Hh|].
  now right.
Qed.

Lemma run_tasks_quiet (ts : list task) (r : progress) :
  failed (fold_left run_task ts r) = [] ->
  held (fold_left run_task ts r) = [] ->
  failed r = [] /\ held r = [].
Proof.
  revert r. induction ts as [|t ts IH]; intros r Hf Hh; [now split|].
  cbn [fold_left] in Hf, Hh. destruct (IH _ Hf Hh) as [Hf1 Hh1].
  destruct (run_task_quiet r t Hf1 Hh1) as (? & ? & _). now split.
Qed.

(** A turn writes nothing but the outputs of its task. *)
Lemma run_task_frame (r : progress) (t : task) (p : string) :
  p ∉ outputs t -> storage (run_task r t) !! p = storage r !! p.
Proof.
  intros Hp. unfold Scheduler.run_task.
  repeat match goal with
         | |- context [if ?b then _ else _] => destruct b
         end; cbn [storage]; try reflexivity.
  rewrite touch_lookup. now rewrite bool_decide_eq_false_2.
Qed.

Lemma run_tasks_frame (ts : list task) (r : progress) (p : string) :
  (forall u, u ∈ ts -> p ∉ outputs u) ->
  storage (fold_left run_task ts r) !! p = storage r !! p.
Proof.
  revert r. induction ts as [|t ts IH]; intros r H; [reflexivity|].
  cbn [fold_left]. rewrite IH.
  - apply run_task_frame, H, list_elem_of_here.
  - intros u Hu. now apply H, list_elem_of_further.
Qed.

Lemma run_task_ahead (r : progress) (t : task) :
  ahead (storage r) (clock r) ->
  ahead (storage (run_task r t)) (clock (run_task r t)).
Proof.
  intros H. unfold Scheduler.run_task.
  repeat match goal with
         | |- context [if ?b then _ else _] => destruct b
         end; cbn [storage clock]; try assumption.
  now apply ahead_touch.
Qed.

(** With every task satisfied, an invocation under way changes nothing. *)
Lemma run_tasks_satisfied (ts : list task) (r : progress) :
  failed r = [] -> held r = [] ->
  (forall t, t ∈ ts -> satisfied (storage r) t = true) ->
  fold_left run_task ts r = r.
Proof.
  intros Hf Hh. induction ts as [|t ts IH]; intros H; [reflexivity|].
  cbn [fold_left].
  assert (E : run_task r t = r).
  { unfold Scheduler.run_task. rewrite Hf, Hh. cbn [app existsb].
    now rewrite (H t) by apply list_elem_of_here. }
  rewrite E. apply IH. intros u Hu. now apply H, list_elem_of_further.
Qed.

(** After an invocation in which nothing failed and nothing was held,
    every task that had its turn is satisfied. *)
Lemma run_tasks_complete (ts : list task) (r : progress) :
  ordered ts = true -> ahead (storage r) (clock r) ->
  failed (fold_left run_task ts r) = [] ->
  held (fold_left run_task ts r) = [] ->
  forall t, t ∈ ts -> satisfied (storage (fold_left run_task ts r)) t = true.
Proof.
  revert r. induction ts as [|t ts IH]; intros r Hord Hahead Hf Hh u Hu;
    [inversion Hu|].
  cbn [ordered] in Hord.
  apply andb_true_iff in Hord as [[Hself Hlater]%andb_true_iff Hrest].
  cbn [fold_left] in *.
  apply elem_of_cons in Hu as [->|Hu].
  2:{ apply (IH (run_task r t)); try assumption. now apply run_task_ahead. }
  destruct (run_tasks_quiet ts _ Hf Hh) as [Hf1 Hh1].
  destruct (run_task_quiet r t Hf1 Hh1) as (_ & _ & Hcase).
  assert (Hnow : satisfied (storage (run_task r t)) t = true).
  { destruct Hcase as [[Hsat ->]|[Hel ->]]; [exact Hsat|]. cbn [storage].
    now apply satisfied_after_touch. }
  rewrite <- Hnow. apply satisfied_ext. intros p Hp.
  apply run_tasks_frame. intros v Hv Hpv.
  pose proof (proj1 (forallb_forall _ _) Hlater v
                (proj1 (list_elem_of_In _ _) Hv)) as Hv'.
  pose proof (proj1 (forallb_forall _ _) Hv' p
                (proj1 (list_elem_of_In _ _) Hpv)) as Hp'.
  apply bool_decide_eq_true_1 in Hp'. contradiction.
Qed.

(** An invocation that executes nothing writes nothing. *)
Lemma run_tasks_idle (ts : list task) (r : progress) :
  exists l,
    executed (fold_left run_task ts r) = executed r ++ l /\
    (l = [] -> storage (fold_left run_task ts r) = storage r).
Proof.
  revert r. induction ts as [|t ts IH]; intros r.
  - exists []. split; [now rewrite app_nil_r|reflexivity].
  - cbn [fold_left]. destruct (IH (run_task r t)) as (l & Hl & Hst).
    rewrite Hl. unfold Scheduler.run_task in *.
    repeat match goal with
           | |- context [if ?b then _ else _] => destruct b
           end; cbn [executed storage] in *;
      try (exists l; split; [reflexivity|exact Hst]).
    exists (t :: l). split; [now rewrite <- app_assoc|discriminate].
Qed.

Lemma needed_listed (tasks : list task) (depth : nat) (requested : list string)
  (t : task) :
  t ∈ needed tasks depth requested -> t ∈ tasks.
Proof.
  revert requested. induction depth as [|d IH]; intros requested Ht;
    [inversion Ht|].
  cbn [needed] in Ht.
  apply list_elem_of_In, in_flat_map in Ht as (p & _ & Ht).
  apply in_flat_map in Ht as (u & [Hu _]%filter_In & Ht).
  apply in_app_or in Ht as [Ht|[<-|[]]]; [|now apply list_elem_of_In].
  apply (IH (inputs u)). now apply list_elem_of_In.
Qed.

Lemma ordered_filter (f : task -> bool) (ts : list task) :
  ordered ts = true -> ordered (List.filter f ts) = true.
Proof.
  induction ts as [|t ts IH]; [reflexivity|]. cbn [ordered List.filter].
  intros [[Hself Hlater]%andb_true_iff Hrest]%andb_true_iff.
  destruct (f t); [|now apply IH]. cbn [ordered].
  rewrite Hself, (IH Hrest), andb_true_r. cbn [andb].
  apply forallb_forall. intros u [Hu _]%filter_In.
  exact (proj1 (forallb_forall _ _) Hlater u Hu).
Qed.

(** C4, as amended.  When every task the inputs of rule [all] need (the
    tasks producing the subset artifact and the checkpoint files and, from
    task to task, the tasks producing their inputs) has its outputs on
    storage and newer than its inputs, invoking the top-level target
    executes no task and leaves storage as it is.  That is where a complete
    invocation leaves a rule graph listed in dependency order, with a clock
    ahead of every file time: after an invocation in which no task failed
    and none was held back, every needed task is satisfied and a second
    invocation executes no task.  An invocation that meets a needed task
    that is not satisfied does not pass it by: it executes a task, or a task
    fails or is held back. *)
Theorem reinvoking_when_complete_runs_nothing (str_opaque : value -> string)
  (config : value) (tasks : list task) (st : gmap string nat) (now : nat)
  (targets : list string) :
  Snakefile.rule_all_input str_opaque config = Ok targets ->
  ((forall t, t ∈ needed tasks (length tasks) targets -> satisfied st t = true) ->
   invoke_all fails str_opaque config tasks st now
   = Ok {| storage := st; clock := now; executed := [];
           failed := []; held := [] |}) /\
  (forall first,
     invoke_all fails str_opaque config tasks st now = Ok first ->
     ordered tasks = true -> ahead st now ->
     (failed first = [] -> held first = [] ->
      (forall t, t ∈ needed tasks (length tasks) targets ->
                 satisfied (storage first) t = true) /\
      invoke_all fails str_opaque config tasks (storage first) (clock first)
      = Ok {| storage := storage first; clock := clock first; executed := [];
              failed := []; held := [] |}) /\
     ((exists t, t ∈ needed tasks (length tasks) targets /\
                 satisfied st t = false) ->
      executed first <> [] \/ failed first <> [] \/ held first <> [])).
Proof.
  intros Htargets. unfold invoke_all. rewrite Htargets. cbn [bind].
  assert (Hquiet : forall st' now',
             (forall t, t ∈ needed tasks (length tasks) targets ->
                        satisfied st' t = true) ->
             invoke fails tasks st' now' targets
             = {| storage := st'; clock := now'; executed := [];
                  failed := []; held := [] |}).
  { intros st' now' Hsat. unfold invoke.
    apply run_tasks_satisfied; [reflexivity|reflexivity|].
    intros t Ht. cbn [storage]. apply Hsat.
    apply list_elem_of_In, filter_In in Ht as [_ Ht].
    now apply bool_decide_eq_true_1 in Ht. }
  split.
  - intros Hsat. now rewrite Hquiet.
  - intros first [= <-] Hord Hahead.
    assert (Hdone : failed (invoke fails tasks st now targets) = [] ->
                    held (invoke fails tasks st now targets) = [] ->
                    forall t, t ∈ needed tasks (length tasks) targets ->
                      satisfied (storage (invoke fails tasks st now targets)) t
                      = true).
    { intros Hf Hh t Ht. unfold invoke in *.
      apply run_tasks_complete; try assumption.
      - now apply ordered_filter.
      - apply list_elem_of_In, filter_In. split.
        + apply list_elem_of_In. exact (needed_listed _ _ _ _ Ht).
        + now apply bool_decide_eq_true_2. }
    split.
    + intros Hf Hh. split; [now apply Hdone|].
      rewrite Hquiet; [reflexivity|]. now apply Hdone.
    + intros (t & Ht & Hstale).
      destruct (executed (invoke fails tasks st now targets)) as [|x l] eqn:He;
        [|left; discriminate].
      destruct (failed (invoke fails tasks st now targets)) as [|y lf] eqn:Hf;
        [|right; left; discriminate].
      destruct (held (invoke fails tasks st now targets)) as [|z lh] eqn:Hh;
        [|right; right; discriminate].
      exfalso. specialize (Hdone eq_refl eq_refl t Ht).
      unfold invoke in He, Hdone.
      destruct (run_tasks_idle
                  (List.filter (fun t => bool_decide
                                  (t ∈ needed tasks (length tasks) targets)) tasks)
                  {| storage := st; clock := now; executed := [];
                     failed := []; held := [] |}) as (l & Hl & Hst).
      rewrite He in Hl. cbn [executed app] in Hl. subst l.
      rewrite (Hst eq_refl) in Hdone. cbn [storage] in Hdone. congruence.
Qed.

End Run.

Lemma ahead_example (sample_time now : nat) (checkpoints : list string) :
  (sample_time < now)%nat -> (3 < now)%nat ->
  ahead (example_storage sample_time checkpoints) now.
Proof.
  intros H1 H2. unfold ahead, example_storage.
  repeat (apply map_Forall_insert_2; [lia|]).
  intros p m Hm. apply elem_of_list_to_map_2 in Hm.
  apply list_elem_of_fmap in Hm as (c & [= _ ->] & _). exact H2.
Qed.

(** The theorem at work on the scenario configuration and an illustrative
    rule graph: with every task satisfied nothing is executed; from a
    storage on which the sample's file is the newest, the first invocation
    executes all six tasks and the second none. *)
Lemma reinvoking_scenario_runs_nothing :
  invoke_all no_failure Snakefile.str_unused Snakefile.scenario_config
    (example_tasks scenario_checkpoints)
    (example_storage 0 scenario_checkpoints) 4
  = Ok {| storage := example_storage 0 scenario_checkpoints; clock := 4%nat;
          executed := []; failed := []; held := [] |} /\
  exists first,
    invoke_all no_failure Snakefile.str_unused Snakefile.scenario_config
      (example_tasks scenario_checkpoints)
      (example_storage 5 scenario_checkpoints) 6 = Ok first /\
    executed first = example_tasks scenario_checkpoints /\
    invoke_all no_failure Snakefile.str_unused Snakefile.scenario_config
      (example_tasks scenario_checkpoints) (storage first) (clock first)
    = Ok {| storage := storage first; clock := clock first; executed := [];
            failed := []; held := [] |}.
Proof.
  destruct (Snakefile.rule_all_input Snakefile.str_unused
              Snakefile.scenario_config) as [targets|e] eqn:Htargets;
    [|vm_compute in Htargets; discriminate Htargets].
  split.
  - apply (proj1 (reinvoking_when_complete_runs_nothing no_failure
                    Snakefile.str_unused Snakefile.scenario_config
                    (example_tasks scenario_checkpoints)
                    (example_storage 0 scenario_checkpoints) 4%nat targets
                    Htargets)).
    vm_compute in Htargets. injection Htargets as <-.
    intros t Ht. vm_compute in Ht.
    repeat (apply elem_of_cons in Ht as [->|Ht]; [vm_compute; reflexivity|]).
    inversion Ht.
  - destruct (invoke_all no_failure Snakefile.str_unused
                Snakefile.scenario_config (example_tasks scenario_checkpoints)
                (example_storage 5 scenario_checkpoints) 6)
      as [first|e] eqn:Hfirst; [|vm_compute in Hfirst; discriminate Hfirst].
    exists first. split; [reflexivity|].
    assert (Hexec : executed first = example_tasks scenario_checkpoints
                    /\ failed first = [] /\ held first = []).
    { unfold invoke_all in Hfirst. rewrite Htargets in Hfirst.
      cbn [bind] in Hfirst. injection Hfirst as <-.
      vm_compute in Htargets. injection Htargets as <-.
      repeat split; vm_compute; reflexivity. }
    destruct Hexec as (He & Hf & Hh). split; [exact He|].
    destruct (proj2 (reinvoking_when_complete_runs_nothing no_failure
                       Snakefile.str_unused Snakefile.scenario_config
                       (example_tasks scenario_checkpoints)
                       (example_storage 5 scenario_checkpoints) 6%nat targets
                       Htargets) first Hfirst) as [Hsecond _].
    + vm_compute. reflexivity.
    + apply ahead_example; lia.
    + exact (proj2 (Hsecond Hf Hh)).
Defined.

(** Counterexample to C4 as stated: every path rule [all] asks for is on
    storage and newer than the inputs of the task producing it, yet the
    sample's file is newer than the merged data, and the invocation
    executes all six tasks of the graph. *)
Lemma reinvoking_with_stale_merge_runs_tasks :
  exists targets first,
    Snakefile.rule_all_input Snakefile.str_unused Snakefile.scenario_config
    = Ok targets /\
    forallb (up_to_date (example_tasks scenario_checkpoints)
               (example_storage 5 scenario_checkpoints)) targets = true /\
    invoke_all no_failure Snakefile.str_unused Snakefile.scenario_config
      (example_tasks scenario_checkpoints)
      (example_storage 5 scenario_checkpoints) 6 = Ok first /\
    executed first = example_tasks scenario_checkpoints /\
    length (executed first) = 6%nat.
Proof.
  eexists. eexists. split; [vm_compute; reflexivity|].
  split; [vm_compute; reflexivity|].
  split; [vm_compute; reflexivity|]. split; vm_compute; reflexivity.
Qed.

End SchedulerFacts.

(* ===================================================================== *)
(** * More about the workflow definitions *)
(* ===================================================================== *)

Module WorkflowFacts.
Import Py PyFacts Expand Snakefile.

Lemma single_wildcard_product (key : string) (vals : list string) :
  product (map tag [(key, vals)]) = (fun v => [(key, v)]) <$> vals.
Proof.
  cbn [map product tag fst snd].
  induction vals as [|v vs IH]; [reflexivity|].
  cbn [map]. rewrite bind_cons, IH. reflexivity.
Qed.

Lemma sample_target_inj (s1 s2 : string) :
  PerSampleSnakefile.sample_target s1 = PerSampleSnakefile.sample_target s2 ->
  s1 = s2.
Proof.
  unfold PerSampleSnakefile.sample_target. intros H.
  apply append_inv_head in H. now apply append_inv_tail in H.
Qed.

(** X1.  In the per-sample Snakefile rule [all] asks for one file per
    sample, in the order of the samples; the file names of two samples are
    equal only if the samples are, whatever characters the names contain,
    so distinct samples never share a target. *)
Theorem per_sample_targets (wc : list string) :
  PerSampleSnakefile.rule_all_input wc
  = Ok (PerSampleSnakefile.sample_target <$> wc) /\
  (forall s1 s2,
      PerSampleSnakefile.sample_target s1 = PerSampleSnakefile.sample_target s2 ->
      s1 = s2) /\
  (NoDup wc -> NoDup (PerSampleSnakefile.sample_target <$> wc)).
Proof.
  split; [|split].
  - unfold PerSampleSnakefile.rule_all_input, expand_str.
    rewrite single_wildcard_product, GridFacts.mapM_fmap.
    apply mapM_ok. intros s _. reflexivity.
  - apply sample_target_inj.
  - intros Hnd. apply NoDup_fmap_2; [|exact Hnd].
    intros s1 s2. apply sample_target_inj.
Qed.

Section Grid.

Variable str_opaque : value -> string.

#[local] Abbreviation render := (render str_opaque).
#[local] Abbreviation checkpoints := (checkpoints str_opaque).
#[local] Abbreviation domain := (domain str_opaque).
#[local] Abbreviation rule_all_input := (rule_all_input str_opaque).

Lemma checkpoints_inv (config : value) (fname : string) (out : list string) :
  checkpoints config fname = Ok out ->
  exists L S G C P U,
    domain config "layer_to_use" = Ok L /\
    domain config "scale_data_before_pca" = Ok S /\
    domain config "genes_for_pca" = Ok G /\
    domain config "cc_method" = Ok C /\
    domain config "pca_n_components" = Ok P /\
    domain config "umap_n_neighbors" = Ok U.
Proof.
  unfold Snakefile.checkpoints, Snakefile.domain.
  destruct (getitem config "dim_reduc") as [d|e]; [|discriminate].
  cbn [bind mapM dim_reduc_keys].
  destruct (getitem d "layer_to_use") as [vl|]; [|discriminate].
  destruct (getitem d "scale_data_before_pca") as [vs|]; [|discriminate].
  destruct (getitem d "genes_for_pca") as [vg|]; [|discriminate].
  destruct (getitem d "cc_method") as [vc|]; [|discriminate].
  destruct (getitem d "pca_n_components") as [vp|]; [|discriminate].
  destruct (getitem d "umap_n_neighbors") as [vu|]; [|discriminate].
  cbn [bind]. unfold Expand.expand. cbn [mapM bind fst snd].
  destruct (mapM render (flatten vl)) as [L|]; [|discriminate].
  destruct (mapM render (flatten vs)) as [S|]; [|discriminate].
  destruct (mapM render (flatten vg)) as [G|]; [|discriminate].
  destruct (mapM render (flatten vc)) as [C|]; [|discriminate].
  destruct (mapM render (flatten vp)) as [P|]; [|discriminate].
  destruct (mapM render (flatten vu)) as [U|]; [|discriminate].
  intros _. exists L, S, G, C, P, U. repeat split; reflexivity.
Qed.

(** X2.  Whenever rule [all] of the Snakefile evaluates, its inputs are the
    subset artifact, requested whether or not [subset.use] is set, followed
    by the checkpoint path of every point of the grid in [product] order:
    one plus the product of the six domain sizes in all, so a dimension
    configured as an empty list leaves the subset artifact as the only
    target. *)
Theorem rule_all_targets (config : value) (targets : list string) :
  rule_all_input config = Ok targets ->
  exists fname L S G C P U,
    (fname = "subset" \/ fname = "merged") /\
    filename config = Ok fname /\
    domain config "layer_to_use" = Ok L /\
    domain config "scale_data_before_pca" = Ok S /\
    domain config "genes_for_pca" = Ok G /\
    domain config "cc_method" = Ok C /\
    domain config "pca_n_components" = Ok P /\
    domain config "umap_n_neighbors" = Ok U /\
    targets = "results/preprocessing/subset.h5ad"
              :: (checkpoint_path fname <$> product [L; S; G; C; P; U]) /\
    length targets
    = (1 + length L * (length S * (length G * (length C * (length P * length U)))))%nat.
Proof.
  unfold Snakefile.rule_all_input. destruct (filename config) as [fname|] eqn:Hf;
    [|discriminate]. cbn [bind].
  destruct (checkpoints config fname) as [out|] eqn:Hout; [|discriminate].
  cbn [bind]. intros [= <-].
  destruct (checkpoints_inv config fname out Hout)
    as (L & S & G & C & P & U & HL & HS & HG & HC & HP & HU).
  pose proof (GridFacts.filename_cases config fname Hf) as Hcases.
  rewrite (GridFacts.checkpoints_domains str_opaque config fname L S G C P U)
    in Hout by assumption.
  rewrite GridFacts.expand_str_grid in Hout by assumption.
  assert (Heq : out = checkpoint_path fname <$> product [L; S; G; C; P; U])
    by congruence.
  subst out. exists fname, L, S, G, C, P, U.
  split_and!; try assumption; try reflexivity.
  rewrite length_cons, length_fmap, GridFacts.product_length.
  cbn [grid_size]. lia.
Qed.

End Grid.

Lemma rule_all_targets_shipped :
  exists targets fname L S G C P U,
    rule_all_input str_unused config_yaml = Ok targets /\
    targets = "results/preprocessing/subset.h5ad"
              :: (checkpoint_path fname <$> product [L; S; G; C; P; U]) /\
    length targets = 25%nat.
Proof.
  destruct (rule_all_input str_unused config_yaml) as [targets|e] eqn:E;
    [|vm_compute in E; discriminate E].
  destruct (rule_all_targets str_unused config_yaml targets E)
    as (fname & L & S & G & C & P & U & _ & _ & _ & _ & _ & _ & _ & _ & Ht & _).
  exists targets, fname, L, S, G, C, P, U.
  split; [reflexivity|]. split; [exact Ht|].
  vm_compute in E. injection E as <-. reflexivity.
Defined.

Section Resolution.

Variable read_sample : value -> result dataframe.
Variable files : gmap string string.
Variable str_opaque : value -> string.

(** X3.  A Snakefile evaluation that succeeds has read exactly one sample
    source, the sheet or the directory, and its wildcards are the row
    labels of what was read; an evaluation that printed the
    no-samples message never succeeds. *)
Theorem snakefile_success_reads_one_source (config : value)
  (ev : list event) (w : workflow) :
  snakefile read_sample files str_opaque config = (ev, Ok w) ->
  (Print "no samples detected" ∉ ev) /\
  ((exists sheet df,
       ev = [ReadCsv sheet] /\ truthy sheet = true /\
       read_csv files sheet "sample_name" tab = Ok df /\ wc w = index df)
   \/
   (exists arg df,
       ev = [ReadSample arg] /\ read_sample arg = Ok df /\ wc w = index df)).
Proof.
  unfold snakefile, resolve_samples, load_samples.
  destruct (getitem config "data") as [data|]; cbn [bind];
    [|intros [= _ H]; discriminate H].
  destruct (getitem data "sample_sheet_path") as [sheet|];
    [|intros [= _ H]; discriminate H].
  destruct (truthy sheet) eqn:Hsheet.
  - destruct (read_csv files sheet "sample_name" tab) as [df|] eqn:Hdf;
      cbn [bind]; [|intros [= _ H]; discriminate H].
    destruct (conda_env config) as [env|]; cbn [bind];
      [|intros [= _ H]; discriminate H].
    destruct (rule_all_input str_opaque config) as [t|]; cbn [bind];
      [|intros [= _ H]; discriminate H].
    intros [= <- <-]. split.
    + intros H. apply list_elem_of_singleton in H. discriminate H.
    + left. exists sheet, df. auto.
  - destruct (getitem config "samples_in_directory") as [flag|];
      [|intros [= _ H]; discriminate H].
    destruct (truthy flag); [|intros [= _ H]; discriminate H].
    destruct (getitem data "samples_in_directory") as [arg|];
      [|intros [= _ H]; discriminate H].
    destruct (read_sample arg) as [df|] eqn:Hdf; cbn [bind];
      [|intros [= _ H]; discriminate H].
    destruct (conda_env config) as [env|]; cbn [bind];
      [|intros [= _ H]; discriminate H].
    destruct (rule_all_input str_opaque config) as [t|]; cbn [bind];
      [|intros [= _ H]; discriminate H].
    intros [= <- <-]. split.
    + intros H. apply list_elem_of_singleton in H. discriminate H.
    + right. exists arg, df. auto.
Qed.


End Resolution.

Lemma snakefile_success_reads_one_source_shipped :
  exists ev w,
    snakefile (fun _ => Raise (Unmodelled "samples_auto.read_sample"))
      {[ "resources/sample_sheet.tsv" := two_row_sheet "path_A" "path_B" ]}
      str_unused config_yaml = (ev, Ok w) /\
    (Print "no samples detected" ∉ ev).
Proof.
  destruct (snakefile (fun _ => Raise (Unmodelled "samples_auto.read_sample"))
              {[ "resources/sample_sheet.tsv" := two_row_sheet "path_A" "path_B" ]}
              str_unused config_yaml) as [ev [w|e]] eqn:E;
    [|vm_compute in E; discriminate E].
  exists ev, w. split; [reflexivity|].
  exact (proj1 (snakefile_success_reads_one_source _ _ _ _ _ _ E)).
Defined.


End WorkflowFacts.

(* ===================================================================== *)
(** * Sample identifiers: the regular expression and the naming scheme *)
(* ===================================================================== *)

Module NamingFacts.
Import Py PyFacts PyStr Merge Naming.

Lemma starts_with_inv (p s : string) :
  starts_with p s = true -> exists r, s = p +:+ r.
Proof.
  revert s. induction p as [|c p IH]; intros s; simpl.
  - intros _. now exists s.
  - destruct s as [|d s]; [discriminate|].
    intros [Hc Hp]%andb_true_iff. apply Ascii.eqb_eq in Hc as ->.
    destruct (IH s Hp) as [r ->]. now exists r.
Qed.

Lemma substring_all (s : string) : String.substring 0 (String.length s) s = s.
Proof. induction s as [|c s IH]; simpl; [reflexivity|]. now rewrite IH. Qed.

Lemma substring_drop (p r : string) (n : nat) :
  String.substring (String.length p) n (p +:+ r) = String.substring 0 n r.
Proof. induction p as [|c p IH]; simpl; [reflexivity|]. exact IH. Qed.

Lemma after_prefix_app (p r : string) : after_prefix p (p +:+ r) = Some r.
Proof.
  unfold after_prefix. rewrite starts_with_app, substring_drop, append_length.
  replace (String.length p + String.length r - String.length p)%nat
    with (String.length r) by lia.
  now rewrite substring_all.
Qed.

Lemma after_prefix_Some (p s r : string) :
  after_prefix p s = Some r <-> s = p +:+ r.
Proof.
  split.
  - unfold after_prefix. destruct (starts_with p s) eqn:E; [|discriminate].
    destruct (starts_with_inv p s E) as [r' ->].
    pose proof (after_prefix_app p r') as H. unfold after_prefix in H.
    rewrite E in H. rewrite H. now intros [= ->].
  - intros ->. apply after_prefix_app.
Qed.

Lemma after_prefix_None (p s : string) :
  after_prefix p s = None <-> starts_with p s = false.
Proof. unfold after_prefix. now destruct (starts_with p s). Qed.

Lemma all_chars_app (f : ascii -> bool) (a b : string) :
  all_chars f (a +:+ b) = all_chars f a && all_chars f b.
Proof.
  induction a as [|c a IH]; simpl; [reflexivity|].
  now rewrite IH, andb_assoc.
Qed.

Lemma take_while_app (f : ascii -> bool) (w post : string) :
  all_chars f w = true -> all_chars f (String.substring 0 1 post) = false
  \/ post = EmptyString ->
  take_while f (w +:+ post) = w.
Proof.
  intros Hw Hpost. induction w as [|c w IH]; simpl.
  - destruct post as [|d post]; [reflexivity|]. simpl.
    destruct Hpost as [H|H]; [|discriminate].
    simpl in H. destruct post; simpl in H; destruct (f d); try reflexivity;
      discriminate.
  - simpl in Hw. apply andb_true_iff in Hw as [Hc Hw]. now rewrite Hc, IH.
Qed.

Lemma take_while_split (f : ascii -> bool) (s : string) :
  exists post,
    s = take_while f s +:+ post /\ all_chars f (take_while f s) = true /\
    match post with
    | EmptyString => True
    | String c _ => f c = false
    end.
Proof.
  induction s as [|c s (post & Hs & Hall & Hpost)]; simpl.
  - now exists EmptyString.
  - destruct (f c) eqn:E.
    + exists post. simpl. rewrite E, Hall. now rewrite <- Hs.
    + now exists (String c s).
Qed.

Lemma occurs_app_r (pat pre s : string) :
  occurs pat s = true -> occurs pat (pre +:+ s) = true.
Proof.
  intros H. induction pre as [|c pre IH]; simpl; [exact H|].
  rewrite IH. apply orb_true_r.
Qed.

Lemma starts_with_app_more (p s t : string) :
  starts_with p s = true -> starts_with p (s +:+ t) = true.
Proof.
  intros [r ->]%starts_with_inv. rewrite append_assoc. apply starts_with_app.
Qed.

(** [pat in s] holds exactly when [s] splits around a copy of [pat]. *)
Lemma occurs_split (pat s : string) :
  occurs pat s = true <-> exists pre post, s = pre +:+ pat +:+ post.
Proof.
  split.
  - induction s as [|c s IH]; simpl.
    + intros [r Hr]%starts_with_inv. now exists EmptyString, r.
    + intros [H|H]%orb_true_iff.
      * apply starts_with_inv in H as [r Hr]. now exists EmptyString, r.
      * destruct (IH H) as (pre & post & ->). now exists (String c pre), post.
  - intros (pre & post & ->). apply occurs_app_r.
    destruct (pat +:+ post) as [|c r] eqn:E.
    + destruct pat; [reflexivity|discriminate].
    + simpl. rewrite <- E, starts_with_app. reflexivity.
Qed.

Lemma count_char_app (c : ascii) (a b : string) :
  count_char c (a +:+ b) = (count_char c a + count_char c b)%nat.
Proof. induction a as [|x a IH]; simpl; [reflexivity|]. rewrite IH. lia. Qed.

Lemma count_char_absent (c : ascii) (s : string) :
  contains_char c s = false -> count_char c s = O.
Proof.
  induction s as [|x s IH]; simpl; [reflexivity|].
  intros [-> H]%orb_false_iff. now rewrite IH.
Qed.

(** A text holds every character of a pattern that occurs in it at least
    as often as the pattern does. *)
Lemma occurs_count (c : ascii) (pat s : string) :
  occurs pat s = true -> (count_char c pat <= count_char c s)%nat.
Proof.
  intros (pre & post & ->)%occurs_split. rewrite !count_char_app. lia.
Qed.

Lemma remove_all_from_skip (pat u s : string) :
  remove_all_from pat (String.length u) (u +:+ s) = remove_all_from pat O s.
Proof. induction u as [|c u IH]; simpl; [reflexivity|]. exact IH. Qed.

Lemma remove_all_prefix (pat s : string) :
  pat <> EmptyString -> remove_all pat (pat +:+ s) = remove_all pat s.
Proof.
  destruct pat as [|c p]; [congruence|]. intros _.
  unfold remove_all. change (String c p +:+ s) with (String c (p +:+ s)).
  cbn [remove_all_from].
  replace (starts_with (String c p) (String c (p +:+ s))) with true
    by (symmetry; apply (starts_with_app (String c p) s)).
  cbn [String.length Nat.pred]. apply remove_all_from_skip.
Qed.

Lemma remove_all_absent (pat s : string) :
  occurs pat s = false -> remove_all pat s = s.
Proof.
  destruct pat as [|c p]; [reflexivity|]. unfold remove_all.
  induction s as [|d s IH]; [reflexivity|].
  cbn [occurs remove_all_from]. intros [-> H]%orb_false_iff.
  now rewrite (IH H).
Qed.

Lemma re_search_CE_found (pre w post : string) :
  occurs "CE" pre = false -> all_chars is_word w = true ->
  ends_word post = true ->
  re_search_CE (pre +:+ "CE" +:+ w +:+ post) = Some ("CE" +:+ w).
Proof.
  intros Hpre Hall Hpost.
  assert (H0 : re_search_CE (String "C" (String "E" (w +:+ post)))
               = Some ("CE" +:+ w)).
  { cbn [re_search_CE].
    change (String "C" (String "E" (w +:+ post)))
      with ("CE" +:+ (w +:+ post)).
    rewrite after_prefix_app, take_while_app; [reflexivity|exact Hall|].
    destruct post as [|d post]; [now right|left].
    simpl in Hpost. apply negb_true_iff in Hpost.
    destruct post; simpl; now rewrite Hpost. }
  change (pre +:+ "CE" +:+ w +:+ post)
    with (pre +:+ String "C" (String "E" (w +:+ post))).
  remember (String "E" (w +:+ post)) as tl eqn:Htl. clear Htl.
  induction pre as [|c pre IH]; [exact H0|].
  cbn [occurs] in Hpre. apply orb_false_iff in Hpre as [Hc Hpre].
  change (String c pre +:+ String "C" tl)
    with (String c (pre +:+ String "C" tl)).
  cbn [re_search_CE].
  replace (after_prefix "CE" (String c (pre +:+ String "C" tl)))
    with (@None string); [exact (IH Hpre)|].
  symmetry. apply after_prefix_None.
  cbn [starts_with] in Hc |- *. destruct (Ascii.eqb "C" c); [|reflexivity].
  cbn [andb] in Hc |- *. destruct pre as [|d pre]; [reflexivity|].
  cbn [String.append starts_with] in Hc |- *.
  destruct (Ascii.eqb "E" d); [discriminate|reflexivity].
Qed.

(** X5.  The search for [CE[a-zA-Z0-9_]*] finds nothing exactly in the
    texts without [CE]; otherwise it returns the first [CE] of the text
    together with all the word characters that follow it, up to the end of
    the text or the first character of another kind. *)
Theorem re_search_CE_leftmost_longest (s : string) :
  (re_search_CE s = None <-> occurs "CE" s = false) /\
  (forall m,
      re_search_CE s = Some m <->
      exists pre w post,
        s = pre +:+ "CE" +:+ w +:+ post /\ m = "CE" +:+ w /\
        occurs "CE" pre = false /\ all_chars is_word w = true /\
        ends_word post = true).
Proof.
  split.
  - induction s as [|c s IH]; [split; reflexivity|].
    cbn [re_search_CE occurs].
    destruct (after_prefix "CE" (String c s)) as [r|] eqn:E.
    + apply after_prefix_Some in E. rewrite E, (starts_with_app "CE" r).
      split; discriminate.
    + apply after_prefix_None in E. rewrite E. exact IH.
  - intros m. split.
    + revert m. induction s as [|c s IH]; intros m; [discriminate|].
      cbn [re_search_CE].
      destruct (after_prefix "CE" (String c s)) as [r|] eqn:E.
      * apply after_prefix_Some in E. intros [= <-].
        destruct (take_while_split is_word r) as (post & Hr & Hall & Hpost).
        exists EmptyString, (take_while is_word r), post.
        split; [rewrite E; cbn [String.append]; now rewrite <- Hr|].
        split; [reflexivity|]. split; [reflexivity|]. split; [exact Hall|].
        destruct post; [reflexivity|]. simpl. now rewrite Hpost.
      * apply after_prefix_None in E. intros H.
        destruct (IH m H) as (pre & w & post & -> & -> & Hpre & Hall & Hpost).
        exists (String c pre), w, post.
        split; [reflexivity|]. split; [reflexivity|]. split; [|auto].
        cbn [occurs]. rewrite Hpre, orb_false_r.
        destruct (starts_with "CE" (String c pre)) eqn:E'; [|reflexivity].
        rewrite <- E. symmetry.
        now apply (starts_with_app_more "CE" (String c pre)).
    + intros (pre & w & post & -> & -> & Hpre & Hall & Hpost).
      now apply re_search_CE_found.
Qed.

Lemma alnum_is_word (c : ascii) : is_alnum c = true -> is_word c = true.
Proof.
  unfold is_alnum, is_letter, is_word. intros ->. reflexivity.
Qed.

Lemma letter_is_alnum (c : ascii) : is_letter c = true -> is_alnum c = true.
Proof. unfold is_alnum. intros ->. reflexivity. Qed.

Lemma alnum_not_underscore (c : ascii) :
  is_alnum c = true -> Ascii.eqb c underscore = false.
Proof.
  intros H. destruct (Ascii.eqb_spec c underscore) as [->|_]; [|reflexivity].
  vm_compute in H. discriminate H.
Qed.

Lemma letter_not_five (c : ascii) :
  is_letter c = true -> Ascii.eqb "5" c = false.
Proof.
  intros H. destruct (Ascii.eqb_spec "5" c) as [<-|_]; [|reflexivity].
  vm_compute in H. discriminate H.
Qed.

Lemma all_chars_impl (f g : ascii -> bool) (s : string) :
  (forall c, f c = true -> g c = true) ->
  all_chars f s = true -> all_chars g s = true.
Proof.
  intros Hfg. induction s as [|c s IH]; simpl; [reflexivity|].
  intros [Hc Hs]%andb_true_iff. now rewrite (Hfg c Hc), IH.
Qed.

Lemma alnum_no_underscore (s : string) :
  all_chars is_alnum s = true -> contains_char underscore s = false.
Proof.
  induction s as [|c s IH]; simpl; [reflexivity|].
  intros [Hc Hs]%andb_true_iff. now rewrite (alnum_not_underscore c Hc), IH.
Qed.

(** A name made of a treatment of letters and a week of letters and digits
    holds neither prefix. *)
Lemma name_without_prefixes (T W : string) :
  all_chars is_letter T = true -> all_chars is_alnum W = true ->
  occurs "CE_SC_" (T +:+ "_" +:+ W) = false /\
  occurs "5FU_" (T +:+ "_" +:+ W) = false.
Proof.
  intros HT HW.
  pose proof (alnum_no_underscore W HW) as HWu.
  pose proof (alnum_no_underscore T
                (all_chars_impl _ _ T letter_is_alnum HT)) as HTu.
  split.
  - destruct (occurs "CE_SC_" (T +:+ "_" +:+ W)) eqn:E; [|reflexivity].
    apply (occurs_count underscore) in E.
    rewrite !count_char_app, (count_char_absent _ T HTu),
      (count_char_absent _ W HWu) in E.
    vm_compute in E. lia.
  - induction T as [|c T IH].
    + cbn [String.append occurs starts_with].
      replace (Ascii.eqb "5" "_") with false by reflexivity. cbn [andb orb].
      destruct (occurs "5FU_" W) eqn:E; [|reflexivity].
      apply (occurs_count underscore) in E.
      rewrite (count_char_absent _ W HWu) in E. vm_compute in E. lia.
    + cbn [all_chars] in HT. apply andb_true_iff in HT as [Hc HT].
      cbn [contains_char] in HTu. apply orb_false_iff in HTu as [_ HTu].
      change (String c T +:+ "_" +:+ W) with (String c (T +:+ "_" +:+ W)).
      cbn [occurs starts_with]. rewrite (letter_not_five c Hc).
      cbn [andb orb]. now apply IH.
Qed.

Lemma strip_scheme_name (m : marker) (T W : string) :
  all_chars is_letter T = true -> all_chars is_alnum W = true ->
  strip_prefixes ("CE_SC_" +:+ marker_text m +:+ T +:+ "_" +:+ W)
  = T +:+ "_" +:+ W.
Proof.
  intros HT HW. destruct (name_without_prefixes T W HT HW) as [H1 H2].
  unfold strip_prefixes. rewrite remove_all_prefix by discriminate.
  destruct m; cbn [marker_text].
  - change (EmptyString +:+ T +:+ "_" +:+ W) with (T +:+ "_" +:+ W).
    rewrite (remove_all_absent "CE_SC_") by exact H1.
    now apply remove_all_absent.
  - rewrite (remove_all_absent "CE_SC_").
    + rewrite remove_all_prefix by discriminate. now apply remove_all_absent.
    + change ("5FU_" +:+ T +:+ "_" +:+ W)
        with (String "5" (String "F" (String "U" (String "_" (T +:+ "_" +:+ W))))).
      cbn [occurs starts_with].
      replace (Ascii.eqb "C" "5") with false by reflexivity.
      replace (Ascii.eqb "C" "F") with false by reflexivity.
      replace (Ascii.eqb "C" "U") with false by reflexivity.
      replace (Ascii.eqb "C" "_") with false by reflexivity.
      cbn [andb orb]. exact H1.
Qed.

Lemma sample_id_scheme (dir : string) (m : marker) (T W rest : string) :
  occurs "CE" dir = false ->
  all_chars is_letter T = true -> all_chars is_alnum W = true ->
  ends_word rest = true ->
  sample_id (scheme_path dir m T W rest) = Some (T +:+ "_" +:+ W).
Proof.
  intros Hdir HT HW Hrest. unfold sample_id, scheme_path.
  replace (dir +:+ "CE_SC_" +:+ marker_text m +:+ T +:+ "_" +:+ W +:+ rest)
    with (dir +:+ "CE" +:+ ("_SC_" +:+ marker_text m +:+ T +:+ "_" +:+ W) +:+ rest).
  - rewrite re_search_CE_found; [|exact Hdir| |exact Hrest].
    + cbn [option_map]. f_equal.
      now apply (strip_scheme_name m T W).
    + rewrite !all_chars_app.
      rewrite (all_chars_impl _ _ W alnum_is_word HW).
      rewrite (all_chars_impl _ _ T
                 (fun c H => alnum_is_word c (letter_is_alnum c H)) HT).
      destruct m; reflexivity.
  - f_equal. rewrite !append_assoc. reflexivity.
Qed.

Lemma tokens_scheme_name (T W : string) :
  all_chars is_letter T = true -> all_chars is_alnum W = true ->
  tokens (T +:+ "_" +:+ W) = [T; W].
Proof.
  intros HT HW. unfold tokens.
  change (T +:+ "_" +:+ W) with (T +:+ String underscore W).
  rewrite split_on_app
    by exact (alnum_no_underscore T (all_chars_impl _ _ T letter_is_alnum HT)).
  now rewrite split_on_no_sep by exact (alnum_no_underscore W HW).
Qed.

(** X6.  A path that follows the naming scheme of the run, a directory
    part without [CE], then [CE_SC_], an optional [5FU_], a treatment of
    letters, an underscore and a week of letters and digits, whatever
    follows the name, is read as the sample [<treatment>_<week>] with that
    treatment ([C] becoming [Control]) and that week. *)
Theorem scheme_path_is_parsed (dir : string) (m : marker) (T W rest : string) :
  occurs "CE" dir = false ->
  all_chars is_letter T = true -> all_chars is_alnum W = true ->
  ends_word rest = true ->
  sample_id (scheme_path dir m T W rest) = Some (T +:+ "_" +:+ W) /\
  item_of (scheme_path dir m T W rest)
  = Some (T +:+ "_" +:+ W, (scheme_path dir m T W rest, control_if_C T, W)) /\
  well_named (scheme_path dir m T W rest) = true /\
  derive [scheme_path dir m T W rest]
  = Ok {| sample_ids := [T +:+ "_" +:+ W];
          sample_treatments := [control_if_C T];
          sample_weeks := [W] |}.
Proof.
  intros Hdir HT HW Hrest.
  pose proof (sample_id_scheme dir m T W rest Hdir HT HW Hrest) as Hid.
  pose proof (tokens_scheme_name T W HT HW) as Htok.
  split; [exact Hid|]. split; [|split].
  - unfold item_of, first_token. now rewrite Hid, Htok.
  - unfold well_named. now rewrite Hid, Htok.
  - unfold derive. rewrite MergeFacts.stripped_ids.
    cbn [omap list_omap]. rewrite Hid. cbn [map mapM].
    unfold second_token, first_token. rewrite Htok. reflexivity.
Qed.

Lemma scheme_path_is_parsed_recorded :
  derive ["/data/cephfs-1/work/groups/cubi/users/cemo10_c/scRNA/scRNA_preprocessing_pipeline/results/preprocessing/CE_SC_5FU_OnOff_3/annotation.h5ad"]
  = Ok {| sample_ids := ["OnOff_3"];
          sample_treatments := ["OnOff"];
          sample_weeks := ["3"] |}.
Proof.
  refine (proj2 (proj2 (proj2 (scheme_path_is_parsed
    "/data/cephfs-1/work/groups/cubi/users/cemo10_c/scRNA/scRNA_preprocessing_pipeline/results/preprocessing/"
    FiveFU "OnOff" "3" "/annotation.h5ad" _ _ _ _)))); reflexivity.
Defined.

End NamingFacts.

(* ===================================================================== *)
(** * The lists and the dictionary of the merge notebook *)
(* ===================================================================== *)

Module DeriveFacts.
Import Py PyFacts PyStr Merge.

Lemma split_on_length (sep : ascii) (s : string) :
  length (split_on sep s) = S (count_char sep s).
Proof.
  induction s as [|c s IH]; [reflexivity|].
  cbn [split_on count_char]. destruct (Ascii.eqb c sep).
  - cbn [length]. rewrite IH. reflexivity.
  - destruct (split_on sep s); cbn [length] in *; lia.
Qed.

(** No token of a split holds the separator. *)
Lemma split_on_tokens (sep : ascii) (s : string) :
  Forall (fun t => contains_char sep t = false) (split_on sep s).
Proof.
  induction s as [|c s IH]; [repeat constructor|].
  cbn [split_on]. destruct (Ascii.eqb c sep) eqn:E.
  - constructor; [reflexivity|exact IH].
  - destruct (split_on sep s) as [|w ws].
    + repeat constructor. cbn [contains_char]. now rewrite E.
    + inversion IH as [|? ? Hw Hws]; subst. constructor; [|exact Hws].
      cbn [contains_char]. now rewrite E, Hw.
Qed.

Lemma contains_count (c : ascii) (s : string) :
  contains_char c s = true <-> (1 <= count_char c s)%nat.
Proof.
  induction s as [|x s IH]; simpl; [split; [discriminate|lia]|].
  destruct (Ascii.eqb x c); simpl; [split; [lia|reflexivity]|exact IH].
Qed.

Lemma second_token_closed (name : string) :
  second_token name
  = if contains_char underscore name
    then Ok (nth 1 (tokens name) EmptyString)
    else Raise IndexError.
Proof.
  unfold second_token, tokens.
  destruct (contains_char underscore name) eqn:E.
  - apply contains_count in E.
    pose proof (split_on_length underscore name) as Hl.
    destruct (split_on underscore name) as [|t0 [|t1 ts]]; cbn [length] in Hl;
      try lia.
    reflexivity.
  - now rewrite split_on_no_sep.
Qed.

Lemma weeks_closed (ids : list string) :
  mapM second_token ids
  = if forallb (contains_char underscore) ids
    then Ok (map (fun n => nth 1 (tokens n) EmptyString) ids)
    else Raise IndexError.
Proof.
  induction ids as [|n ids IH]; [reflexivity|].
  cbn [mapM forallb map]. rewrite second_token_closed, IH.
  destruct (contains_char underscore n); [|reflexivity].
  now destruct (forallb (contains_char underscore) ids).
Qed.

Lemma derive_closed (paths : list string) :
  derive paths
  = if forallb (contains_char underscore) (omap sample_id paths)
    then Ok {| sample_ids := omap sample_id paths;
               sample_treatments :=
                 map (fun n => control_if_C (first_token n))
                     (omap sample_id paths);
               sample_weeks :=
                 map (fun n => nth 1 (tokens n) EmptyString)
                     (omap sample_id paths) |}
    else Raise IndexError.
Proof.
  unfold derive. rewrite MergeFacts.stripped_ids, weeks_closed.
  destruct (forallb (contains_char underscore) (omap sample_id paths));
    [|reflexivity].
  cbn [bind]. now rewrite map_map.
Qed.

(** X7.  The cell that derives identifiers, treatments and weeks either
    yields three lists over the paths in which [CE] is found, or raises
    [IndexError]; it raises exactly when some identifier, once the prefixes
    are stripped, holds no underscore, and then the merge stops there, for
    any files on disk. *)
Theorem derive_closed_form (paths : list string) :
  derive paths
  = (if forallb (contains_char underscore) (omap sample_id paths)
     then Ok {| sample_ids := omap sample_id paths;
                sample_treatments :=
                  map (fun n => control_if_C (first_token n))
                      (omap sample_id paths);
                sample_weeks :=
                  map (fun n => nth 1 (tokens n) EmptyString)
                      (omap sample_id paths) |}
     else Raise IndexError) /\
  (forallb (contains_char underscore) (omap sample_id paths) = false ->
   forall (cell : Type) (stored : gmap string (list cell)),
     merge cell stored paths = Raise IndexError).
Proof.
  split; [apply derive_closed|].
  intros H cell stored. unfold merge. now rewrite derive_closed, H.
Qed.

Lemma length_omap_le {A B : Type} (f : A -> option B) (l : list A) :
  (length (omap f l) <= length l)%nat.
Proof.
  induction l as [|a l IH]; [reflexivity|].
  cbn [omap list_omap]. destruct (f a); cbn [length]; lia.
Qed.

Lemma first_token_no_underscore (name : string) :
  contains_char underscore (first_token name) = false.
Proof.
  unfold first_token, tokens.
  pose proof (split_on_tokens underscore name) as H.
  destruct (split_on underscore name) as [|t ts]; [reflexivity|].
  now inversion H.
Qed.

Lemma nth_token_no_underscore (name : string) (i : nat) :
  contains_char underscore (nth i (tokens name) EmptyString) = false.
Proof.
  unfold tokens. pose proof (split_on_tokens underscore name) as H.
  rewrite List.Forall_forall in H.
  destruct (nth_in_or_default i (split_on underscore name) EmptyString)
    as [Hin| ->]; [now apply H|reflexivity].
Qed.

(** X8.  When the derivation succeeds, the three lists have one entry per
    path in which [CE] was found, so at most one per path; every
    identifier holds an underscore; no treatment is [C] and neither
    treatments nor weeks hold an underscore. *)
Theorem derive_shape (paths : list string) (l : sample_lists) :
  derive paths = Ok l ->
  sample_ids l = omap sample_id paths /\
  length (sample_treatments l) = length (sample_ids l) /\
  length (sample_weeks l) = length (sample_ids l) /\
  (length (sample_ids l) <= length paths)%nat /\
  Forall (fun n => contains_char underscore n = true) (sample_ids l) /\
  Forall (fun t => t <> "C" /\ contains_char underscore t = false)
         (sample_treatments l) /\
  Forall (fun w => contains_char underscore w = false) (sample_weeks l).
Proof.
  rewrite derive_closed.
  destruct (forallb (contains_char underscore) (omap sample_id paths)) eqn:E;
    [|discriminate].
  intros [= <-]. cbn [sample_ids sample_treatments sample_weeks].
  rewrite !length_map. split; [reflexivity|]. split; [reflexivity|].
  split; [reflexivity|]. split; [apply length_omap_le|].
  split; [|split].
  - apply List.Forall_forall. intros n Hn.
    rewrite forallb_forall in E. now apply E.
  - apply List.Forall_forall. intros t [n [<- _]]%in_map_iff.
    unfold control_if_C. destruct (String.eqb_spec (first_token n) "C") as [_|Hne].
    + split; [discriminate|reflexivity].
    + split; [exact Hne|apply first_token_no_underscore].
  - apply List.Forall_forall. intros w [n [<- _]]%in_map_iff.
    apply nth_token_no_underscore.
Qed.

Lemma derive_shape_recorded :
  exists l,
    derive
      ["/data/results/preprocessing/CE_SC_5FU_OnOff_3/annotation.h5ad";
       "/data/results/preprocessing/README";
       "/data/results/preprocessing/CE_SC_C_5/annotation.h5ad"] = Ok l /\
    sample_ids l = ["OnOff_3"; "C_5"] /\
    sample_treatments l = ["OnOff"; "Control"].
Proof.
  destruct (derive
      ["/data/results/preprocessing/CE_SC_5FU_OnOff_3/annotation.h5ad";
       "/data/results/preprocessing/README";
       "/data/results/preprocessing/CE_SC_C_5/annotation.h5ad"])
    as [l|e] eqn:E; [|vm_compute in E; discriminate E].
  exists l. split; [reflexivity|].
  destruct (derive_shape _ l E) as (Hids & _).
  split; [rewrite Hids; reflexivity|].
  vm_compute in E. injection E as <-. reflexivity.
Defined.

(** ** The [samples] dictionary *)

Lemma assoc_app {V : Type} (k : string) (a b : list (string * V)) :
  assoc k (a ++ b) = match assoc k a with Some v => Some v | None => assoc k b end.
Proof.
  induction a as [|[k' v'] a IH]; [reflexivity|].
  cbn [app assoc]. now destruct (String.eqb k' k).
Qed.

Lemma assoc_dict_set {V : Type} (k k' : string) (v : V) (d : list (string * V)) :
  assoc k' (dict_set k v d) = if String.eqb k k' then Some v else assoc k' d.
Proof.
  induction d as [|[k0 v0] d IH]; cbn [dict_set assoc]; [reflexivity|].
  destruct (String.eqb_spec k0 k) as [->|Hne]; cbn [assoc].
  - now destruct (String.eqb k k').
  - rewrite IH. destruct (String.eqb_spec k0 k') as [->|_]; [|reflexivity].
    destruct (String.eqb_spec k k') as [->|_]; [congruence|reflexivity].
Qed.

Lemma keys_dict_set {V : Type} (k : string) (v : V) (d : list (string * V)) :
  map fst (dict_set k v d)
  = if bool_decide (k ∈ map fst d) then map fst d else map fst d ++ [k].
Proof.
  induction d as [|[k0 v0] d IH]; cbn [dict_set map fst]; [reflexivity|].
  destruct (String.eqb_spec k0 k) as [->|Hne]; cbn [map fst].
  - rewrite bool_decide_eq_true_2 by apply list_elem_of_here. reflexivity.
  - rewrite IH. destruct (bool_decide (k ∈ map fst d)) eqn:E.
    + apply bool_decide_eq_true_1 in E.
      rewrite bool_decide_eq_true_2 by now apply list_elem_of_further.
      reflexivity.
    + apply bool_decide_eq_false_1 in E.
      rewrite bool_decide_eq_false_2; [reflexivity|].
      intros [?|?]%elem_of_cons; congruence.
Qed.

Lemma NoDup_dict_set {V : Type} (k : string) (v : V) (d : list (string * V)) :
  NoDup (map fst d) -> NoDup (map fst (dict_set k v d)).
Proof.
  intros H. rewrite keys_dict_set.
  destruct (bool_decide (k ∈ map fst d)) eqn:E; [exact H|].
  apply bool_decide_eq_false_1 in E.
  apply NoDup_app. split; [exact H|]. split; [|apply NoDup_singleton].
  intros x Hx ->%list_elem_of_singleton. contradiction.
Qed.

Lemma dict_fold {V : Type} (items d : list (string * V)) :
  NoDup (map fst d) ->
  NoDup (map fst (fold_left (fun d kv => dict_set (fst kv) (snd kv) d) items d)) /\
  forall k,
    assoc k (fold_left (fun d kv => dict_set (fst kv) (snd kv) d) items d)
    = match assoc k (rev items) with Some v => Some v | None => assoc k d end.
Proof.
  revert d. induction items as [|[k0 v0] items IH]; intros d Hd.
  - split; [exact Hd|reflexivity].
  - cbn [fold_left fst snd].
    destruct (IH (dict_set k0 v0 d) (NoDup_dict_set k0 v0 d Hd)) as [Hnd Hassoc].
    split; [exact Hnd|]. intros k. rewrite Hassoc. cbn [rev].
    rewrite assoc_app, assoc_dict_set. cbn [assoc].
    destruct (assoc k (rev items)); [reflexivity|].
    now destruct (String.eqb k0 k).
Qed.

Lemma assoc_None {V : Type} (k : string) (d : list (string * V)) :
  assoc k d = None <-> k ∉ map fst d.
Proof.
  induction d as [|[k0 v0] d IH]; cbn [assoc map fst].
  - split; [intros _ H; inversion H|reflexivity].
  - rewrite not_elem_of_cons.
    destruct (String.eqb_spec k0 k) as [->|Hne].
    + split; [discriminate|intros [H _]; congruence].
    + rewrite IH. split; [intros H; split; [congruence|exact H]|tauto].
Qed.

(** X9.  The dictionary built from the zipped lists has one entry per
    distinct identifier, never more entries than items, and the entry of an
    identifier that comes several times is the one zipped last. *)
Theorem dict_of_last_wins {V : Type} (items : list (string * V)) :
  NoDup (map fst (dict_of items)) /\
  (forall k, assoc k (dict_of items) = assoc k (rev items)) /\
  (forall k, k ∈ map fst (dict_of items) <-> k ∈ map fst items) /\
  (length (dict_of items) <= length items)%nat.
Proof.
  destruct (dict_fold items [] (NoDup_nil_2 : NoDup (map fst (@nil (string * V)))))
    as [Hnd Hassoc].
  assert (Hlast : forall k, assoc k (dict_of items) = assoc k (rev items)).
  { intros k. unfold dict_of. rewrite Hassoc.
    now destruct (assoc k (rev items)). }
  assert (Hkeys : forall k, k ∈ map fst (dict_of items) <-> k ∈ map fst items).
  { intros k.
    destruct (decide (k ∈ map fst (dict_of items))) as [Hin|Hout];
      destruct (decide (k ∈ map fst items)) as [Hin'|Hout']; try tauto.
    - exfalso.
      assert (Hn : assoc k (dict_of items) = None).
      { rewrite Hlast. apply assoc_None. rewrite map_rev.
        intros Hr. apply Hout'. apply list_elem_of_In, in_rev.
        now apply list_elem_of_In. }
      apply assoc_None in Hn. contradiction.
    - exfalso. apply assoc_None in Hout. rewrite Hlast in Hout.
      apply assoc_None in Hout. apply Hout. rewrite map_rev.
      apply list_elem_of_In. rewrite <- in_rev. now apply list_elem_of_In. }
  split; [exact Hnd|]. split; [exact Hlast|]. split; [exact Hkeys|].
  rewrite <- (length_map fst (dict_of items)), <- (length_map fst items).
  apply submseteq_length, NoDup_submseteq; [exact Hnd|].
  intros k. apply Hkeys.
Qed.

(** X10.  Two paths that give the same identifier are merged as one
    sample: only the file of the second path is read, whatever lies at the
    first, and its cells carry the shared identifier. *)
Theorem merge_same_id_reads_last (cell : Type) (stored : gmap string (list cell))
  (p1 p2 n : string) :
  sample_id p1 = Some n -> sample_id p2 = Some n ->
  contains_char underscore n = true ->
  merge cell stored [p1; p2]
  = (let* cells := read_h5ad cell stored p2 in
     Ok (map (fun c => {| origin := c; sample := n;
                          treatment := control_if_C (first_token n);
                          week := nth 1 (tokens n) EmptyString |}) cells)) /\
  forall stored' : gmap string (list cell),
    stored' !! p2 = stored !! p2 ->
    merge cell stored' [p1; p2] = merge cell stored [p1; p2].
Proof.
  intros H1 H2 Hn.
  assert (Hm : forall st : gmap string (list cell),
             merge cell st [p1; p2]
             = (let* cells := read_h5ad cell st p2 in
                Ok (map (fun c => {| origin := c; sample := n;
                                     treatment := control_if_C (first_token n);
                                     week := nth 1 (tokens n) EmptyString |})
                        cells))).
  { intros st. unfold merge. rewrite derive_closed.
    cbn [omap list_omap]. rewrite H1, H2. cbn [forallb]. rewrite Hn.
    cbn [andb bind sample_ids sample_treatments sample_weeks map zip2 zip3].
    unfold dict_of. cbn [fold_left fst snd dict_set].
    rewrite String.eqb_refl. cbn [mapM load_sample].
    destruct (read_h5ad cell st p2) as [cells|e]; cbn [bind concat];
      [|reflexivity].
    now rewrite app_nil_r. }
  split; [apply Hm|].
  intros stored' Heq. rewrite !Hm. unfold read_h5ad. now rewrite Heq.
Qed.

Lemma merge_same_id_reads_last_example :
  merge nat {[ "/e/CE_SC_C_1/annotation.h5ad" := [3]%nat ]}
    ["/d/CE_SC_C_1/annotation.h5ad"; "/e/CE_SC_C_1/annotation.h5ad"]
  = Ok [ {| origin := 3%nat; sample := "C_1"; treatment := "Control"; week := "1" |} ].
Proof.
  refine (eq_trans (proj1 (merge_same_id_reads_last nat _
            "/d/CE_SC_C_1/annotation.h5ad" "/e/CE_SC_C_1/annotation.h5ad"
            "C_1" _ _ _)) _); reflexivity.
Defined.

(** X23.  A path in which [CE] is not found gives no identifier but keeps
    its place in the list of paths: placed before the path of a sample, it
    is the file that is read and labelled as that sample, and the
    sample's own file is not read. *)
Theorem merge_unnamed_path_takes_the_label (cell : Type)
  (stored : gmap string (list cell)) (p0 p1 n : string) :
  sample_id p0 = None -> sample_id p1 = Some n ->
  contains_char underscore n = true ->
  merge cell stored [p0; p1]
  = (let* cells := read_h5ad cell stored p0 in
     Ok (map (fun c => {| origin := c; sample := n;
                          treatment := control_if_C (first_token n);
                          week := nth 1 (tokens n) EmptyString |}) cells)) /\
  forall stored' : gmap string (list cell),
    stored' !! p0 = stored !! p0 ->
    merge cell stored' [p0; p1] = merge cell stored [p0; p1].
Proof.
  intros H0 H1 Hn.
  assert (Hm : forall st : gmap string (list cell),
             merge cell st [p0; p1]
             = (let* cells := read_h5ad cell st p0 in
                Ok (map (fun c => {| origin := c; sample := n;
                                     treatment := control_if_C (first_token n);
                                     week := nth 1 (tokens n) EmptyString |})
                        cells))).
  { intros st. unfold merge. rewrite derive_closed.
    cbn [omap list_omap]. rewrite H0, H1. cbn [forallb]. rewrite Hn.
    cbn [andb bind sample_ids sample_treatments sample_weeks map zip2 zip3].
    unfold dict_of. cbn [fold_left fst snd dict_set mapM load_sample].
    destruct (read_h5ad cell st p0) as [cells|e]; cbn [bind concat];
      [|reflexivity].
    now rewrite app_nil_r. }
  split; [apply Hm|].
  intros stored' Heq. rewrite !Hm. unfold read_h5ad. now rewrite Heq.
Qed.

Lemma merge_unnamed_path_takes_the_label_example :
  merge nat {[ "/d/foo/annotation.h5ad" := [1; 2]%nat;
               "/d/CE_SC_C_1/annotation.h5ad" := [3]%nat ]}
    ["/d/foo/annotation.h5ad"; "/d/CE_SC_C_1/annotation.h5ad"]
  = Ok [ {| origin := 1%nat; sample := "C_1"; treatment := "Control"; week := "1" |};
         {| origin := 2%nat; sample := "C_1"; treatment := "Control"; week := "1" |} ].
Proof.
  refine (eq_trans (proj1 (merge_unnamed_path_takes_the_label nat _
            "/d/foo/annotation.h5ad" "/d/CE_SC_C_1/annotation.h5ad"
            "C_1" _ _ _)) _); reflexivity.
Defined.

End DeriveFacts.

(* ===================================================================== *)
(** * Reference annotation: counts, duplicated ids, the reference model *)
(* ===================================================================== *)

Module AnnotationReportFacts.
Import Py PyFacts Annotation AnnotationReport.

Lemma filter_split_length {A : Type} (f : A -> bool) (l : list A) :
  (length (List.filter f l) + length (List.filter (fun x => negb (f x)) l)
   = length l)%nat.
Proof.
  induction l as [|a l IH]; [reflexivity|].
  cbn [List.filter]. destruct (f a); cbn [negb length]; lia.
Qed.

Lemma mem_app_l (x : string) (a b : list string) :
  mem x a = true -> mem x (a ++ b) = true.
Proof.
  rewrite !AnnotationFacts.mem_spec. intros H. apply elem_of_app. now left.
Qed.

Lemma has_dup_app_l (a b : list string) :
  has_dup a = true -> has_dup (a ++ b) = true.
Proof.
  induction a as [|x a IH]; [discriminate|].
  cbn [has_dup app]. intros [H|H]%orb_true_iff.
  - now rewrite (mem_app_l x a b H).
  - rewrite (IH H). apply orb_true_r.
Qed.

Section Report.

Context {entry : Type}.
Variable zero : entry.

(** X11.  When neither the query nor the reference repeats a gene id, the
    two numbers the notebook prints and the list it builds add up: the
    genes found in the query and the missing genes are, together, the
    genes needed for the mapping. *)
Theorem found_and_missing_add_up (reference_model_features : list feature)
  (adata_to_map : @anndata entry) :
  NoDup (map gene_id reference_model_features) ->
  NoDup (var_index adata_to_map) ->
  (genes_found reference_model_features adata_to_map
   + length (missing_genes reference_model_features adata_to_map)
   = genes_needed reference_model_features)%nat.
Proof.
  intros Hr Hq. unfold genes_found, missing_genes, genes_needed.
  rewrite <- (length_map gene_id reference_model_features).
  rewrite <- (filter_split_length
                (fun g => mem g (var_index adata_to_map))
                (map gene_id reference_model_features)).
  f_equal. apply Permutation_length, NoDup_Permutation.
  - now apply AnnotationFacts.filter_NoDup.
  - now apply AnnotationFacts.filter_NoDup.
  - intros g. rewrite !AnnotationFacts.filter_elem, !AnnotationFacts.mem_spec.
    tauto.
Qed.

(** X12.  A query that repeats a gene id is never augmented: whatever the
    reference, no result comes out, and when the steps before the
    selection by the reference index succeed, the selection raises
    [InvalidIndexError]. *)
Theorem augment_rejects_repeated_ids (reference_model_features : list feature)
  (adata : @anndata entry) :
  has_dup (var_index adata) = true ->
  (forall out, augment zero reference_model_features adata <> Ok out) /\
  (forall adata_to_map extra,
      counts_only adata = Ok adata_to_map ->
      missing_gene_adata zero reference_model_features adata
        (missing_genes reference_model_features adata_to_map) = Ok extra ->
      augment zero reference_model_features adata = Raise InvalidIndexError).
Proof.
  intros Hdup.
  assert (Hsel : forall adata_to_map extra,
             counts_only adata = Ok adata_to_map ->
             select_vars (concat_var adata_to_map extra)
               (map gene_id reference_model_features)
             = Raise InvalidIndexError).
  { intros q extra Hq. unfold counts_only in Hq.
    destruct (assoc "counts" (layers adata)) as [c|]; [|discriminate].
    injection Hq as <-. unfold select_vars, get_indexer, var_index, concat_var.
    cbn [var]. rewrite map_app.
    now rewrite (has_dup_app_l _ _ Hdup). }
  split.
  - intros out. unfold augment.
    destruct (counts_only adata) as [q|e] eqn:Hq; cbn [bind]; [|discriminate].
    destruct (missing_gene_adata zero reference_model_features adata
                (missing_genes reference_model_features q)) as [extra|e];
      cbn [bind]; [|discriminate].
    now rewrite (Hsel q extra eq_refl).
  - intros q extra Hq Hextra. unfold augment. rewrite Hq. cbn [bind].
    rewrite Hextra. cbn [bind]. now apply Hsel.
Qed.

End Report.

Lemma found_and_missing_add_up_example :
  (genes_found example_reference example_query
   + length (missing_genes example_reference example_query) = 3)%nat.
Proof.
  apply (found_and_missing_add_up example_reference example_query);
    apply NoDup_compute; vm_compute; reflexivity.
Defined.

Lemma augment_rejects_repeated_ids_example :
  augment 0 example_reference duplicated_query = Raise InvalidIndexError.
Proof.
  eapply (proj2 (augment_rejects_repeated_ids 0 example_reference
                   duplicated_query eq_refl)); reflexivity.
Defined.

Lemma model_cell_fresh (exists_ : gset string) :
  reference_model ∉ exists_ ->
  model_cell exists_ = [Mkdir reference_model] /\
  run_model_cell exists_ = {[ reference_model ]} ∪ exists_.
Proof.
  intros H. unfold run_model_cell, model_cell.
  rewrite (bool_decide_eq_false_2 _ H). split; reflexivity.
Qed.

Lemma model_cell_directory_only (exists_ : gset string) :
  reference_model ∈ exists_ -> model_pt ∉ exists_ ->
  run_model_cell exists_ = {[ model_pt ]} ∪ exists_.
Proof.
  intros Hd Hm. unfold run_model_cell, model_cell.
  rewrite (bool_decide_eq_true_2 _ Hd), (bool_decide_eq_false_2 _ Hm).
  reflexivity.
Qed.

Lemma model_cell_done (exists_ : gset string) :
  reference_model ∈ exists_ -> model_pt ∈ exists_ ->
  model_cell exists_ = [] /\ run_model_cell exists_ = exists_.
Proof.
  intros Hd Hm. unfold run_model_cell, model_cell.
  rewrite (bool_decide_eq_true_2 _ Hd), (bool_decide_eq_true_2 _ Hm).
  split; reflexivity.
Qed.

Lemma model_pt_is_not_the_directory : model_pt <> reference_model.
Proof. discriminate. Qed.

(** X13.  The cell that fetches the reference model creates the directory
    or downloads the model, never both: run where neither exists it leaves
    the directory without [model.pt], and only a second run downloads it;
    after two runs the model is there, whatever existed at first, and
    further runs ask for nothing. *)
Theorem model_needs_second_run (exists_ : gset string) :
  (reference_model ∉ exists_ -> model_pt ∉ exists_ ->
   model_cell exists_ = [Mkdir reference_model] /\
   model_pt ∉ run_model_cell exists_) /\
  model_pt ∈ run_model_cell (run_model_cell exists_) /\
  reference_model ∈ run_model_cell (run_model_cell exists_) /\
  model_cell (run_model_cell (run_model_cell exists_)) = [].
Proof.
  assert (Hnot : forall fs : gset string,
             model_pt ∉ fs -> model_pt ∉ ({[reference_model]} ∪ fs : gset string)).
  { intros fs Hm [H|H]%elem_of_union; [|contradiction].
    apply elem_of_singleton in H. discriminate H. }
  assert (Hhere : forall (x : string) (fs : gset string),
             x ∈ ({[x]} ∪ fs : gset string)).
  { intros x fs. apply elem_of_union_l, elem_of_singleton. reflexivity. }
  split.
  { intros Hd Hm. destruct (model_cell_fresh exists_ Hd) as [Hc ->].
    split; [exact Hc|]. now apply Hnot. }
  assert (Hboth : reference_model ∈ run_model_cell (run_model_cell exists_) /\
                  model_pt ∈ run_model_cell (run_model_cell exists_)).
  { destruct (decide (reference_model ∈ exists_)) as [Hd|Hd].
    - destruct (decide (model_pt ∈ exists_)) as [Hm|Hm].
      + destruct (model_cell_done exists_ Hd Hm) as [_ ->].
        destruct (model_cell_done exists_ Hd Hm) as [_ ->]. auto.
      + rewrite (model_cell_directory_only exists_ Hd Hm).
        assert (H1 : reference_model ∈ ({[model_pt]} ∪ exists_ : gset string))
          by now apply elem_of_union_r.
        destruct (model_cell_done _ H1 (Hhere model_pt exists_)) as [_ ->]. auto.
    - destruct (model_cell_fresh exists_ Hd) as [_ ->].
      pose proof (Hhere reference_model exists_) as H1.
      destruct (decide (model_pt ∈ exists_)) as [Hm|Hm].
      + assert (H2 : model_pt ∈ ({[reference_model]} ∪ exists_ : gset string))
          by now apply elem_of_union_r.
        destruct (model_cell_done _ H1 H2) as [_ ->]. auto.
      + rewrite (model_cell_directory_only _ H1 (Hnot _ Hm)).
        split; [now apply elem_of_union_r|apply Hhere]. }
  destruct Hboth as [Hd Hm]. split; [exact Hm|]. split; [exact Hd|].
  now apply model_cell_done.
Qed.

End AnnotationReportFacts.

(* ===================================================================== *)
(** * Grid points of the merged dimensionality reduction that coincide *)
(* ===================================================================== *)

Module MergedDimReducRunsFacts.
Import Py MergedDimReduc MergedDimReducRuns.

Section Runs.

Variable adata : Type.
Variable exec : call -> adata -> adata.

(** Printing leaves the dataset alone; assigning a layer to [X] twice in a
    row is assigning it once. *)
Hypothesis print_is_silent : forall msg a, exec (print msg) a = a.
Hypothesis assignment_is_idempotent :
  forall l a,
    exec (set_X_from_layer l) (exec (set_X_from_layer l) a)
    = exec (set_X_from_layer l) a.

Lemma run_app (c1 c2 : list call) (a : adata) :
  run adata exec (c1 ++ c2) a = run adata exec c2 (run adata exec c1 a).
Proof. apply fold_left_app. Qed.

(** The cell that was to undo the scaling is followed by a cell that
    assigns the layer to [X] unconditionally. *)
Lemma setup_ignores_scale (p : params) (a : adata) :
  run adata exec (setup_cells p) a
  = run adata exec
      [read_h5ad (input_file p); set_X_from_layer (layer_to_use p); pp_scale;
       tl_score_genes_cell_cycle; set_cell_cycle_diff;
       set_X_from_layer (layer_to_use p); r_variance_explained_by_phase] a.
Proof.
  unfold setup_cells.
  destruct (truthy (scale_data_before_pca p)); cbn [negb app run fold_left];
    now rewrite print_is_silent, ?assignment_is_idempotent.
Qed.

(** X14.  Two runs of the notebook that agree on the input file, the
    layer, the cell-cycle method, the number of components and
    [umap_n_neighbors], and on whether [genes_for_pca] is [all], leave the
    same dataset: [scale_data_before_pca] changes a printed line only,
    because [X] is assigned from the layer again before it is used, and
    [globally_highly_variable] and [highly_variable_per_sample] are the
    same computation. *)
Theorem result_ignores_scale_and_gene_choice (p1 p2 : params) (a : adata) :
  input_file p1 = input_file p2 ->
  layer_to_use p1 = layer_to_use p2 ->
  cc_method p1 = cc_method p2 ->
  pca_n_components p1 = pca_n_components p2 ->
  umap_n_neighbors p1 = umap_n_neighbors p2 ->
  eq_str (genes_for_pca p1) "all" = eq_str (genes_for_pca p2) "all" ->
  run adata exec (notebook p1) a = run adata exec (notebook p2) a.
Proof.
  intros Hi Hl Hc Hp Hu Hg. unfold notebook.
  assert (He : embedding_cell p1 = embedding_cell p2)
    by (unfold embedding_cell; now rewrite Hp, Hu, Hg).
  assert (Hs : gene_selection_cell p1 = gene_selection_cell p2)
    by (unfold gene_selection_cell; now rewrite Hc).
  now rewrite !run_app, !setup_ignores_scale, Hi, Hl, He, Hs.
Qed.

End Runs.

Lemma result_ignores_scale_and_gene_choice_recorded :
  run traced trace
    (notebook (with_scale_data_before_pca (VBool false) recorded_params))
    {| in_X := "X"; history := [] |}
  = run traced trace
      (notebook (with_genes_for_pca (VStr "globally_highly_variable")
                   recorded_params))
      {| in_X := "X"; history := [] |}.
Proof.
  apply (result_ignores_scale_and_gene_choice traced trace); reflexivity.
Defined.

End MergedDimReducRunsFacts.

(* ===================================================================== *)
(** * The distance logs *)
(* ===================================================================== *)

Module DistanceLogFacts.
Import Py PyFacts PyStr MergedDimReduc DistanceLog.

Lemma days_at_least_one (now t : Z) : (1 <=? days now t) = true <-> day <= now - t.
Proof.
  unfold days. rewrite Z.leb_le. split.
  - intros H. destruct (Z_lt_le_dec (now - t) day) as [Hlt|Hle]; [|exact Hle].
    exfalso. assert ((now - t) / day < 1).
    { apply Z.div_lt_upper_bound; [reflexivity|]. now rewrite Z.mul_1_r. }
    lia.
  - intros H. apply Z.div_le_lower_bound; [reflexivity|].
    now rewrite Z.mul_1_r.
Qed.

Lemma fold_min_spec (l : list Z) (a : Z) :
  fold_left Z.min l a <= a /\
  (forall x, x ∈ l -> fold_left Z.min l a <= x) /\
  (fold_left Z.min l a = a \/ fold_left Z.min l a ∈ l).
Proof.
  revert a. induction l as [|x l IH]; intros a; cbn [fold_left].
  - split; [lia|]. split; [intros x H; inversion H|now left].
  - destruct (IH (Z.min a x)) as (H1 & H2 & H3). split; [lia|]. split.
    + intros y [->|Hy]%elem_of_cons; [lia|now apply H2].
    + destruct H3 as [H3|H3].
      * rewrite H3. destruct (Z.min_spec a x) as [[_ ->]|[_ ->]];
          [now left|right; apply list_elem_of_here].
      * right. now apply list_elem_of_further.
Qed.

(** The oldest date of a log is the date of one of its lines and no line
    is older. *)
Lemma oldest_spec (rs : list row) (first : Z) :
  oldest rs = Some first ->
  (exists r, r ∈ rs /\ date r = first) /\ forall r, r ∈ rs -> first <= date r.
Proof.
  destruct rs as [|r0 rs]; [discriminate|]. cbn [oldest]. intros [= <-].
  destruct (fold_min_spec (map date rs) (date r0)) as (H1 & H2 & H3). split.
  - destruct H3 as [H3|H3].
    + exists r0. split; [apply list_elem_of_here|now rewrite H3].
    + apply list_elem_of_In, in_map_iff in H3 as (r & Hr & Hin).
      exists r. split; [now apply list_elem_of_further, list_elem_of_In|exact Hr].
  - intros r [->|Hr]%elem_of_cons; [exact H1|].
    apply H2, list_elem_of_In, in_map. now apply list_elem_of_In.
Qed.

Lemma fold_max_spec (l : list Z) (a : Z) :
  a <= fold_left Z.max l a /\
  (forall x, x ∈ l -> x <= fold_left Z.max l a) /\
  (fold_left Z.max l a = a \/ fold_left Z.max l a ∈ l).
Proof.
  revert a. induction l as [|x l IH]; intros a; cbn [fold_left].
  - split; [lia|]. split; [intros x H; inversion H|now left].
  - destruct (IH (Z.max a x)) as (H1 & H2 & H3). split; [lia|]. split.
    + intros y [->|Hy]%elem_of_cons; [lia|now apply H2].
    + destruct H3 as [H3|H3].
      * rewrite H3. destruct (Z.max_spec a x) as [[_ ->]|[_ ->]];
          [right; apply list_elem_of_here|now left].
      * right. now apply list_elem_of_further.
Qed.

(** The newest date of a log is the date of one of its lines. *)
Lemma newest_spec (rs : list row) (last : Z) :
  newest rs = Some last -> exists r, r ∈ rs /\ date r = last.
Proof.
  destruct rs as [|r0 rs]; [discriminate|]. cbn [newest]. intros [= <-].
  destruct (fold_max_spec (map date rs) (date r0)) as (_ & _ & [H3|H3]).
  - exists r0. split; [apply list_elem_of_here|now rewrite H3].
  - apply list_elem_of_In, in_map_iff in H3 as (r & Hr & Hin).
    exists r. split; [now apply list_elem_of_further, list_elem_of_In|exact Hr].
Qed.

(** X15.  On a log that holds lines, each written with a fraction of a
    second and none dated after this run, the closing lines of a distance
    cell keep the log within one day: when the oldest line is a day old or
    more the log is replaced by the lines of this run, every earlier line
    being dropped, and otherwise the lines of this run are added under the
    header already there; either way any two dates of the log differ by
    less than a day. *)
Theorem log_spans_less_than_a_day (now stamp : Z) (df df_old : table) :
  regular df_old = true ->
  rows df_old <> [] ->
  (forall r, r ∈ rows df_old -> has_fraction (date r) = true) ->
  (forall r, r ∈ rows df_old -> date r <= stamp) ->
  stamp <= now ->
  (forall r, r ∈ rows df -> date r = stamp) ->
  exists t,
    to_csv_log now df (Some df_old) = Done t /\
    (forall r r', r ∈ rows t -> r' ∈ rows t -> date r' - date r < day) /\
    ((exists r, r ∈ rows df_old /\ day <= now - date r) -> t = df) /\
    ((forall r, r ∈ rows df_old -> now - date r < day) ->
     header t = header df_old /\ rows t = rows df_old ++ rows df).
Proof.
  intros Hreg Hne Hfrac Hold Hclock Hdf. unfold to_csv_log. rewrite Hreg.
  destruct (oldest (rows df_old)) as [first|] eqn:Hfirst;
    [|destruct (rows df_old); [congruence|discriminate]].
  destruct (newest (rows df_old)) as [last|] eqn:Hlast;
    [|destruct (rows df_old); [congruence|discriminate]].
  destruct (oldest_spec _ _ Hfirst) as ((r0 & Hr0 & Hd0) & Hmin).
  destruct (newest_spec _ _ Hlast) as (r1 & Hr1 & Hd1).
  assert (Hf1 : has_fraction last = true) by (rewrite <- Hd1; auto).
  assert (Hf0 : has_fraction first = true) by (rewrite <- Hd0; auto).
  rewrite Hf1, Hf0. cbn [andb].
  assert (Hday : 0 < day) by reflexivity.
  destruct (1 <=? days now first) eqn:E.
  - apply days_at_least_one in E. exists df. split; [reflexivity|].
    split; [|split].
    + intros r r' Hr Hr'. rewrite (Hdf r Hr), (Hdf r' Hr'). lia.
    + reflexivity.
    + intros Hall. specialize (Hall r0 Hr0). lia.
  - assert (Hlt : now - first < day).
    { destruct (Z_lt_le_dec (now - first) day) as [Hlt|Hle]; [exact Hlt|].
      apply days_at_least_one in Hle. congruence. }
    eexists. split; [reflexivity|]. cbn [rows header].
    assert (Hin : forall r, r ∈ rows df_old ++ rows df ->
                            first <= date r <= stamp).
    { intros r [Hr|Hr]%elem_of_app.
      - split; [now apply Hmin|now apply Hold].
      - rewrite (Hdf r Hr). specialize (Hold r0 Hr0). lia. }
    split; [|split].
    + intros r r' Hr Hr'. pose proof (Hin r Hr). pose proof (Hin r' Hr'). lia.
    + intros (r & Hr & Hge). specialize (Hmin r Hr). lia.
    + intros _. split; reflexivity.
Qed.

Lemma log_spans_less_than_a_day_example :
  to_csv_log 90000000001 (onoff_frame (fun _ => EmptyString) 90000000001
                            "1.5" "2.5" MergedDimReducRuns.recorded_params)
    (Some (onoff_frame (fun _ => EmptyString) 1 "1.0" "2.0"
             MergedDimReducRuns.recorded_params))
  = Done (onoff_frame (fun _ => EmptyString) 90000000001 "1.5" "2.5"
            MergedDimReducRuns.recorded_params).
Proof.
  destruct (log_spans_less_than_a_day 90000000001 90000000001
              (onoff_frame (fun _ => EmptyString) 90000000001 "1.5" "2.5"
                 MergedDimReducRuns.recorded_params)
              (onoff_frame (fun _ => EmptyString) 1 "1.0" "2.0"
                 MergedDimReducRuns.recorded_params))
    as (t & Ht & _ & Hreplace & _).
  - reflexivity.
  - discriminate.
  - intros r Hr. cbn [onoff_frame rows] in Hr.
    repeat (apply elem_of_cons in Hr as [->|Hr]; [reflexivity|]).
    inversion Hr.
  - intros r Hr. cbn [onoff_frame rows] in Hr.
    repeat (apply elem_of_cons in Hr as [->|Hr]; [cbn [date]; lia|]).
    inversion Hr.
  - lia.
  - intros r Hr. cbn [onoff_frame rows] in Hr.
    repeat (apply elem_of_cons in Hr as [->|Hr]; [reflexivity|]).
    inversion Hr.
  - rewrite Ht. f_equal. apply Hreplace. eexists. split.
    + cbn [onoff_frame rows]. apply list_elem_of_here.
    + cbn [date]. unfold day. lia.
Defined.

(** ** The name of the second log *)

Lemma replace_all_from_absent (pat repl s : string) :
  occurs pat s = false -> replace_all_from pat repl O s = s.
Proof.
  induction s as [|c s IH]; [reflexivity|].
  cbn [occurs replace_all_from]. intros [-> H]%orb_false_iff.
  now rewrite (IH H).
Qed.

Lemma replace_all_from_length (pat repl : string) (s : string) (k : nat) :
  (0 < String.length pat <= String.length repl)%nat ->
  (k <= String.length s)%nat ->
  (String.length s <= String.length (replace_all_from pat repl k s) + k)%nat.
Proof.
  intros Hlen. revert k. induction s as [|c s IH]; intros k Hk.
  - cbn [String.length replace_all_from] in *. lia.
  - cbn [replace_all_from String.length] in *. destruct k as [|k].
    + destruct (starts_with pat (String c s)) eqn:E.
      * rewrite append_length.
        destruct (NamingFacts.starts_with_inv _ _ E) as [r Hr].
        assert (Hs : String.length (String c s)
                     = (String.length pat + String.length r)%nat)
          by (rewrite Hr; apply append_length).
        cbn [String.length] in Hs.
        specialize (IH (Nat.pred (String.length pat))). lia.
      * cbn [String.length]. specialize (IH O). lia.
    + specialize (IH k). lia.
Qed.

Lemma replace_all_from_grows (pat repl s : string) :
  (0 < String.length pat < String.length repl)%nat ->
  occurs pat s = true ->
  (String.length s < String.length (replace_all_from pat repl O s))%nat.
Proof.
  intros Hlen. induction s as [|c s IH].
  - cbn [occurs]. destruct pat; [cbn in Hlen; lia|discriminate].
  - cbn [occurs replace_all_from].
    destruct (starts_with pat (String c s)) eqn:E.
    + intros _. rewrite append_length.
      destruct (NamingFacts.starts_with_inv _ _ E) as [r Hr].
      assert (Hs : String.length (String c s)
                   = (String.length pat + String.length r)%nat)
        by (rewrite Hr; apply append_length).
      cbn [String.length] in Hs |- *.
      pose proof (replace_all_from_length pat repl s
                    (Nat.pred (String.length pat))) as H.
      lia.
    + cbn [orb String.length]. intros H. specialize (IH H). lia.
Qed.

(** X16.  The name of the second log is the name of the first one with
    every [week1_samples] replaced: it is another name exactly when
    [tsv_file] holds [week1_samples], and for every other [tsv_file], the
    one of the parameter cell among them, both distance cells write to
    the same file. *)
Theorem tsv_file2_is_tsv_file (tsv_file : string) :
  (occurs "week1_samples" tsv_file = false <-> tsv_file2 tsv_file = tsv_file) /\
  tsv_file2 recorded_tsv_file = recorded_tsv_file.
Proof.
  split; [|reflexivity]. split.
  - intros H. unfold tsv_file2, replace_all. now apply replace_all_from_absent.
  - intros H. destruct (occurs "week1_samples" tsv_file) eqn:E; [|reflexivity].
    exfalso. apply (f_equal String.length) in H.
    pose proof (replace_all_from_grows "week1_samples"
                  "week1_and_5_onoff_samples.tsv" tsv_file) as Hg.
    unfold tsv_file2, replace_all in H. cbn [String.length] in Hg.
    specialize (Hg ltac:(lia) E). lia.
Qed.

Section Collision.

Variable cell_text : value -> string.

(** X17.  Started without a log, with a [tsv_file] that does not hold
    [week1_samples], the two distance cells of one run write to a single
    file.  When the stamp of the first cell has a fraction of a second, the
    file ends up with the header of the first cell, with its twelve
    columns, over the two lines of the first cell and the two lines of the
    second, which have ten cells each; no other file is touched.  When
    the stamp falls on a whole second, the second cell cannot parse the
    date the first one wrote and raises [ValueError]. *)
Theorem both_logs_share_a_file (tsv_file : string) (stamp1 now1 stamp2 now2 : Z)
  (umap1 pca1 : string * string * string) (umap2 pca2 : string) (p : params)
  (st : gmap string table) :
  occurs "week1_samples" tsv_file = false ->
  st !! tsv_file = None ->
  now2 - stamp1 < day ->
  (has_fraction stamp1 = true ->
   exists t,
     distance_cells tsv_file now1 now2
       (week1_frame cell_text stamp1 umap1 pca1 p)
       (onoff_frame cell_text stamp2 umap2 pca2 p) st
     = Done (<[tsv_file := t]> st) /\
     header t = header (week1_frame cell_text stamp1 umap1 pca1 p) /\
     length (header t) = 12%nat /\
     rows t = rows (week1_frame cell_text stamp1 umap1 pca1 p)
              ++ rows (onoff_frame cell_text stamp2 umap2 pca2 p) /\
     Forall (fun r => length (others r) = 9%nat)
            (rows (onoff_frame cell_text stamp2 umap2 pca2 p)) /\
     regular t = false) /\
  (has_fraction stamp1 = false ->
   distance_cells tsv_file now1 now2
     (week1_frame cell_text stamp1 umap1 pca1 p)
     (onoff_frame cell_text stamp2 umap2 pca2 p) st
   = ValueError).
Proof.
  intros Hocc Hnone Hclock.
  assert (Hname : tsv_file2 tsv_file = tsv_file)
    by (unfold tsv_file2, replace_all; now apply replace_all_from_absent).
  assert (Hcells :
    distance_cells tsv_file now1 now2
      (week1_frame cell_text stamp1 umap1 pca1 p)
      (onoff_frame cell_text stamp2 umap2 pca2 p) st
    = if has_fraction stamp1 then
        Done (<[tsv_file :=
                  {| header := header (week1_frame cell_text stamp1 umap1 pca1 p);
                     rows := rows (week1_frame cell_text stamp1 umap1 pca1 p)
                             ++ rows (onoff_frame cell_text stamp2 umap2 pca2 p) |}]>
                st)
      else ValueError).
  { unfold distance_cells, log_cell. rewrite Hnone. cbn [to_csv_log].
    rewrite Hname, lookup_insert_eq. cbn [to_csv_log].
    replace (regular (week1_frame cell_text stamp1 umap1 pca1 p)) with true
      by reflexivity.
    cbn [week1_frame rows oldest newest map fold_left date].
    replace (Z.min stamp1 stamp1) with stamp1 by lia.
    replace (Z.max stamp1 stamp1) with stamp1 by lia.
    destruct (has_fraction stamp1); cbn [andb]; [|reflexivity].
    destruct (1 <=? days now2 stamp1) eqn:E.
    { apply days_at_least_one in E. lia. }
    now rewrite insert_insert_eq. }
  rewrite Hcells. split.
  - intros ->. eexists. split; [reflexivity|]. cbn [header rows].
    split; [reflexivity|]. split; [reflexivity|]. split; [reflexivity|].
    split; [|reflexivity]. repeat constructor.
  - intros ->. reflexivity.
Qed.

End Collision.

Lemma both_logs_share_a_file_recorded :
  (exists t,
      distance_cells recorded_tsv_file 5 10
        (week1_frame (fun _ => EmptyString) 1 ("1", "2", "3") ("4", "5", "6")
           MergedDimReducRuns.recorded_params)
        (onoff_frame (fun _ => EmptyString) 7 "8" "9"
           MergedDimReducRuns.recorded_params) ∅
      = Done (<[recorded_tsv_file := t]> ∅) /\
      regular t = false) /\
  distance_cells recorded_tsv_file 5 10
    (week1_frame (fun _ => EmptyString) 0 ("1", "2", "3") ("4", "5", "6")
       MergedDimReducRuns.recorded_params)
    (onoff_frame (fun _ => EmptyString) 7 "8" "9"
       MergedDimReducRuns.recorded_params) ∅
  = ValueError.
Proof.
  split.
  - destruct (both_logs_share_a_file (fun _ => EmptyString) recorded_tsv_file
                1 5 7 10 ("1", "2", "3") ("4", "5", "6") "8" "9"
                MergedDimReducRuns.recorded_params ∅)
      as [Hgood _]; [reflexivity|reflexivity|reflexivity|].
    destruct (Hgood eq_refl) as (t & Ht & _ & _ & _ & _ & Hr).
    exists t. split; [exact Ht|exact Hr].
  - apply (both_logs_share_a_file (fun _ => EmptyString) recorded_tsv_file
             0 5 7 10 ("1", "2", "3") ("4", "5", "6") "8" "9"
             MergedDimReducRuns.recorded_params ∅); reflexivity.
Defined.

End DistanceLogFacts.

(* ===================================================================== *)
(** * The layers the per-sample notebooks hand to each other *)
(* ===================================================================== *)

Module StageDataFacts.
Import Py PyFacts StageData.

Lemma log1p_norm_of_inj (c c' : string) :
  log1p_norm_of c = log1p_norm_of c' -> c = c'.
Proof.
  unfold log1p_norm_of. intros H.
  now apply append_inv_head, append_inv_head in H.
Qed.

Lemma scran_normalization_of_inj (c c' : string) :
  scran_normalization_of c = scran_normalization_of c' -> c = c'.
Proof.
  unfold scran_normalization_of. intros H.
  now apply append_inv_head, append_inv_head in H.
Qed.

(** The three names differ from one another, whatever the count layers,
    and none of them is the name of the count layer it is made from. *)
Lemma layer_names_distinct (c c' : string) :
  log1p_norm_of c <> scran_normalization_of c' /\
  log1p_norm_of c <> analytic_pearson_residuals_of c' /\
  scran_normalization_of c <> analytic_pearson_residuals_of c' /\
  log1p_norm_of c <> c /\
  scran_normalization_of c <> c /\
  analytic_pearson_residuals_of c <> c.
Proof.
  repeat split; try discriminate; intros H; apply (f_equal String.length) in H;
    unfold log1p_norm_of, scran_normalization_of,
      analytic_pearson_residuals_of in H;
    rewrite !append_length in H; cbn [String.length] in H; lia.
Qed.

Section Notebooks.

Variable matrix : Type.
Variable shifted_logarithm : matrix -> matrix.
Variable scran_logarithm : matrix -> matrix.
Variable pearson_residuals : matrix -> matrix.

#[local] Abbreviation normalization :=
  (normalization matrix shifted_logarithm scran_logarithm pearson_residuals).
#[local] Abbreviation dimensionality_reduction :=
  (dimensionality_reduction matrix).
#[local] Abbreviation clustering := (clustering matrix).

Lemma normalization_layers (c : string) (a a' : adata matrix) (x : matrix) :
  layers a !! c = Some x ->
  normalization c a = Ok a' ->
  X a' = x /\
  layers a' !! c = Some x /\
  layers a' !! log1p_norm_of c = Some (shifted_logarithm x) /\
  layers a' !! scran_normalization_of c = Some (scran_logarithm x) /\
  layers a' !! analytic_pearson_residuals_of c = Some (pearson_residuals x) /\
  forall k, k <> log1p_norm_of c -> k <> scran_normalization_of c ->
            k <> analytic_pearson_residuals_of c ->
            layers a' !! k = layers a !! k.
Proof.
  intros Hx. unfold StageData.normalization, layer. rewrite Hx. cbn [bind].
  destruct (column (obs a) "total_counts"); cbn [bind]; [|discriminate].
  intros [= <-]. cbn [X layers].
  destruct (layer_names_distinct c c) as (H1 & H2 & H3 & H4 & H5 & H6).
  split; [reflexivity|]. split.
  { rewrite !lookup_insert_ne by congruence. exact Hx. }
  split.
  { rewrite !lookup_insert_ne by congruence. apply lookup_insert_eq. }
  split.
  { rewrite lookup_insert_ne by congruence. apply lookup_insert_eq. }
  split; [apply lookup_insert_eq|].
  intros k Hk1 Hk2 Hk3. now rewrite !lookup_insert_ne by congruence.
Qed.

(** X18.  Given a dataset that has the count layer and the column
    [total_counts], the normalization notebook adds the three layers named
    after the count layer and the column [size_factors]; it leaves the
    count layer and every layer of another name as they were, and [X] is
    the count layer.  Without the count layer it stops with [KeyError] on
    its name. *)
Theorem normalization_keeps_the_counts (c : string) (a : adata matrix) :
  (forall x, layers a !! c = Some x -> "total_counts" ∈ obs a ->
     exists a',
       normalization c a = Ok a' /\
       X a' = x /\
       layers a' !! c = Some x /\
       layers a' !! log1p_norm_of c = Some (shifted_logarithm x) /\
       layers a' !! scran_normalization_of c = Some (scran_logarithm x) /\
       layers a' !! analytic_pearson_residuals_of c = Some (pearson_residuals x) /\
       (forall k, k <> log1p_norm_of c -> k <> scran_normalization_of c ->
                  k <> analytic_pearson_residuals_of c ->
                  layers a' !! k = layers a !! k) /\
       "size_factors" ∈ obs a') /\
  (layers a !! c = None -> normalization c a = Raise (KeyError c)).
Proof.
  split.
  - intros x Hx Hobs.
    assert (Hn : exists a', normalization c a = Ok a' /\ "size_factors" ∈ obs a').
    { unfold StageData.normalization, layer, column. rewrite Hx. cbn [bind].
      rewrite (bool_decide_eq_true_2 _ Hobs). cbn [bind].
      eexists. split; [reflexivity|]. cbn [obs].
      apply elem_of_union_l, elem_of_singleton. reflexivity. }
    destruct Hn as (a' & Hn & Hs). exists a'. split; [exact Hn|].
    destruct (normalization_layers c a a' x Hx Hn) as (? & ? & ? & ? & ? & ?).
    auto 10.
  - intros Hx. unfold StageData.normalization, layer. now rewrite Hx.
Qed.

(** X19.  After a normalization that succeeded, the notebooks for
    dimensionality reduction and clustering, run with the same
    [count_layer_to_use] on a dataset whose features carry
    [highly_deviant], find the layers they read: [X] is the shifted
    logarithm for the first and the scran normalization for the second, and
    neither adds or changes a layer.  Run with another count layer [c2]
    whose normalization was never computed, dimensionality reduction stops
    with [KeyError] on the layer name. *)
Theorem normalization_feeds_the_later_stages (c : string) (a a1 : adata matrix)
  (x : matrix) :
  layers a !! c = Some x ->
  "highly_deviant" ∈ var a ->
  normalization c a = Ok a1 ->
  (exists a2 a3,
      dimensionality_reduction c a1 = Ok a2 /\
      clustering c a2 = Ok a3 /\
      X a2 = shifted_logarithm x /\
      X a3 = scran_logarithm x /\
      layers a3 = layers a1 /\
      layers a3 !! c = Some x) /\
  (forall c2, c2 <> c -> layers a !! log1p_norm_of c2 = None ->
     dimensionality_reduction c2 a1 = Raise (KeyError (log1p_norm_of c2))).
Proof.
  intros Hx Hvar Hn.
  destruct (normalization_layers c a a1 x Hx Hn)
    as (HX & Hc & Hlog & Hscran & Hpearson & Hother).
  assert (Hcols : var a1 = var a /\ "total_counts" ∈ obs a1).
  { unfold StageData.normalization, layer, column in Hn. rewrite Hx in Hn.
    cbn [bind] in Hn.
    destruct (decide ("total_counts" ∈ obs a)) as [Ht|Ht].
    - rewrite (bool_decide_eq_true_2 _ Ht) in Hn. cbn [bind] in Hn.
      injection Hn as <-. cbn [var obs]. split; [reflexivity|].
      now apply elem_of_union_r.
    - rewrite (bool_decide_eq_false_2 _ Ht) in Hn. discriminate Hn. }
  destruct Hcols as [Hv Ht]. split.
  - unfold StageData.dimensionality_reduction, layer, column.
    rewrite Hlog, Hv. cbn [bind].
    rewrite (bool_decide_eq_true_2 _ Hvar), (bool_decide_eq_true_2 _ Ht).
    cbn [bind]. eexists. eexists. split; [reflexivity|].
    unfold StageData.clustering, layer. cbn [layers]. rewrite Hscran.
    cbn [bind]. split; [reflexivity|]. cbn [X layers]. auto.
  - intros c2 Hne Hnone. unfold StageData.dimensionality_reduction, layer.
    rewrite Hother, Hnone; [reflexivity| | |].
    + intros H. now apply log1p_norm_of_inj in H.
    + apply (layer_names_distinct c2 c).
    + apply (layer_names_distinct c2 c).
Qed.

End Notebooks.

Lemma normalization_feeds_the_later_stages_example :
  exists a1 a2 a3,
    normalization string (fun x => "log1p " +:+ x) (fun x => "scran " +:+ x)
      (fun x => "pearson " +:+ x) "soupX_counts" after_feature_selection = Ok a1 /\
    dimensionality_reduction string "soupX_counts" a1 = Ok a2 /\
    clustering string "soupX_counts" a2 = Ok a3 /\
    X a3 = "scran soupX_counts" /\
    dimensionality_reduction string "counts" a1
    = Raise (KeyError "log1p_norm_of_counts").
Proof.
  destruct (normalization string (fun x => "log1p " +:+ x)
              (fun x => "scran " +:+ x) (fun x => "pearson " +:+ x)
              "soupX_counts" after_feature_selection) as [a1|e] eqn:E;
    [|vm_compute in E; discriminate E].
  destruct (normalization_feeds_the_later_stages string
              (fun x => "log1p " +:+ x) (fun x => "scran " +:+ x)
              (fun x => "pearson " +:+ x)
              "soupX_counts" after_feature_selection a1 "soupX_counts")
    as ((a2 & a3 & H2 & H3 & _ & HX & _) & Hother).
  - reflexivity.
  - apply elem_of_singleton. reflexivity.
  - exact E.
  - exists a1, a2, a3. split; [reflexivity|]. split; [exact H2|].
    split; [exact H3|]. split; [exact HX|].
    apply (Hother "counts"); [discriminate|reflexivity].
Defined.

End StageDataFacts.

(* ===================================================================== *)
(** * Notebooks run in sequence and side by side *)
(* ===================================================================== *)

Module StagesRunsFacts.
Import Py PyFacts Stages StagesRuns.

Section Sequence.

Variable artifact : Type.
Variable dim_reduction_assign : string -> artifact -> result artifact.
Variable dim_reduction_cells : string -> artifact -> result artifact.
Variable clustering_assign : string -> artifact -> result artifact.
Variable clustering_cells : string -> artifact -> result artifact.
Variable normalization_cells : string -> artifact -> result artifact.

#[local] Abbreviation stage_cells :=
  (stage_cells artifact dim_reduction_assign dim_reduction_cells
     clustering_assign clustering_cells normalization_cells).
#[local] Abbreviation run_notebook :=
  (run_notebook artifact dim_reduction_assign dim_reduction_cells
     clustering_assign clustering_cells normalization_cells).
#[local] Abbreviation run_stages :=
  (run_stages artifact dim_reduction_assign dim_reduction_cells
     clustering_assign clustering_cells normalization_cells).
#[local] Abbreviation compose_cells :=
  (compose_cells artifact dim_reduction_assign dim_reduction_cells
     clustering_assign clustering_cells normalization_cells).

(** How a notebook ends, by what its cells do. *)
Lemma run_notebook_cases (s : stage) (input_file layer : string) (g : generator)
  (st : gmap string (file artifact)) (a : artifact) :
  st !! input_file = Some (Complete a) ->
  match stage_cells s layer a with
  | Ok a' =>
      run_notebook s input_file layer g st
      = (<[input_file := Complete a']>
           (match s with
            | Normalization => delete (tmp_name input_file g) st
            | _ => st
            end), Ok tt)
  | Raise e =>
      exists st', run_notebook s input_file layer g st = (st', Raise e) /\
                  forall p, p <> input_file -> st' !! p = st !! p
  end.
Proof.
  intros Hin.
  rewrite (StagesFacts.run_notebook_store artifact dim_reduction_assign
             dim_reduction_cells clustering_assign clustering_cells
             normalization_cells s input_file layer g st a Hin).
  unfold Stages.stage_cells. destruct s; cbn [Stages.assign bind].
  - destruct (dim_reduction_assign layer a) as [x|e]; cbn [bind];
      [|exists st; now split].
    destruct (Stages.cells _ _ _ _ DimensionalityReduction layer x) as [a'|e];
      [reflexivity|].
    eexists. split; [reflexivity|]. intros p Hp. now apply lookup_insert_ne.
  - destruct (clustering_assign layer a) as [x|e]; cbn [bind];
      [|exists st; now split].
    destruct (Stages.cells _ _ _ _ Clustering layer x) as [a'|e];
      [reflexivity|].
    eexists. split; [reflexivity|]. intros p Hp. now apply lookup_insert_ne.
  - destruct (Stages.cells _ _ _ _ Normalization layer a) as [a'|e];
      [reflexivity|]. exists st. now split.
Qed.

(** X20.  Notebooks run one after the other on the same input path
    compose.  The sequence ends as the composed cells of the stages end:
    with the error of the first cell that raises, or without error.  When
    no cell raises, the input path ends up holding the dataset that went
    through the cells of every stage in order and no temporary file of a
    normalization is left.  Either way every path other than the input path
    and the temporary paths is as before. *)
Theorem stages_compose (stages : list (stage * generator))
  (input_file layer : string) (st : gmap string (file artifact)) (a : artifact) :
  st !! input_file = Some (Complete a) ->
  (run_stages stages input_file layer st).2
  = match compose_cells stages layer a with
    | Ok _ => Ok tt
    | Raise e => Raise e
    end /\
  (forall a', compose_cells stages layer a = Ok a' ->
     (run_stages stages input_file layer st).1 !! input_file
     = Some (Complete a') /\
     forall p, p ∈ tmp_paths stages input_file ->
               (run_stages stages input_file layer st).1 !! p = None) /\
  (forall p, p <> input_file -> p ∉ tmp_paths stages input_file ->
             (run_stages stages input_file layer st).1 !! p = st !! p).
Proof.
  revert st a. induction stages as [|[s g] stages IH]; intros st a Hin.
  - cbn [StagesRuns.run_stages StagesRuns.compose_cells fst snd].
    split; [reflexivity|]. split; [|reflexivity].
    intros a' [= <-]. split; [exact Hin|]. intros p Hp. inversion Hp.
  - cbn [StagesRuns.run_stages StagesRuns.compose_cells].
    pose proof (run_notebook_cases s input_file layer g st a Hin) as Hnb.
    destruct (stage_cells s layer a) as [a1|e]; cbn [bind].
    + rewrite Hnb.
      set (st1 := <[input_file := Complete a1]>
                    (match s with
                     | Normalization => delete (tmp_name input_file g) st
                     | _ => st
                     end)).
      assert (Hin1 : st1 !! input_file = Some (Complete a1))
        by apply lookup_insert_eq.
      assert (Hkeep : forall p, p <> input_file ->
                 st1 !! p = match s with
                            | Normalization =>
                                if decide (p = tmp_name input_file g) then None
                                else st !! p
                            | _ => st !! p
                            end).
      { intros p Hp. unfold st1. rewrite lookup_insert_ne by congruence.
        destruct s; try reflexivity.
        destruct (decide (p = tmp_name input_file g)) as [->|Hne];
          [apply lookup_delete_eq|now apply lookup_delete_ne]. }
      destruct (IH st1 a1 Hin1) as (Hend & Hok & Hother).
      split; [exact Hend|]. split.
      * intros a' Ha'. destruct (Hok a' Ha') as [Hres Htmp].
        split; [exact Hres|]. intros p Hp.
        cbn [tmp_paths flat_map fst snd] in Hp.
        destruct (decide (p ∈ tmp_paths stages input_file)) as [Hl|Hl];
          [now apply Htmp|].
        apply elem_of_app in Hp as [Hp|Hp]; [|contradiction].
        destruct s; try (inversion Hp; fail).
        apply list_elem_of_singleton in Hp as ->.
        rewrite Hother; [|apply StagesFacts.tmp_name_fresh|exact Hl].
        rewrite Hkeep by apply StagesFacts.tmp_name_fresh.
        now rewrite decide_True.
      * intros p Hp Hnot. cbn [tmp_paths flat_map fst snd] in Hnot.
        apply not_elem_of_app in Hnot as [Hhere Hlater].
        rewrite Hother by assumption. rewrite Hkeep by exact Hp.
        destruct s; try reflexivity.
        rewrite decide_False; [reflexivity|].
        intros ->. apply Hhere, list_elem_of_here.
    + destruct Hnb as (st' & -> & Hframe). cbn [fst snd].
      split; [reflexivity|]. split; [intros a'; discriminate|].
      intros p Hp _. now apply Hframe.
Qed.

End Sequence.

(** The theorem at work: the three stages in the order of the pipeline, and
    the same with a clustering notebook whose layer is missing. *)
Lemma stages_compose_pipeline :
  (run_stages nat finding_assign counting_cells finding_assign counting_cells
     counting_cells
     [(Normalization, zeros_generator); (DimensionalityReduction, zeros_generator);
      (Clustering, zeros_generator)]
     "sample/quality_control.h5ad" "soupX_counts" one_sample_store).1
    !! "sample/quality_control.h5ad" = Some (Complete 3%nat) /\
  (run_stages nat finding_assign counting_cells missing_layer counting_cells
     counting_cells
     [(Normalization, zeros_generator); (DimensionalityReduction, zeros_generator);
      (Clustering, zeros_generator)]
     "sample/quality_control.h5ad" "soupX_counts" one_sample_store).2
  = Raise (KeyError "soupX_counts").
Proof.
  split.
  - destruct (stages_compose nat finding_assign counting_cells finding_assign
                counting_cells counting_cells
                [(Normalization, zeros_generator);
                 (DimensionalityReduction, zeros_generator);
                 (Clustering, zeros_generator)]
                "sample/quality_control.h5ad" "soupX_counts" one_sample_store
                0%nat) as (_ & Hok & _); [vm_compute; reflexivity|].
    now destruct (Hok 3%nat eq_refl) as [Hres _].
  - destruct (stages_compose nat finding_assign counting_cells missing_layer
                counting_cells counting_cells
                [(Normalization, zeros_generator);
                 (DimensionalityReduction, zeros_generator);
                 (Clustering, zeros_generator)]
                "sample/quality_control.h5ad" "soupX_counts" one_sample_store
                0%nat) as (Hend & _); [vm_compute; reflexivity|].
    exact Hend.
Defined.

(** X21.  Two normalization notebooks that save to one input path with
    different random bytes never block each other: whatever has happened
    so far, a notebook that is not done can take its next step, its rename
    always finding the temporary file; and once both are done, the input
    path holds the complete dataset of one of them, both temporary files
    are gone and every other path is as at the start. *)
Theorem concurrent_saves_finish (artifact : Type) (input_file : string)
  (g1 g2 : generator) (a1 a2 : artifact)
  (st0 : gmap string (file artifact)) (m : machine artifact) :
  random_bytes g1 10 <> random_bytes g2 10 ->
  st0 !! input_file <> Some Partial ->
  reachable (st0, normalization_save input_file g1 a1,
                  normalization_save input_file g2 a2) m ->
  (m.1.2 <> [] \/ m.2 <> [] -> exists m', step m m') /\
  (m.1.2 = [] -> m.2 = [] ->
   (m.1.1 !! input_file = Some (Complete a1)
    \/ m.1.1 !! input_file = Some (Complete a2)) /\
   m.1.1 !! tmp_name input_file g1 = None /\
   m.1.1 !! tmp_name input_file g2 = None /\
   forall p, p <> input_file -> p <> tmp_name input_file g1 ->
             p <> tmp_name input_file g2 -> m.1.1 !! p = st0 !! p).
Proof.
  intros Hd H0 Hreach.
  destruct (StagesFacts.input_never_partial artifact input_file g1 g2 a1 a2
              Hd st0 m H0 Hreach) as (_ & Hl & Hr).
  pose proof (StagesFacts.reachable_settled artifact input_file g1 g2 a1 a2 Hd st0 m
                H0 Hreach) as (H1 & H2 & _ & H4 & H5).
  destruct m as [[st todo1] todo2]. cbn [fst snd] in *. split.
  - intros [Hn|Hn].
    + destruct todo1 as [|x l]; [congruence|].
      destruct (StagesFacts.saving_can_step artifact input_file st _ a1 x l Hl) as [st' Hact].
      exists (st', l, todo2). now apply step_left.
    + destruct todo2 as [|x r]; [congruence|].
      destruct (StagesFacts.saving_can_step artifact input_file st _ a2 x r Hr) as [st' Hact].
      exists (st', todo1, r). now apply step_right.
  - intros E1 E2. split; [apply H4; now left|]. auto.
Qed.

(** The theorem at work: one notebook saves, then the other. *)
Lemma concurrent_saves_finish_example :
  exists st,
    reachable (one_sample_store,
               normalization_save "sample/quality_control.h5ad" zeros_generator 1%nat,
               normalization_save "sample/quality_control.h5ad" ones_generator 2%nat)
              (st, [], []) /\
    (st !! "sample/quality_control.h5ad" = Some (Complete 1%nat)
     \/ st !! "sample/quality_control.h5ad" = Some (Complete 2%nat)).
Proof.
  set (input := "sample/quality_control.h5ad").
  set (t1 := tmp_name input zeros_generator).
  set (t2 := tmp_name input ones_generator).
  set (s1 := <[t1 := Partial]> one_sample_store).
  set (s2 := <[t1 := Complete 1%nat]> s1).
  set (s3 := <[input := Complete 1%nat]> (delete t1 s2)).
  set (s4 := <[t2 := Partial]> s3).
  set (s5 := <[t2 := Complete 2%nat]> s4).
  set (s6 := <[input := Complete 2%nat]> (delete t2 s5)).
  assert (Hreach : reachable
            (one_sample_store, normalization_save input zeros_generator 1%nat,
             normalization_save input ones_generator 2%nat) (s6, [], [])).
  { eapply reach_step; [eapply reach_step; [eapply reach_step;
      [eapply reach_step; [eapply reach_step; [eapply reach_step;
        [apply reach_refl|]|]|]|]|]|].
    - apply (step_left _ (Truncate t1) _ _ one_sample_store s1). reflexivity.
    - apply (step_left _ (Fill t1 1%nat) _ _ s1 s2). reflexivity.
    - apply (step_left _ (Move t1 input) _ _ s2 s3). cbn [act].
      unfold s2. now rewrite lookup_insert_eq.
    - apply (step_right _ (Truncate t2) _ _ s3 s4). reflexivity.
    - apply (step_right _ (Fill t2 2%nat) _ _ s4 s5). reflexivity.
    - apply (step_right _ (Move t2 input) _ _ s5 s6). cbn [act].
      unfold s5. now rewrite lookup_insert_eq. }
  exists s6. split; [exact Hreach|].
  refine (proj1 (proj2 (concurrent_saves_finish nat input zeros_generator
                          ones_generator 1%nat 2%nat one_sample_store
                          (s6, [], []) _ _ Hreach) eq_refl eq_refl)).
  - intros H. vm_compute in H. discriminate H.
  - intros H. vm_compute in H. discriminate H.
Defined.

End StagesRunsFacts.
